(** * Conversation-state engine of the WhatsApp clone

    A shallow embedding of the handlers of [ChatSidebar.tsx], [ChatArea.tsx],
    [Stories.tsx] and of [App.tsx] (conversation directory, message pipeline,
    story lifecycle and playback), together with the properties the
    specification states about them.

    Conventions of the embedding.
    - A JavaScript string is a [string] (a sequence of 8-bit code units).
    - A JavaScript number holding a timestamp, an index or a progress value
      is an integer of [Z]; all of them stay far below 2^53.
    - A collection of the document store ([blink.db.<name>]) is the list of
      its rows in insertion order; [list] filters that list, [create]
      appends to it.  Rows are not keyed: the store never rejects a second
      row with the id of an existing one.
    - React state is a record; a handler maps the state before the event to
      the state after it.  The readings of [Date.now()] are arguments of
      the handler: the reading that names a message or a story and the
      reading that stamps it are separate arguments, the other stamps of
      one handler share a reading.
    - A store or upload call completes unless the handler takes a flag
      that says otherwise; the flags are there for the calls whose failure
      the specification speaks about.  A reload that a handler starts
      without awaiting it ([loadMessages], [loadChats], [loadStories]) is
      taken to finish within the handler; [handleFileUpload], which starts
      one reload per file inside its loop, is given without them.
    - [handleViewStory] awaits the store before it sets its timer; both the
      call run to its end and the call split at the [await] are given. *)

From Stdlib Require Import ZArith List String Ascii Bool Lia DecimalString.
From Stdlib Require Import Permutation Sorted.
From Stdlib Require DecimalPos DecimalZ.
Import ListNotations.

Local Open Scope string_scope.
Local Open Scope list_scope.
Local Open Scope Z_scope.

(* ===================================================================== *)
(** ** JavaScript helpers *)
(* ===================================================================== *)

Module Js.

(** [`${n}`] for an integral number. *)
Definition num_to_string (n : Z) : string :=
  NilZero.string_of_int (Z.to_int n).

(** A template literal: the pieces one after the other. *)
Definition template (parts : list string) : string :=
  String.concat EmptyString parts.

(** White space and line terminators of ECMAScript below code unit 256:
    TAB, LF, VT, FF, CR, SP and NBSP. *)
Definition isWhiteSpace (c : ascii) : bool :=
  let n := nat_of_ascii c in
  ((9 <=? n)%nat && (n <=? 13)%nat) || (n =? 32)%nat || (n =? 160)%nat.

Fixpoint dropWhile {A : Type} (p : A -> bool) (l : list A) : list A :=
  match l with
  | [] => []
  | x :: r => if p x then dropWhile p r else l
  end.

(** [String.prototype.trim]. *)
Definition trim (s : string) : string :=
  string_of_list_ascii
    (rev (dropWhile isWhiteSpace
            (rev (dropWhile isWhiteSpace (list_ascii_of_string s))))).

(** Truthiness of a string: the empty string is the only falsy one. *)
Definition truthy (s : string) : bool := negb (s =? EmptyString)%string.

(** [arr[i]]: [undefined] outside of the array. *)
Definition index {A : Type} (l : list A) (i : Z) : option A :=
  if i <? 0 then None else nth_error l (Z.to_nat i).

(** [arr.length] as a number. *)
Definition len {A : Type} (l : list A) : Z := Z.of_nat (List.length l).

End Js.

(* ===================================================================== *)
(** ** The document store *)
(* ===================================================================== *)

Inductive ChatType := individual | group.
Inductive MessageType := text | image | video | audio | document.
Inductive Role := admin | member.

Record User := {
  user_id : string;
  displayName : string
}.

Record ChatRow := {
  chat_id : string;
  chat_name : option string;
  chat_type : ChatType;
  chat_avatarUrl : option string;
  chat_createdBy : string;
  chat_createdAt : Z;
  chat_updatedAt : Z;
  chat_lastMessageAt : Z
}.

Record ParticipantRow := {
  cp_id : string;
  cp_chatId : string;
  cp_userId : string;
  cp_joinedAt : Z
}.

Record GroupRow := {
  group_id : string;
  group_name : string;
  group_description : string;
  group_createdBy : string;
  group_createdAt : Z;
  group_updatedAt : Z
}.

Record GroupMemberRow := {
  gm_id : string;
  gm_groupId : string;
  gm_userId : string;
  gm_role : Role;
  gm_joinedAt : Z
}.

Record MessageRow := {
  msg_id : string;
  msg_chatId : string;
  msg_senderId : string;
  msg_content : string;
  msg_messageType : MessageType;
  msg_fileUrl : option string;
  msg_replyToMessageId : option string;
  msg_isForwarded : bool;
  msg_isStarred : bool;
  msg_createdAt : Z;
  msg_updatedAt : option Z
}.

Record StoryRow := {
  story_id : string;
  story_userId : string;
  story_contentUrl : string;
  story_isVideo : bool;
  story_caption : string;
  story_createdAt : Z;
  story_expiresAt : Z
}.

Record StoryViewRow := {
  view_id : string;
  view_storyId : string;
  view_viewerId : string;
  view_viewedAt : Z
}.

Module Store.

(** [blink.db]: one table per collection. *)
Record Db := {
  users : list User;
  chats : list ChatRow;
  chatParticipants : list ParticipantRow;
  groups : list GroupRow;
  groupMembers : list GroupMemberRow;
  messages : list MessageRow;
  stories : list StoryRow;
  storyViews : list StoryViewRow
}.

(** [blink.db.t.create(row)]. *)
Definition create {R : Type} (row : R) (table : list R) : list R :=
  table ++ [row].

(** [blink.db.t.list({ where })]. *)
Definition list_where {R : Type} (where_ : R -> bool) (table : list R)
  : list R := filter where_ table.

(** [blink.db.t.delete(id)]. *)
Definition delete {R : Type} (key : R -> string) (id : string)
    (table : list R) : list R :=
  filter (fun r => negb (key r =? id)%string) table.

(** [blink.db.t.update(id, patch)]. *)
Definition update {R : Type} (key : R -> string) (id : string)
    (patch : R -> R) (table : list R) : list R :=
  map (fun r => if (key r =? id)%string then patch r else r) table.

(** [orderBy: { k: 'asc' }]: a stable insertion sort on the key. *)
Fixpoint insert_asc {R : Type} (k : R -> Z) (x : R) (l : list R) : list R :=
  match l with
  | [] => [x]
  | y :: r => if k y <=? k x then y :: insert_asc k x r else x :: l
  end.

Definition order_asc {R : Type} (k : R -> Z) (l : list R) : list R :=
  fold_left (fun acc x => insert_asc k x acc) l [].

(** [orderBy: { k: 'desc' }]. *)
Definition order_desc {R : Type} (k : R -> Z) (l : list R) : list R :=
  order_asc (fun r => - k r) l.

(** [limit: n]. *)
Definition limit {R : Type} (n : nat) (l : list R) : list R := firstn n l.

Definition set_chats (d : Db) (t : list ChatRow) : Db :=
  {| users := users d; chats := t; chatParticipants := chatParticipants d;
     groups := groups d; groupMembers := groupMembers d;
     messages := messages d; stories := stories d;
     storyViews := storyViews d |}.

Definition set_chatParticipants (d : Db) (t : list ParticipantRow) : Db :=
  {| users := users d; chats := chats d; chatParticipants := t;
     groups := groups d; groupMembers := groupMembers d;
     messages := messages d; stories := stories d;
     storyViews := storyViews d |}.

Definition set_groups (d : Db) (t : list GroupRow) : Db :=
  {| users := users d; chats := chats d;
     chatParticipants := chatParticipants d;
     groups := t; groupMembers := groupMembers d;
     messages := messages d; stories := stories d;
     storyViews := storyViews d |}.

Definition set_groupMembers (d : Db) (t : list GroupMemberRow) : Db :=
  {| users := users d; chats := chats d;
     chatParticipants := chatParticipants d;
     groups := groups d; groupMembers := t;
     messages := messages d; stories := stories d;
     storyViews := storyViews d |}.

Definition set_messages (d : Db) (t : list MessageRow) : Db :=
  {| users := users d; chats := chats d;
     chatParticipants := chatParticipants d;
     groups := groups d; groupMembers := groupMembers d;
     messages := t; stories := stories d;
     storyViews := storyViews d |}.

Definition set_stories (d : Db) (t : list StoryRow) : Db :=
  {| users := users d; chats := chats d;
     chatParticipants := chatParticipants d;
     groups := groups d; groupMembers := groupMembers d;
     messages := messages d; stories := t;
     storyViews := storyViews d |}.

Definition set_storyViews (d : Db) (t : list StoryViewRow) : Db :=
  {| users := users d; chats := chats d;
     chatParticipants := chatParticipants d;
     groups := groups d; groupMembers := groupMembers d;
     messages := messages d; stories := stories d;
     storyViews := t |}.

Definition empty : Db :=
  {| users := []; chats := []; chatParticipants := []; groups := [];
     groupMembers := []; messages := []; stories := []; storyViews := [] |}.

End Store.

(** How an asynchronous handler completes: its promise resolves, or it
    rejects with an error.  The error kinds are the ones the specification
    names. *)
Inductive ErrorKind :=
  ValidationError | PermissionError | NotFoundError | UploadError | StoreError.

Inductive Completion := Resolved | Rejected (e : ErrorKind).

(* ===================================================================== *)
(** ** Conversation directory: [App.handleNewChat], [App.handleChatSelect],
       [ChatSidebar.handleStartChat], [ChatSidebar.handleCreateGroup] *)
(* ===================================================================== *)

Module Directory.

(** An entry of the sidebar's [chats] list (the last message and the
    presence of the counterpart, which [loadChats] also fetches, are left
    out of the entry). *)
Record ChatView := {
  cv_id : string;
  cv_name : option string;
  cv_type : ChatType
}.

(** The store together with the React state of [App] and [ChatSidebar]. *)
Record State := {
  db : Store.Db;
  selectedChatId : option string;
  showMobileSidebar : bool;
  showNewChatDialog : bool;
  showNewGroupDialog : bool;
  selectedUsers : list string;
  groupName : string;
  sidebarChats : list ChatView
}.

Definition with_db (st : State) (d : Store.Db) : State :=
  {| db := d; selectedChatId := selectedChatId st;
     showMobileSidebar := showMobileSidebar st;
     showNewChatDialog := showNewChatDialog st;
     showNewGroupDialog := showNewGroupDialog st;
     selectedUsers := selectedUsers st; groupName := groupName st;
     sidebarChats := sidebarChats st |}.

Definition setShowNewChatDialog (b : bool) (st : State) : State :=
  {| db := db st; selectedChatId := selectedChatId st;
     showMobileSidebar := showMobileSidebar st;
     showNewChatDialog := b;
     showNewGroupDialog := showNewGroupDialog st;
     selectedUsers := selectedUsers st; groupName := groupName st;
     sidebarChats := sidebarChats st |}.

(** [App.handleChatSelect]. *)
Definition handleChatSelect (chatId : string) (st : State) : State :=
  {| db := db st; selectedChatId := Some chatId;
     showMobileSidebar := false;
     showNewChatDialog := showNewChatDialog st;
     showNewGroupDialog := showNewGroupDialog st;
     selectedUsers := selectedUsers st; groupName := groupName st;
     sidebarChats := sidebarChats st |}.

Definition participantRow (chatId userId : string) (now : Z)
  : ParticipantRow :=
  {| cp_id := Js.template ["cp_"; chatId; "_"; userId];
     cp_chatId := chatId; cp_userId := userId; cp_joinedAt := now |}.

(** [App.handleNewChat]: the chat row, then the requester's membership,
    then the counterpart's. *)
Definition handleNewChat (currentUser : option User) (userId : string)
    (now : Z) (st : State) : State :=
  match currentUser with
  | None => st
  | Some cu =>
      let chatId := Js.template ["chat_"; Js.num_to_string now] in
      let d1 := Store.set_chats (db st)
        (Store.create
           {| chat_id := chatId; chat_name := None;
              chat_type := individual; chat_avatarUrl := None;
              chat_createdBy := user_id cu; chat_createdAt := now;
              chat_updatedAt := now; chat_lastMessageAt := 0 |}
           (Store.chats (db st))) in
      let d2 := Store.set_chatParticipants d1
        (Store.create (participantRow chatId (user_id cu) now)
           (Store.chatParticipants d1)) in
      let d3 := Store.set_chatParticipants d2
        (Store.create (participantRow chatId userId now)
           (Store.chatParticipants d2)) in
      handleChatSelect chatId (with_db st d3)
  end.

(** The second query of [handleStartChat]:
    [where: { AND: [{ chatId }, { userId }] }]. *)
Definition sameChatAndUser (chatId userId : string) (p : ParticipantRow)
  : bool :=
  (cp_chatId p =? chatId)%string && (cp_userId p =? userId)%string.

(** The [for] loop of [handleStartChat] over the requester's memberships:
    the first membership whose chat also lists [userId] ends the loop. *)
Fixpoint scanExisting (table : list ParticipantRow) (userId : string)
    (existingChats : list ParticipantRow) : option string :=
  match existingChats with
  | [] => None
  | participant :: rest =>
      let otherParticipants :=
        Store.list_where (sameChatAndUser (cp_chatId participant) userId)
          table in
      if Js.len otherParticipants >? 0
      then Some (cp_chatId participant)
      else scanExisting table userId rest
  end.

(** [ChatSidebar.handleStartChat].  With no current user the first
    [currentUser!.id] throws inside the [try] and the handler only logs. *)
Definition handleStartChat (currentUser : option User) (userId : string)
    (now : Z) (st : State) : State :=
  match currentUser with
  | None => st
  | Some cu =>
      let existingChats :=
        Store.list_where (fun p => (cp_userId p =? user_id cu)%string)
          (Store.chatParticipants (db st)) in
      match scanExisting (Store.chatParticipants (db st)) userId existingChats with
      | Some chatId => setShowNewChatDialog false (handleChatSelect chatId st)
      | None =>
          setShowNewChatDialog false (handleNewChat currentUser userId now st)
      end
  end.

(** [ChatSidebar.loadChats], reduced to the id, type and display name of
    each chat of the user, most recently joined first. *)
Definition loadChats (currentUser : option User) (st : State) : State :=
  match currentUser with
  | None => st
  | Some cu =>
      let d := db st in
      let userChats :=
        Store.order_desc cp_joinedAt
          (Store.list_where (fun p => (cp_userId p =? user_id cu)%string)
             (Store.chatParticipants d)) in
      let view (participant : ParticipantRow) : list ChatView :=
        match Store.limit 1
                (Store.list_where
                   (fun c => (chat_id c =? cp_chatId participant)%string)
                   (Store.chats d)) with
        | [] => []
        | chatData :: _ =>
            let others :=
              Store.list_where
                (fun p => (cp_chatId p =? chat_id chatData)%string
                          && negb (cp_userId p =? user_id cu)%string)
                (Store.chatParticipants d) in
            let chatName :=
              match chat_type chatData, others with
              | individual, other :: _ =>
                  match Store.limit 1
                          (Store.list_where
                             (fun u => (user_id u =? cp_userId other)%string)
                             (Store.users d)) with
                  | otherUser :: _ => Some (displayName otherUser)
                  | [] => chat_name chatData
                  end
              | _, _ => chat_name chatData
              end in
            [{| cv_id := chat_id chatData; cv_name := chatName;
                cv_type := chat_type chatData |}]
        end in
      {| db := d; selectedChatId := selectedChatId st;
         showMobileSidebar := showMobileSidebar st;
         showNewChatDialog := showNewChatDialog st;
         showNewGroupDialog := showNewGroupDialog st;
         selectedUsers := selectedUsers st; groupName := groupName st;
         sidebarChats := flat_map view userChats |}
  end.

(** One turn of the member loop of [handleCreateGroup]. *)
Definition addMember (cu : User) (groupId chatId : string) (now : Z)
    (d : Store.Db) (userId : string) : Store.Db :=
  let d1 := Store.set_groupMembers d
    (Store.create
       {| gm_id := Js.template ["gm_"; groupId; "_"; userId];
          gm_groupId := groupId; gm_userId := userId;
          gm_role := if (userId =? user_id cu)%string then admin else member;
          gm_joinedAt := now |}
       (Store.groupMembers d)) in
  Store.set_chatParticipants d1
    (Store.create (participantRow chatId userId now) (Store.chatParticipants d1)).

Definition quote : string := String "034"%char EmptyString.

(** [ChatSidebar.handleCreateGroup].  The guard returns before the [try];
    everything after it runs inside the [try], whose [catch] only logs, so
    the promise of the handler always resolves. *)
Definition handleCreateGroup (currentUser : option User) (now : Z)
    (st : State) : Completion * State :=
  if negb (Js.truthy (Js.trim (groupName st)))
     || (Js.len (selectedUsers st) =? 0)
  then (Resolved, st)
  else
    match currentUser with
    | None => (Resolved, st)
    | Some cu =>
        let groupId := Js.template ["group_"; Js.num_to_string now] in
        let chatId := Js.template ["chat_"; groupId] in
        let d1 := Store.set_groups (db st)
          (Store.create
             {| group_id := groupId; group_name := groupName st;
                group_description := EmptyString;
                group_createdBy := user_id cu;
                group_createdAt := now; group_updatedAt := now |}
             (Store.groups (db st))) in
        let d2 := Store.set_chats d1
          (Store.create
             {| chat_id := chatId; chat_name := Some (groupName st);
                chat_type := group; chat_avatarUrl := None;
                chat_createdBy := user_id cu; chat_createdAt := now;
                chat_updatedAt := now; chat_lastMessageAt := now |}
             (Store.chats d1)) in
        let allMembers := user_id cu :: selectedUsers st in
        let d3 := fold_left (addMember cu groupId chatId now) allMembers d2 in
        let d4 := Store.set_messages d3
          (Store.create
             {| msg_id := Js.template ["msg_"; Js.num_to_string now];
                msg_chatId := chatId; msg_senderId := user_id cu;
                msg_content :=
                  Js.template [displayName cu; " created group "; quote;
                               groupName st; quote];
                msg_messageType := text; msg_fileUrl := None;
                msg_replyToMessageId := None;
                msg_isForwarded := false; msg_isStarred := false;
                msg_createdAt := now; msg_updatedAt := Some now |}
             (Store.messages d3)) in
        let st1 :=
          {| db := d4; selectedChatId := selectedChatId st;
             showMobileSidebar := showMobileSidebar st;
             showNewChatDialog := showNewChatDialog st;
             showNewGroupDialog := false;
             selectedUsers := []; groupName := EmptyString;
             sidebarChats := sidebarChats st |} in
        (Resolved, handleChatSelect chatId (loadChats currentUser st1))
    end.

(** *** The operations as the specification names them *)

(** [resolveOrCreateIndividual(A, B)]: user [A] is signed in and starts a
    chat with [B]; the conversation id it yields is the chat selected
    afterwards. *)
Definition resolveOrCreateIndividual (A B : User) (now : Z) (st : State)
  : State :=
  handleStartChat (Some A) (user_id B) now st.

(** The conversation the scan of [handleStartChat] stops at when [A] asks
    for [B]. *)
Definition firstShared (A B : User) (d : Store.Db) : option string :=
  scanExisting (Store.chatParticipants d) (user_id B)
    (Store.list_where (fun p => (cp_userId p =? user_id A)%string)
       (Store.chatParticipants d)).

(** [u] has a membership row in chat [c]. *)
Definition participates (table : list ParticipantRow) (c u : string) : Prop :=
  exists p, In p table /\ cp_chatId p = c /\ cp_userId p = u.

(** The memberships of [u], in the order the store lists them. *)
Definition memberships (d : Store.Db) (u : User) : list ParticipantRow :=
  Store.list_where (fun p => (cp_userId p =? user_id u)%string)
    (Store.chatParticipants d).

(** A sequence of calls, one after the other; [true] is a call of [A] for
    [B], [false] a call of [B] for [A].  The result lists the conversation
    selected by each call. *)
Fixpoint resolveSequence (A B : User) (calls : list (bool * Z)) (st : State)
  : list (option string) :=
  match calls with
  | [] => []
  | (a_asks, now) :: rest =>
      let st' := if a_asks : bool
                 then resolveOrCreateIndividual A B now st
                 else resolveOrCreateIndividual B A now st in
      selectedChatId st' :: resolveSequence A B rest st'
  end.

(** *** Stores written by one handler at a time *)

(** Memberships are written in two places only: [handleNewChat] appends
    the two rows of a new individual chat, [handleCreateGroup] the rows of
    a new group chat.  When the handlers run one after the other and every
    generated id is new to the table, the table is a sequence of blocks,
    one per conversation: it is written chat by chat. *)
Inductive Chatwise : list ParticipantRow -> Prop :=
| Chatwise_nil : Chatwise []
| Chatwise_block (table block : list ParticipantRow) (c : string) :
    Chatwise table ->
    (forall p, In p table -> cp_chatId p <> c) ->
    (forall p, In p block -> cp_chatId p = c) ->
    Chatwise (table ++ block).

(** [u] has a row in [rows]. *)
Definition listsUser (u : string) (rows : list ParticipantRow) : bool :=
  existsb (fun p => (cp_userId p =? u)%string) rows.

(** The operations of the directory that write memberships: a user starts
    a chat with another one, or fills the group dialog and creates the
    group. *)
Inductive Op :=
| StartChat (requester other : User) (now : Z)
| CreateGroup (creator : User) (name : string) (members : list string)
    (now : Z).


(** The group dialog after the name was typed and the members ticked. *)
Definition fillGroupDialog (name : string) (members : list string)
    (st : State) : State :=
  {| db := db st; selectedChatId := selectedChatId st;
     showMobileSidebar := showMobileSidebar st;
     showNewChatDialog := showNewChatDialog st;
     showNewGroupDialog := true;
     selectedUsers := members; groupName := name;
     sidebarChats := sidebarChats st |}.

Definition runOp (st : State) (op : Op) : State :=
  match op with
  | StartChat requester other now =>
      handleStartChat (Some requester) (user_id other) now st
  | CreateGroup creator name members now =>
      snd (handleCreateGroup (Some creator) now
             (fillGroupDialog name members st))
  end.

(** The operations of a history run one after the other: each starts in
    the state the one before it has left. *)
Definition runOps (ops : list Op) (st : State) : State :=
  fold_left runOp ops st.




End Directory.

(* ===================================================================== *)
(** ** Message pipeline: [ChatArea.loadMessages], [ChatArea.sendMessage],
       [ChatArea.handleMessageAction] *)
(* ===================================================================== *)

Module Pipeline.

(** A message as the component holds it: the stored fields, the resolved
    sender and the quoted message of a reply. *)
#[warnings="-register-all"]
Inductive Message :=
  Msg (row : MessageRow) (sender : option User)
      (replyToMessage : option Message).

Definition row (m : Message) : MessageRow :=
  match m with Msg r _ _ => r end.

Definition sender (m : Message) : option User :=
  match m with Msg _ s _ => s end.

Definition quoted (m : Message) : option Message :=
  match m with Msg _ _ q => q end.

Definition id (m : Message) : string := msg_id (row m).

(** The store together with the React state of [ChatArea]; [clipboard] and
    [openedUrls] record [navigator.clipboard.writeText] and [window.open]. *)
Record State := {
  db : Store.Db;
  messages : list Message;
  newMessage : string;
  replyToMessage : option Message;
  selectedMessage : option Message;
  clipboard : option string;
  openedUrls : list string
}.

Definition with_db (st : State) (d : Store.Db) : State :=
  {| db := d; messages := messages st; newMessage := newMessage st;
     replyToMessage := replyToMessage st;
     selectedMessage := selectedMessage st;
     clipboard := clipboard st; openedUrls := openedUrls st |}.

Definition setMessages (f : list Message -> list Message) (st : State)
  : State :=
  {| db := db st; messages := f (messages st); newMessage := newMessage st;
     replyToMessage := replyToMessage st;
     selectedMessage := selectedMessage st;
     clipboard := clipboard st; openedUrls := openedUrls st |}.

Definition setSelectedMessage (m : option Message) (st : State) : State :=
  {| db := db st; messages := messages st; newMessage := newMessage st;
     replyToMessage := replyToMessage st;
     selectedMessage := m;
     clipboard := clipboard st; openedUrls := openedUrls st |}.

Definition setReplyToMessage (m : option Message) (st : State) : State :=
  {| db := db st; messages := messages st; newMessage := newMessage st;
     replyToMessage := m;
     selectedMessage := selectedMessage st;
     clipboard := clipboard st; openedUrls := openedUrls st |}.

(** A string prop or field that may be [null]/[undefined]: truthy when
    present and not empty. *)
Definition present (s : option string) : bool :=
  match s with Some x => Js.truthy x | None => false end.

Definition userById (d : Store.Db) (uid : string) : option User :=
  hd_error
    (Store.limit 1
       (Store.list_where (fun u => (user_id u =? uid)%string) (Store.users d))).

(** The body of the [map] of [loadMessages]: resolve the sender and, for a
    reply whose target still exists, the quoted message with its sender. *)
Definition withSender (d : Store.Db) (message : MessageRow) : Message :=
  let reply :=
    if present (msg_replyToMessageId message) then
      match msg_replyToMessageId message with
      | Some rid =>
          match Store.limit 1
                  (Store.list_where (fun m => (msg_id m =? rid)%string)
                     (Store.messages d)) with
          | replyMsg :: _ =>
              Some (Msg replyMsg (userById d (msg_senderId replyMsg)) None)
          | [] => None
          end
      | None => None
      end
    else None in
  Msg message (userById d (msg_senderId message)) reply.

(** [ChatArea.loadMessages]. *)
Definition loadMessages (selectedChatId : option string) (st : State)
  : State :=
  if present selectedChatId then
    match selectedChatId with
    | Some chatId =>
        let chatMessages :=
          Store.order_asc msg_createdAt
            (Store.list_where (fun m => (msg_chatId m =? chatId)%string)
               (Store.messages (db st))) in
        setMessages (fun _ => map (withSender (db st)) chatMessages) st
    | None => st
    end
  else st.

(** [ChatArea.sendMessage].  [idTime] and [now] are the two readings of
    [Date.now()]; [createOk] and [updateOk] tell whether
    [blink.db.messages.create] and [blink.db.chats.update] complete or
    throw.  Either throw lands in the [catch], which filters the message
    list by the generated id. *)
Definition sendMessage (currentUser : option User)
    (selectedChatId : option string) (idTime now : Z)
    (createOk updateOk : bool) (st : State) : State :=
  match currentUser, selectedChatId with
  | Some cu, Some chatId =>
      if negb (Js.truthy (Js.trim (newMessage st))) || negb (Js.truthy chatId)
      then st
      else
        let messageId := Js.template ["msg_"; Js.num_to_string idTime] in
        let fields (updatedAt : option Z) : MessageRow :=
          {| msg_id := messageId; msg_chatId := chatId;
             msg_senderId := user_id cu; msg_content := newMessage st;
             msg_messageType := text; msg_fileUrl := None;
             msg_replyToMessageId := option_map id (replyToMessage st);
             msg_isForwarded := false; msg_isStarred := false;
             msg_createdAt := now; msg_updatedAt := updatedAt |} in
        let optimisticMessage :=
          Msg (fields None) (Some cu) (replyToMessage st) in
        let st1 :=
          {| db := db st;
             messages := messages st ++ [optimisticMessage];
             newMessage := EmptyString; replyToMessage := None;
             selectedMessage := selectedMessage st;
             clipboard := clipboard st; openedUrls := openedUrls st |} in
        let rollback :=
          setMessages
            (filter (fun m => negb (id m =? messageId)%string)) in
        if createOk then
          let st2 := with_db st1
            (Store.set_messages (db st1)
               (Store.create (fields (Some now)) (Store.messages (db st1)))) in
          if updateOk then
            with_db st2
              (Store.set_chats (db st2)
                 (Store.update chat_id chatId
                    (fun c =>
                       {| chat_id := chat_id c; chat_name := chat_name c;
                          chat_type := chat_type c;
                          chat_avatarUrl := chat_avatarUrl c;
                          chat_createdBy := chat_createdBy c;
                          chat_createdAt := chat_createdAt c;
                          chat_updatedAt := now;
                          chat_lastMessageAt := now |})
                    (Store.chats (db st2))))
          else rollback st2
        else rollback st1
  | _, _ => st
  end.

Definition setStarred (b : bool) (m : MessageRow) : MessageRow :=
  {| msg_id := msg_id m; msg_chatId := msg_chatId m;
     msg_senderId := msg_senderId m; msg_content := msg_content m;
     msg_messageType := msg_messageType m; msg_fileUrl := msg_fileUrl m;
     msg_replyToMessageId := msg_replyToMessageId m;
     msg_isForwarded := msg_isForwarded m; msg_isStarred := b;
     msg_createdAt := msg_createdAt m; msg_updatedAt := msg_updatedAt m |}.

(** [ChatArea.handleMessageAction].  The handler has no [try]: a store call
    that throws ([storeOk = false]) rejects its promise where it stands.
    The current user is not an input of the handler. *)
Definition handleMessageAction (selectedChatId : option string)
    (storeOk : bool) (action : string) (message : Message) (st : State)
  : Completion * State :=
  if (action =? "reply")%string then
    (Resolved, setSelectedMessage None (setReplyToMessage (Some message) st))
  else if (action =? "star")%string then
    if storeOk then
      let d := Store.set_messages (db st)
        (Store.update msg_id (id message)
           (setStarred (negb (msg_isStarred (row message))))
           (Store.messages (db st))) in
      (Resolved,
       setSelectedMessage None (loadMessages selectedChatId (with_db st d)))
    else (Rejected StoreError, st)
  else if (action =? "copy")%string then
    (Resolved,
     setSelectedMessage None
       {| db := db st; messages := messages st; newMessage := newMessage st;
          replyToMessage := replyToMessage st;
          selectedMessage := selectedMessage st;
          clipboard := Some (msg_content (row message));
          openedUrls := openedUrls st |})
  else if (action =? "delete")%string then
    if storeOk then
      let d := Store.set_messages (db st)
        (Store.delete msg_id (id message) (Store.messages (db st))) in
      (Resolved,
       setSelectedMessage None (loadMessages selectedChatId (with_db st d)))
    else (Rejected StoreError, st)
  else if (action =? "download")%string then
    match msg_fileUrl (row message) with
    | Some url =>
        if Js.truthy url then
          (Resolved,
           setSelectedMessage None
             {| db := db st; messages := messages st;
                newMessage := newMessage st;
                replyToMessage := replyToMessage st;
                selectedMessage := selectedMessage st;
                clipboard := clipboard st;
                openedUrls := openedUrls st ++ [url] |})
        else (Resolved, setSelectedMessage None st)
    | None => (Resolved, setSelectedMessage None st)
    end
  else (Resolved, setSelectedMessage None st).

(** The items of the message menu ([DropdownMenuContent]): Reply, Star and
    Copy are always rendered, Download for a message with a file, Delete
    for a message whose sender is the current user. *)
Definition menuOffers (currentUser : option User) (action : string)
    (message : Message) : bool :=
  if (action =? "reply")%string then true
  else if (action =? "star")%string then true
  else if (action =? "copy")%string then true
  else if (action =? "download")%string then present (msg_fileUrl (row message))
  else if (action =? "delete")%string then
    match currentUser with
    | Some cu => (msg_senderId (row message) =? user_id cu)%string
    | None => false
    end
  else false.

(** A click in the menu: only a rendered item can be clicked. *)
Definition menuClick (currentUser : option User)
    (selectedChatId : option string) (storeOk : bool) (action : string)
    (message : Message) (st : State) : Completion * State :=
  if menuOffers currentUser action message
  then handleMessageAction selectedChatId storeOk action message st
  else (Resolved, st).

(** A file handed to [handleFileUpload]: its name and its declared media
    type. *)
Record UploadFile := {
  upload_name : string;
  upload_type : string
}.

(** What happens around one file of [handleFileUpload]: the [publicUrl] of
    the upload ([None] when the upload throws), the readings of
    [Date.now()] and the text of [Math.random()] behind the message id, the
    reading behind [now], and whether [blink.db.messages.create]
    completes. *)
Record UploadRun := {
  run_file : UploadFile;
  run_publicUrl : option string;
  run_idTime : Z;
  run_random : string;
  run_now : Z;
  run_createOk : bool
}.

(** The classification of [handleFileUpload] by the declared media type. *)
Definition messageTypeOf (mediaType : string) : MessageType :=
  if String.prefix "image/" mediaType then image
  else if String.prefix "video/" mediaType then video
  else if String.prefix "audio/" mediaType then audio
  else document.

(** The row [handleFileUpload] creates for a file (the columns [fileName]
    and [fileSize] are not part of [MessageRow]). *)
Definition uploadRow (cu : User) (chatId : string) (publicUrl : string)
    (r : UploadRun) : MessageRow :=
  {| msg_id :=
       Js.template ["msg_"; Js.num_to_string (run_idTime r); "_";
                    run_random r];
     msg_chatId := chatId; msg_senderId := user_id cu;
     msg_content := upload_name (run_file r);
     msg_messageType := messageTypeOf (upload_type (run_file r));
     msg_fileUrl := Some publicUrl; msg_replyToMessageId := None;
     msg_isForwarded := false; msg_isStarred := false;
     msg_createdAt := run_now r; msg_updatedAt := Some (run_now r) |}.

(** One turn of the loop of [handleFileUpload]: the body of the [try]; a
    throw of the upload or of the create is caught inside the loop and the
    loop goes on with the next file.  The turn awaits the upload and the
    create; [loadMessages()] it only starts.  The reloads of several files
    overlap and the handler returns before the last of them has set the
    message list, so a turn maps the store to the store and counts the
    reload it has started; the message list is not its business. *)
Definition uploadOne (cu : User) (chatId : string) (acc : Store.Db * nat)
    (r : UploadRun) : Store.Db * nat :=
  let (d, started) := acc in
  match run_publicUrl r with
  | None => acc
  | Some publicUrl =>
      if run_createOk r then
        (Store.set_messages d
           (Store.create (uploadRow cu chatId publicUrl r)
              (Store.messages d)),
         S started)
      else acc
  end.

(** [ChatArea.handleFileUpload]: the store after the loop and the number
    of reloads it has started. *)
Definition handleFileUpload (currentUser : option User)
    (selectedChatId : option string) (runs : list UploadRun) (d : Store.Db)
  : Store.Db * nat :=
  match currentUser, selectedChatId with
  | Some cu, Some chatId =>
      if Js.truthy chatId then fold_left (uploadOne cu chatId) runs (d, 0%nat)
      else (d, 0%nat)
  | _, _ => (d, 0%nat)
  end.

(** The rows one file adds to the store. *)
Definition rowsOf (cu : User) (chatId : string) (r : UploadRun)
  : list MessageRow :=
  match run_publicUrl r with
  | Some publicUrl =>
      if run_createOk r then [uploadRow cu chatId publicUrl r] else []
  | None => []
  end.

(** The files of a drop that end up as messages. *)
Definition delivered (r : UploadRun) : bool :=
  match run_publicUrl r with
  | Some _ => run_createOk r
  | None => false
  end.

End Pipeline.

(* ===================================================================== *)
(** ** Story lifecycle: [Stories.loadStories], [Stories.handleAddStory],
       [Stories.handleViewStory] and the playback handlers *)
(* ===================================================================== *)

Module StoryEngine.

Record StoryView := {
  view_row : StoryViewRow;
  viewer : option User
}.

(** A story as the component holds it: the stored fields, the resolved
    author and the views with their viewers. *)
Record Story := {
  story_row : StoryRow;
  user : option User;
  views : list StoryView
}.

Record File := {
  file_name : string;
  file_type : string
}.

(** The store, the React state of [Stories] and the part of the JavaScript
    run time the handlers use: [intervals] are the interval timers that
    have been set and not cleared, each with the [index] its callback
    closed over; [suspended] are the calls of [handleViewStory] waiting at
    their [await] for the store, each with its arguments. *)
Record State := {
  db : Store.Db;
  stories : list Story;
  myStories : list Story;
  selectedStory : option Story;
  currentStoryIndex : Z;
  showStoryViewer : bool;
  showAddStory : bool;
  storyCaption : string;
  selectedFile : option File;
  storyProgress : Z;
  storyTimer : option nat;
  intervals : list (nat * Z);
  nextTimer : nat;
  suspended : list (Story * Z)
}.

Definition with_db (st : State) (d : Store.Db) : State :=
  {| db := d; stories := stories st; myStories := myStories st;
     selectedStory := selectedStory st;
     currentStoryIndex := currentStoryIndex st;
     showStoryViewer := showStoryViewer st; showAddStory := showAddStory st;
     storyCaption := storyCaption st; selectedFile := selectedFile st;
     storyProgress := storyProgress st; storyTimer := storyTimer st;
     intervals := intervals st; nextTimer := nextTimer st;
     suspended := suspended st |}.

Definition setStoryProgress (p : Z) (st : State) : State :=
  {| db := db st; stories := stories st; myStories := myStories st;
     selectedStory := selectedStory st;
     currentStoryIndex := currentStoryIndex st;
     showStoryViewer := showStoryViewer st; showAddStory := showAddStory st;
     storyCaption := storyCaption st; selectedFile := selectedFile st;
     storyProgress := p; storyTimer := storyTimer st;
     intervals := intervals st; nextTimer := nextTimer st;
     suspended := suspended st |}.

Definition setShowStoryViewer (b : bool) (st : State) : State :=
  {| db := db st; stories := stories st; myStories := myStories st;
     selectedStory := selectedStory st;
     currentStoryIndex := currentStoryIndex st;
     showStoryViewer := b; showAddStory := showAddStory st;
     storyCaption := storyCaption st; selectedFile := selectedFile st;
     storyProgress := storyProgress st; storyTimer := storyTimer st;
     intervals := intervals st; nextTimer := nextTimer st;
     suspended := suspended st |}.

Definition setShowAddStory (b : bool) (st : State) : State :=
  {| db := db st; stories := stories st; myStories := myStories st;
     selectedStory := selectedStory st;
     currentStoryIndex := currentStoryIndex st;
     showStoryViewer := showStoryViewer st; showAddStory := b;
     storyCaption := storyCaption st; selectedFile := selectedFile st;
     storyProgress := storyProgress st; storyTimer := storyTimer st;
     intervals := intervals st; nextTimer := nextTimer st;
     suspended := suspended st |}.

Definition setSuspended (l : list (Story * Z)) (st : State) : State :=
  {| db := db st; stories := stories st; myStories := myStories st;
     selectedStory := selectedStory st;
     currentStoryIndex := currentStoryIndex st;
     showStoryViewer := showStoryViewer st; showAddStory := showAddStory st;
     storyCaption := storyCaption st; selectedFile := selectedFile st;
     storyProgress := storyProgress st; storyTimer := storyTimer st;
     intervals := intervals st; nextTimer := nextTimer st;
     suspended := l |}.

(** [clearInterval(t)]. *)
Definition clearInterval (t : nat) (st : State) : State :=
  {| db := db st; stories := stories st; myStories := myStories st;
     selectedStory := selectedStory st;
     currentStoryIndex := currentStoryIndex st;
     showStoryViewer := showStoryViewer st; showAddStory := showAddStory st;
     storyCaption := storyCaption st; selectedFile := selectedFile st;
     storyProgress := storyProgress st; storyTimer := storyTimer st;
     intervals := filter (fun e => negb (fst e =? t)%nat) (intervals st);
     nextTimer := nextTimer st;
     suspended := suspended st |}.

(** The end of [handleViewStory]: [const timer = setInterval(..., 100)]
    followed by [setStoryTimer(timer)]. *)
Definition startTimer (index : Z) (st : State) : State :=
  {| db := db st; stories := stories st; myStories := myStories st;
     selectedStory := selectedStory st;
     currentStoryIndex := currentStoryIndex st;
     showStoryViewer := showStoryViewer st; showAddStory := showAddStory st;
     storyCaption := storyCaption st; selectedFile := selectedFile st;
     storyProgress := storyProgress st;
     storyTimer := Some (nextTimer st);
     intervals := intervals st ++ [(nextTimer st, index)];
     nextTimer := S (nextTimer st);
     suspended := suspended st |}.

(** The body of the [map] of [loadStories]. *)
Definition withUserAndViews (d : Store.Db) (story : StoryRow) : Story :=
  let byId (uid : string) : option User :=
    hd_error
      (Store.limit 1
         (Store.list_where (fun u => (user_id u =? uid)%string)
            (Store.users d))) in
  {| story_row := story;
     user := byId (story_userId story);
     views :=
       map (fun v => {| view_row := v; viewer := byId (view_viewerId v) |})
         (Store.list_where
            (fun v => (view_storyId v =? story_id story)%string)
            (Store.storyViews d)) |}.

(** [Stories.loadStories]: the stories whose [expiresAt] is greater than
    [now], newest first, split into the user's own and the others'. *)
Definition loadStories (currentUser : option User) (now : Z) (st : State)
  : State :=
  match currentUser with
  | None => st
  | Some cu =>
      let activeStories :=
        Store.order_desc story_createdAt
          (Store.list_where (fun s => story_expiresAt s >? now)
             (Store.stories (db st))) in
      let storiesWithUsers := map (withUserAndViews (db st)) activeStories in
      let myStoriesList :=
        filter (fun s => (story_userId (story_row s) =? user_id cu)%string)
          storiesWithUsers in
      let otherStories :=
        filter
          (fun s => negb (story_userId (story_row s) =? user_id cu)%string)
          storiesWithUsers in
      {| db := db st; stories := otherStories; myStories := myStoriesList;
         selectedStory := selectedStory st;
         currentStoryIndex := currentStoryIndex st;
         showStoryViewer := showStoryViewer st;
         showAddStory := showAddStory st;
         storyCaption := storyCaption st; selectedFile := selectedFile st;
         storyProgress := storyProgress st; storyTimer := storyTimer st;
         intervals := intervals st; nextTimer := nextTimer st;
         suspended := suspended st |}
  end.

(** What [listActive] shows to the user at time [now]: own stories first,
    then the others'. *)
Definition listActive (currentUser : option User) (now : Z) (st : State)
  : list Story :=
  let st' := loadStories currentUser now st in
  myStories st' ++ stories st'.

(** [Stories.handleAddStory].  [idTime] and [now] are the clock readings
    behind [storyId] and [now]; [upload] is the [publicUrl] the upload
    yields, or [None] when it throws; [createOk] tells whether
    [blink.db.stories.create] completes; [reloadTime] is the clock reading
    of the [loadStories] at the end. *)
Definition handleAddStory (currentUser : option User)
    (idTime now reloadTime : Z) (upload : option string) (createOk : bool)
    (st : State) : State :=
  match selectedFile st, currentUser with
  | Some file, Some cu =>
      match upload with
      | None => st
      | Some publicUrl =>
          if createOk then
            let storyId := Js.template ["story_"; Js.num_to_string idTime] in
            let expiresAt := now + (24 * 60 * 60 * 1000) in
            let d := Store.set_stories (db st)
              (Store.create
                 {| story_id := storyId; story_userId := user_id cu;
                    story_contentUrl := publicUrl;
                    story_isVideo := String.prefix "video/" (file_type file);
                    story_caption := storyCaption st;
                    story_createdAt := now; story_expiresAt := expiresAt |}
                 (Store.stories (db st))) in
            loadStories currentUser reloadTime
              {| db := d; stories := stories st; myStories := myStories st;
                 selectedStory := selectedStory st;
                 currentStoryIndex := currentStoryIndex st;
                 showStoryViewer := showStoryViewer st;
                 showAddStory := false;
                 storyCaption := EmptyString; selectedFile := None;
                 storyProgress := storyProgress st;
                 storyTimer := storyTimer st;
                 intervals := intervals st; nextTimer := nextTimer st;
                 suspended := suspended st |}
          else st
      end
  | _, _ => st
  end.

(** The first four statements of [handleViewStory]. *)
Definition showStory (story : option Story) (index : Z) (st : State)
  : State :=
  {| db := db st; stories := stories st; myStories := myStories st;
     selectedStory := story;
     currentStoryIndex := index;
     showStoryViewer := true; showAddStory := showAddStory st;
     storyCaption := storyCaption st; selectedFile := selectedFile st;
     storyProgress := 0; storyTimer := storyTimer st;
     intervals := intervals st; nextTimer := nextTimer st;
     suspended := suspended st |}.

(** The [try] block of [handleViewStory] for a viewer [cu] who is not the
    author: look for a view of the pair, insert one when the list is
    empty. *)
Definition markViewed (cu : User) (story : Story) (now : Z) (d : Store.Db)
  : Store.Db :=
  let existingView :=
    Store.list_where
      (fun v => (view_storyId v =? story_id (story_row story))%string
                && (view_viewerId v =? user_id cu)%string)
      (Store.storyViews d) in
  if Js.len existingView =? 0 then
    Store.set_storyViews d
      (Store.create
         {| view_id := Js.template ["view_"; Js.num_to_string now];
            view_storyId := story_id (story_row story);
            view_viewerId := user_id cu; view_viewedAt := now |}
         (Store.storyViews d))
  else d.

(** Whether [handleViewStory] reaches its [await]: it does for a signed-in
    viewer other than the author.  (Without a current user
    [currentUser!.id] throws inside the [try] before any store call.) *)
Definition awaitsStore (currentUser : option User) (story : Story) : bool :=
  match currentUser with
  | Some cu => negb (story_userId (story_row story) =? user_id cu)%string
  | None => false
  end.

(** [handleViewStory] up to its first [await].  With [story] undefined
    [story.userId] throws after the four state updates and no timer is
    set.  A call that does not reach the [await] runs to its end. *)
Definition handleViewStory_enter (currentUser : option User)
    (story : option Story) (index : Z) (st : State) : State :=
  let st1 := showStory story index st in
  match story with
  | None => st1
  | Some s =>
      if awaitsStore currentUser s
      then setSuspended (suspended st1 ++ [(s, index)]) st1
      else startTimer index st1
  end.

Fixpoint remove_nth {A : Type} (k : nat) (l : list A) : list A :=
  match k, l with
  | _, [] => []
  | O, _ :: r => r
  | S k', x :: r => x :: remove_nth k' r
  end.

(** The rest of a suspended [handleViewStory], run when the store answers:
    the view check and the start of the timer. *)
Definition handleViewStory_resume (currentUser : option User) (now : Z)
    (k : nat) (st : State) : State :=
  match nth_error (suspended st) k with
  | None => st
  | Some (s, index) =>
      let st1 := setSuspended (remove_nth k (suspended st)) st in
      let d := match currentUser with
               | Some cu => markViewed cu s now (db st1)
               | None => db st1
               end in
      startTimer index (with_db st1 d)
  end.

(** [Stories.handleViewStory] run from its first statement to its last with
    no other event in between. *)
Definition handleViewStory (currentUser : option User) (now : Z)
    (story : option Story) (index : Z) (st : State) : State :=
  let st1 := showStory story index st in
  match story with
  | None => st1
  | Some s =>
      let d := match currentUser with
               | Some cu =>
                   if awaitsStore currentUser s
                   then markViewed cu s now (db st1)
                   else db st1
               | None => db st1
               end in
      startTimer index (with_db st1 d)
  end.

(** [Stories.closeStoryViewer]. *)
Definition closeStoryViewer (st : State) : State :=
  let st1 :=
    match storyTimer st with
    | Some t => clearInterval t st
    | None => st
    end in
  {| db := db st1; stories := stories st1; myStories := myStories st1;
     selectedStory := None;
     currentStoryIndex := currentStoryIndex st1;
     showStoryViewer := false; showAddStory := showAddStory st1;
     storyCaption := storyCaption st1; selectedFile := selectedFile st1;
     storyProgress := 0; storyTimer := None;
     intervals := intervals st1; nextTimer := nextTimer st1;
     suspended := suspended st1 |}.

Section Playback.

(** How a call of [handleViewStory] proceeds: to its end, or up to its
    [await]. *)
Variable view : option Story -> Z -> State -> State.

(** One firing of the interval [t]: the updater passed to
    [setStoryProgress].  A cleared interval does not fire.  The callback
    reads the story lists of the render that set the interval; they are
    not reloaded while the viewer is open, so the current lists are
    read. *)
Definition tick (t : nat) (st : State) : State :=
  match find (fun e => (fst e =? t)%nat) (intervals st) with
  | None => st
  | Some (_, index) =>
      if storyProgress st >=? 100 then
        let st1 := clearInterval t st in
        let allStories := myStories st1 ++ stories st1 in
        let st2 :=
          if index <? Js.len allStories - 1
          then view (Js.index allStories (index + 1)) (index + 1) st1
          else setShowStoryViewer false st1 in
        setStoryProgress 0 st2
      else setStoryProgress (storyProgress st + 2) st
  end.

Definition clearStoryTimer (st : State) : State :=
  match storyTimer st with
  | Some t => clearInterval t st
  | None => st
  end.

(** [Stories.nextStory]. *)
Definition nextStory (st : State) : State :=
  let allStories := myStories st ++ stories st in
  if currentStoryIndex st <? Js.len allStories - 1 then
    view (Js.index allStories (currentStoryIndex st + 1))
      (currentStoryIndex st + 1) (clearStoryTimer st)
  else closeStoryViewer st.

(** [Stories.prevStory]. *)
Definition prevStory (st : State) : State :=
  let allStories := myStories st ++ stories st in
  if currentStoryIndex st >? 0 then
    view (Js.index allStories (currentStoryIndex st - 1))
      (currentStoryIndex st - 1) (clearStoryTimer st)
  else st.

(** The click on "My Status". *)
Definition openMyStory (st : State) : State :=
  if Js.len (myStories st) >? 0
  then view (Js.index (myStories st) 0) 0 st
  else setShowAddStory true st.

(** [stories.findIndex(s => s.userId === userId)]. *)
Fixpoint findIndex (userId : string) (l : list Story) (from : Z) : Z :=
  match l with
  | [] => -1
  | s :: r =>
      if (story_userId (story_row s) =? userId)%string then from
      else findIndex userId r (from + 1)
  end.

(** The click on the circle of another user's stories. *)
Definition openUserStories (userId : string) (st : State) : State :=
  let userStories :=
    filter (fun s => (story_userId (story_row s) =? userId)%string)
      (stories st) in
  view (Js.index userStories 0)
    (Js.len (myStories st) + findIndex userId (stories st) 0) st.

End Playback.

(** The events of the story viewer. *)
Inductive Event :=
| OpenMine
| OpenUser (userId : string)
| Tick (t : nat)
| Next
| Prev
| Close
| StoreAnswers (k : nat).

(** One event, handled at time [now].  With [atomic] every call of
    [handleViewStory] runs to its end before the next event; without it
    the call stops at its [await] and goes on when the store answers. *)
Definition step (atomic : bool) (currentUser : option User) (now : Z)
    (e : Event) (st : State) : State :=
  let view :=
    if atomic then handleViewStory currentUser now
    else handleViewStory_enter currentUser in
  match e with
  | OpenMine => openMyStory view st
  | OpenUser userId => openUserStories view userId st
  | Tick t => tick view t st
  | Next => nextStory view st
  | Prev => prevStory view st
  | Close => closeStoryViewer st
  | StoreAnswers k => handleViewStory_resume currentUser now k st
  end.

Fixpoint run (atomic : bool) (currentUser : option User)
    (events : list (Z * Event)) (st : State) : State :=
  match events with
  | [] => st
  | (now, e) :: rest =>
      run atomic currentUser rest (step atomic currentUser now e st)
  end.

(** [n] firings of the interval [t] in a row. *)
Fixpoint ticks (atomic : bool) (currentUser : option User) (now : Z)
    (t : nat) (n : nat) (st : State) : State :=
  match n with
  | O => st
  | S n' =>
      ticks atomic currentUser now t n'
        (step atomic currentUser now (Tick t) st)
  end.

(** The view records of the pair (story, viewer). *)
Definition viewsOf (d : Store.Db) (storyId viewerId : string)
  : list StoryViewRow :=
  Store.list_where
    (fun v => (view_storyId v =? storyId)%string
              && (view_viewerId v =? viewerId)%string)
    (Store.storyViews d).

(** At most one interval is set, and it is the one [storyTimer] names; no
    call of [handleViewStory] is waiting; nothing ticks while the viewer
    is closed. *)
Definition oneTimer (st : State) : Prop :=
  suspended st = []
  /\ (intervals st = []
      \/ exists t i, intervals st = [(t, i)] /\ storyTimer st = Some t)
  /\ (showStoryViewer st = false -> intervals st = []).

(** The story circles lie under the modal viewer: they can be clicked only
    while the viewer is closed. *)
Definition clickable (e : Event) (st : State) : Prop :=
  match e with
  | OpenMine | OpenUser _ => showStoryViewer st = false
  | _ => True
  end.

Fixpoint clickableAll (atomic : bool) (currentUser : option User)
    (events : list (Z * Event)) (st : State) : Prop :=
  match events with
  | [] => True
  | (now, e) :: rest =>
      clickable e st
      /\ clickableAll atomic currentUser rest (step atomic currentUser now e st)
  end.

(** [Stories.formatTimeAgo], with the reading of [Date.now()] as [now]. *)
Definition formatTimeAgo (now timestamp : Z) : string :=
  let diff := now - timestamp in
  let hours := diff / (1000 * 60 * 60) in
  if hours <? 1 then "Just now"
  else if hours =? 1 then "1 hour ago"
  else Js.template [Js.num_to_string hours; " hours ago"].

(** One turn of the [reduce] behind [groupedStories]: the story goes to the
    end of the array under its author's key; a new key goes to the end of
    the object. *)
Fixpoint pushStory (story : Story) (acc : list (string * list Story))
  : list (string * list Story) :=
  match acc with
  | [] => [(story_userId (story_row story), [story])]
  | (userId, userStories) :: rest =>
      if (userId =? story_userId (story_row story))%string
      then (userId, userStories ++ [story]) :: rest
      else (userId, userStories) :: pushStory story rest
  end.

(** The names a plain object [{}] inherits from [Object.prototype].  Read
    through such a name, the object answers with a function (with
    [Object.prototype] itself for [__proto__]): a truthy value that has no
    [push]. *)
Definition inheritedKey (k : string) : bool :=
  existsb (String.eqb k)
    [ "constructor"; "__proto__"; "hasOwnProperty"; "isPrototypeOf";
      "propertyIsEnumerable"; "toLocaleString"; "toString"; "valueOf";
      "__defineGetter__"; "__defineSetter__"; "__lookupGetter__";
      "__lookupSetter__" ].

(** One turn of the [reduce] of [groupedStories]; [None] is the
    [TypeError] that ends it.  The accumulator starts as [{}] and gets
    arrays under author ids only, so [acc[userId]] is falsy exactly for an
    id that is neither an own key nor an inherited one; for an inherited
    one the test [!acc[userId]] fails, nothing is assigned, and
    [acc[userId].push] is not a function. *)
Definition groupTurn (acc : option (list (string * list Story)))
    (story : Story) : option (list (string * list Story)) :=
  match acc with
  | None => None
  | Some obj =>
      if inheritedKey (story_userId (story_row story)) then None
      else Some (pushStory story obj)
  end.

(** [groupedStories]: the object as the list of its own properties in the
    order of their creation, or [None] when the [reduce] throws (and the
    render of the story bar with it).  The order in which
    [Object.entries] lists the properties is not part of the object. *)
Definition groupedStories (others : list Story)
  : option (list (string * list Story)) :=
  fold_left groupTurn others (Some []).

Fixpoint entry (userId : string) (groups : list (string * list Story))
  : option (list Story) :=
  match groups with
  | [] => None
  | (k, v) :: rest => if (k =? userId)%string then Some v else entry userId rest
  end.

(** [hasUnviewed] of a circle: some story of the group has no view of the
    current user. *)
Definition hasUnviewed (currentUser : option User) (userStories : list Story)
  : bool :=
  existsb
    (fun story =>
       negb (existsb
               (fun view =>
                  match currentUser with
                  | Some cu =>
                      (view_viewerId (view_row view) =? user_id cu)%string
                  | None => false
                  end)
               (views story)))
    userStories.

(** The viewer shows the story at [currentStoryIndex] of
    [myStories ++ stories], and every index held by the viewer, by a timer
    or by a waiting call lies within that list. *)
Definition inRange (st : State) (i : Z) : Prop :=
  0 <= i < Js.len (myStories st ++ stories st).

Definition wellIndexed (st : State) : Prop :=
  (showStoryViewer st = true ->
     inRange st (currentStoryIndex st)
     /\ selectedStory st
        = Js.index (myStories st ++ stories st) (currentStoryIndex st))
  /\ (forall t i, In (t, i) (intervals st) -> inRange st i)
  /\ (forall s i, In (s, i) (suspended st) -> inRange st i).

(** What is on the screen to be clicked: a circle exists only for a user
    with a story among the others', and the two navigation zones are part
    of the open viewer. *)
Definition rendered (e : Event) (st : State) : Prop :=
  match e with
  | OpenUser userId =>
      exists s, In s (stories st) /\ story_userId (story_row s) = userId
  | Next | Prev => showStoryViewer st = true
  | _ => True
  end.

Fixpoint renderedAll (atomic : bool) (currentUser : option User)
    (events : list (Z * Event)) (st : State) : Prop :=
  match events with
  | [] => True
  | (now, e) :: rest =>
      rendered e st
      /\ renderedAll atomic currentUser rest (step atomic currentUser now e st)
  end.

(** The component as mounted: nothing shown, no timer; the first interval
    will get the id 1. *)
Definition mounted (d : Store.Db) (mine others : list Story) : State :=
  {| db := d; stories := others; myStories := mine;
     selectedStory := None; currentStoryIndex := 0;
     showStoryViewer := false; showAddStory := false;
     storyCaption := EmptyString; selectedFile := None;
     storyProgress := 0; storyTimer := None;
     intervals := []; nextTimer := 1%nat; suspended := [] |}.

End StoryEngine.

(* ===================================================================== *)
(** ** Presence: [App.initializeUser], the heartbeat and the unload hook *)
(* ===================================================================== *)

Module Presence.

(** A row of [blink.db.users] with the columns the presence handlers read
    and write. *)
Record UserRow := {
  row_id : string;
  row_email : string;
  row_displayName : string;
  row_avatarUrl : option string;
  row_phoneNumber : string;
  row_statusMessage : string;
  row_isOnline : bool;
  row_lastSeen : Z;
  row_createdAt : Z;
  row_updatedAt : Z
}.

(** The user the authentication hands over. *)
Record AuthUser := {
  auth_email : string;
  auth_displayName : option string;
  auth_avatarUrl : option string
}.

(** [currentUser] of [App]. *)
Record AppUser := {
  app_id : string;
  app_displayName : string;
  app_email : string;
  app_avatarUrl : option string;
  app_phoneNumber : string;
  app_statusMessage : string;
  app_isOnline : bool;
  app_lastSeen : Z
}.

Record State := {
  users : list UserRow;
  currentUser : option AppUser
}.

(** The patch [{ isOnline, lastSeen }]. *)
Definition setPresence (online : bool) (seen : Z) (u : UserRow) : UserRow :=
  {| row_id := row_id u; row_email := row_email u;
     row_displayName := row_displayName u; row_avatarUrl := row_avatarUrl u;
     row_phoneNumber := row_phoneNumber u;
     row_statusMessage := row_statusMessage u;
     row_isOnline := online; row_lastSeen := seen;
     row_createdAt := row_createdAt u; row_updatedAt := row_updatedAt u |}.

(** The patch [{ lastSeen }]. *)
Definition setLastSeen (seen : Z) (u : UserRow) : UserRow :=
  setPresence (row_isOnline u) seen u.

(** [email.split('@')[0]]. *)
Fixpoint beforeAt (email : string) : string :=
  match email with
  | EmptyString => EmptyString
  | String c rest =>
      if Ascii.eqb c "@"%char then EmptyString else String c (beforeAt rest)
  end.

(** [a || b] on a string that may be missing. *)
Definition orElse (a : option string) (b : string) : string :=
  match a with
  | Some x => if Js.truthy x then x else b
  | None => b
  end.

(** [App.initializeUser]: the first row with the e-mail address is marked
    online; without such a row a user is created. *)
Definition initializeUser (authUser : AuthUser) (now : Z) (st : State)
  : State :=
  let existingUsers :=
    Store.limit 1
      (Store.list_where (fun u => (row_email u =? auth_email authUser)%string)
         (users st)) in
  match existingUsers with
  | existing :: _ =>
      {| users :=
           Store.update row_id (row_id existing) (setPresence true now)
             (users st);
         currentUser :=
           Some {| app_id := row_id existing;
                   app_displayName := row_displayName existing;
                   app_email := row_email existing;
                   app_avatarUrl := row_avatarUrl existing;
                   app_phoneNumber := row_phoneNumber existing;
                   app_statusMessage := row_statusMessage existing;
                   app_isOnline := true; app_lastSeen := now |} |}
  | [] =>
      let userId := Js.template ["user_"; Js.num_to_string now] in
      let name :=
        orElse (auth_displayName authUser) (beforeAt (auth_email authUser)) in
      let avatar :=
        orElse (auth_avatarUrl authUser)
          (Js.template ["https://api.dicebear.com/7.x/avataaars/svg?seed=";
                        auth_email authUser]) in
      {| users :=
           Store.create
             {| row_id := userId; row_email := auth_email authUser;
                row_displayName := name; row_avatarUrl := Some avatar;
                row_phoneNumber := EmptyString;
                row_statusMessage := "Hey there! I am using WhatsApp.";
                row_isOnline := true; row_lastSeen := now;
                row_createdAt := now; row_updatedAt := now |}
             (users st);
         currentUser :=
           Some {| app_id := userId; app_displayName := name;
                   app_email := auth_email authUser;
                   app_avatarUrl := Some avatar;
                   app_phoneNumber := EmptyString;
                   app_statusMessage := "Hey there! I am using WhatsApp.";
                   app_isOnline := true; app_lastSeen := now |} |}
  end.

(** The callback of the 30 second interval. *)
Definition heartbeat (now : Z) (st : State) : State :=
  match currentUser st with
  | None => st
  | Some cu =>
      {| users := Store.update row_id (app_id cu) (setLastSeen now) (users st);
         currentUser := currentUser st |}
  end.

(** [handleBeforeUnload]. *)
Definition handleBeforeUnload (now : Z) (st : State) : State :=
  match currentUser st with
  | None => st
  | Some cu =>
      {| users :=
           Store.update row_id (app_id cu) (setPresence false now) (users st);
         currentUser := currentUser st |}
  end.

(** The rows registered under an e-mail address. *)
Definition registered (email : string) (st : State) : list UserRow :=
  filter (fun u => (row_email u =? email)%string) (users st).

End Presence.

(* ===================================================================== *)
(** ** Call log: [ChatSidebar.loadCalls] *)
(* ===================================================================== *)

Module CallLog.

Inductive CallType := voiceCall | videoCall.
Inductive CallStatus := missed | answered | declined.

Record CallRow := {
  call_id : string;
  call_callerId : string;
  call_receiverId : string;
  call_callType : CallType;
  call_status : CallStatus;
  call_duration : option Z;
  call_startedAt : Z
}.

(** An entry of the sidebar's [calls] list. *)
Record Call := {
  id : string;
  callerName : string;
  receiverName : string;
  callType : CallType;
  status : CallStatus;
  duration : Z;
  startedAt : Z
}.

(** [users[0]?.displayName || 'Unknown']. *)
Definition nameOf (d : Store.Db) (uid : string) : string :=
  match Store.limit 1
          (Store.list_where (fun u => (user_id u =? uid)%string)
             (Store.users d)) with
  | u :: _ => if Js.truthy (displayName u) then displayName u else "Unknown"
  | [] => "Unknown"
  end.

Definition involves (uid : string) (c : CallRow) : bool :=
  (call_callerId c =? uid)%string || (call_receiverId c =? uid)%string.

(** The query of [loadCalls]: the user's calls, latest first, fifty at
    most. *)
Definition userCalls (cu : User) (table : list CallRow) : list CallRow :=
  Store.limit 50
    (Store.order_desc call_startedAt
       (Store.list_where (involves (user_id cu)) table)).

Definition resolve (d : Store.Db) (call : CallRow) : Call :=
  {| id := call_id call;
     callerName := nameOf d (call_callerId call);
     receiverName := nameOf d (call_receiverId call);
     callType := call_callType call;
     status := call_status call;
     duration := match call_duration call with
                 | Some n => n
                 | None => 0
                 end;
     startedAt := call_startedAt call |}.

(** [ChatSidebar.loadCalls]: the new value of [calls]; without a current
    user the list stays as it is. *)
Definition loadCalls (currentUser : option User) (d : Store.Db)
    (table : list CallRow) (calls : list Call) : list Call :=
  match currentUser with
  | None => calls
  | Some cu => map (resolve d) (userCalls cu table)
  end.

End CallLog.

(* ===================================================================== *)
(** ** Sample data used by the examples below *)
(* ===================================================================== *)

Module Sample.

Definition alice : User := {| user_id := "u_alice"; displayName := "Alice" |}.
Definition bob : User := {| user_id := "u_bob"; displayName := "Bob" |}.
Definition carol : User := {| user_id := "u_carol"; displayName := "Carol" |}.

Definition sidebar (d : Store.Db) : Directory.State :=
  {| Directory.db := d; Directory.selectedChatId := None;
     Directory.showMobileSidebar := true;
     Directory.showNewChatDialog := true;
     Directory.showNewGroupDialog := false;
     Directory.selectedUsers := []; Directory.groupName := EmptyString;
     Directory.sidebarChats := [] |}.

(** The store after Alice and Bob started a chat with each other at the
    same moment: each scan found nothing, each client created a chat, and
    the four membership rows reached the store interleaved. *)
Definition individualChat (cid creator : string) (created : Z) : ChatRow :=
  {| chat_id := cid; chat_name := None; chat_type := individual;
     chat_avatarUrl := None; chat_createdBy := creator;
     chat_createdAt := created; chat_updatedAt := created;
     chat_lastMessageAt := 0 |}.

Definition crossedChats : Directory.State :=
  sidebar
    (Store.set_chatParticipants
       (Store.set_chats Store.empty
          [ individualChat "chat_1000" "u_alice" 1000;
            individualChat "chat_1001" "u_bob" 1001 ])
       [ Directory.participantRow "chat_1000" "u_alice" 1000;
         Directory.participantRow "chat_1001" "u_bob" 1001;
         Directory.participantRow "chat_1000" "u_bob" 1002;
         Directory.participantRow "chat_1001" "u_alice" 1003 ]).

(** Alice starts a chat with Bob at 500 and creates the group Team with
    him at 700, one operation after the other. *)
Definition chatThenGroup : Directory.State :=
  Directory.runOps
    [ Directory.StartChat alice bob 500;
      Directory.CreateGroup alice "Team" ["u_bob"] 700 ]
    (sidebar Store.empty).

(** The group dialog with [name] typed and [members] selected. *)
Definition groupDialog (name : string) (members : list string)
  : Directory.State :=
  {| Directory.db := Store.empty; Directory.selectedChatId := None;
     Directory.showMobileSidebar := true;
     Directory.showNewChatDialog := false;
     Directory.showNewGroupDialog := true;
     Directory.selectedUsers := members; Directory.groupName := name;
     Directory.sidebarChats := [] |}.

(** A stored text message. *)
Definition textRow (mid chatId senderId body : string) (at_ : Z)
  : MessageRow :=
  {| msg_id := mid; msg_chatId := chatId; msg_senderId := senderId;
     msg_content := body; msg_messageType := text; msg_fileUrl := None;
     msg_replyToMessageId := None; msg_isForwarded := false;
     msg_isStarred := false; msg_createdAt := at_;
     msg_updatedAt := Some at_ |}.

(** A chat area showing [shown], with [body] typed into the input. *)
Definition chatArea (d : Store.Db) (shown : list Pipeline.Message)
    (body : string) : Pipeline.State :=
  {| Pipeline.db := d; Pipeline.messages := shown;
     Pipeline.newMessage := body; Pipeline.replyToMessage := None;
     Pipeline.selectedMessage := None; Pipeline.clipboard := None;
     Pipeline.openedUrls := [] |}.

(** Alice's message in chat [c1], written when her clock read
    1700000000000. *)
Definition hello : MessageRow :=
  textRow "msg_1700000000000" "c1" "u_alice" "hello" 1700000000000.

Definition helloShown : Pipeline.Message :=
  Pipeline.Msg hello (Some alice) None.

Definition chatWithHello : Store.Db :=
  Store.set_messages
    {| Store.users := [alice; bob]; Store.chats := [];
       Store.chatParticipants := []; Store.groups := [];
       Store.groupMembers := []; Store.messages := [];
       Store.stories := []; Store.storyViews := [] |}
    [hello].

(** The same store with the rows of two chats, [c1] of Alice and [c2] of
    Bob. *)
Definition twoChats : Store.Db :=
  Store.set_chats chatWithHello
    [ individualChat "c1" "u_alice" 1000;
      individualChat "c2" "u_bob" 2000 ].

Definition storyRow (sid author : string) (created : Z) : StoryRow :=
  {| story_id := sid; story_userId := author;
     story_contentUrl := "https://cdn/x.jpg"; story_isVideo := false;
     story_caption := EmptyString; story_createdAt := created;
     story_expiresAt := created + 24 * 60 * 60 * 1000 |}.

Definition storyDb : Store.Db :=
  Store.set_stories
    {| Store.users := [alice; bob; carol]; Store.chats := [];
       Store.chatParticipants := []; Store.groups := [];
       Store.groupMembers := []; Store.messages := [];
       Store.stories := []; Store.storyViews := [] |}
    [ storyRow "story_60" "u_bob" 60; storyRow "story_70" "u_carol" 70;
      storyRow "story_80" "u_bob" 80; storyRow "story_90" "u_alice" 90;
      storyRow "story_100" "u_alice" 100 ].

(** A story as the bar lists it, without views. *)
Definition listed (sid : string) (author : User) (created : Z)
  : StoryEngine.Story :=
  {| StoryEngine.story_row := storyRow sid (user_id author) created;
     StoryEngine.user := Some author; StoryEngine.views := [] |}.

(** The others' stories of a bar, newest first: two of Alice around one of
    Bob. *)
Definition threeStories : list StoryEngine.Story :=
  [ listed "story_300" alice 300; listed "story_200" bob 200;
    listed "story_100" alice 100 ].

(** A story of a user whose id is a name that every plain object
    inherits. *)
Definition oddStory : StoryEngine.Story :=
  listed "story_50"
    {| user_id := "constructor"; displayName := "Connie" |} 50.

(** Alice's story bar at time 200: two stories of her own, three of
    others. *)
Definition aliceBar : StoryEngine.State :=
  StoryEngine.loadStories (Some alice) 200
    (StoryEngine.mounted storyDb [] []).

(** Carol's story bar at time 200: one story of her own, then Alice's two
    and Bob's two. *)
Definition carolBar : StoryEngine.State :=
  StoryEngine.loadStories (Some carol) 200
    (StoryEngine.mounted storyDb [] []).

(** The add-story dialog with a picture chosen. *)
Definition addDialog : StoryEngine.State :=
  {| StoryEngine.db := Store.empty; StoryEngine.stories := [];
     StoryEngine.myStories := []; StoryEngine.selectedStory := None;
     StoryEngine.currentStoryIndex := 0;
     StoryEngine.showStoryViewer := false;
     StoryEngine.showAddStory := true;
     StoryEngine.storyCaption := "sunset";
     StoryEngine.selectedFile :=
       Some {| StoryEngine.file_name := "sunset.jpg";
               StoryEngine.file_type := "image/jpeg" |};
     StoryEngine.storyProgress := 0; StoryEngine.storyTimer := None;
     StoryEngine.intervals := []; StoryEngine.nextTimer := 1%nat;
     StoryEngine.suspended := [] |}.

(** Carol opens Alice's stories and, once the first one plays, taps
    "next" twice before the store has answered the view check of the first
    tap; then the two answers arrive. *)
Definition doubleNext : list (Z * StoryEngine.Event) :=
  [ (300, StoryEngine.OpenUser "u_alice");
    (301, StoryEngine.StoreAnswers 0);
    (302, StoryEngine.Next);
    (303, StoryEngine.Next);
    (304, StoryEngine.StoreAnswers 0);
    (305, StoryEngine.StoreAnswers 0) ].

(** Carol opens Alice's stories and closes the viewer before the store has
    answered the view check. *)
Definition closeBeforeAnswer : list (Z * StoryEngine.Event) :=
  [ (300, StoryEngine.OpenUser "u_alice");
    (301, StoryEngine.Close);
    (302, StoryEngine.StoreAnswers 0) ].

(** Three files dropped on the chat: a picture, a document whose upload
    fails, and a clip. *)
Definition dropped : list Pipeline.UploadRun :=
  [ {| Pipeline.run_file :=
         {| Pipeline.upload_name := "cat.png";
            Pipeline.upload_type := "image/png" |};
       Pipeline.run_publicUrl := Some "https://cdn/cat.png";
       Pipeline.run_idTime := 1700000001000;
       Pipeline.run_random := "0.25";
       Pipeline.run_now := 1700000001001;
       Pipeline.run_createOk := true |};
    {| Pipeline.run_file :=
         {| Pipeline.upload_name := "report.pdf";
            Pipeline.upload_type := "application/pdf" |};
       Pipeline.run_publicUrl := None;
       Pipeline.run_idTime := 1700000002000;
       Pipeline.run_random := "0.5";
       Pipeline.run_now := 1700000002001;
       Pipeline.run_createOk := true |};
    {| Pipeline.run_file :=
         {| Pipeline.upload_name := "clip.mp4";
            Pipeline.upload_type := "video/mp4" |};
       Pipeline.run_publicUrl := Some "https://cdn/clip.mp4";
       Pipeline.run_idTime := 1700000003000;
       Pipeline.run_random := "0.75";
       Pipeline.run_now := 1700000003001;
       Pipeline.run_createOk := true |} ].

(** Alice browses: her own stories, one firing of the timer, forward,
    back, close, then Bob's circle. *)
Definition browse : list (Z * StoryEngine.Event) :=
  [ (300, StoryEngine.OpenMine);
    (301, StoryEngine.Tick 1);
    (302, StoryEngine.Next);
    (303, StoryEngine.Prev);
    (304, StoryEngine.Close);
    (305, StoryEngine.OpenUser "u_bob") ].

(** Two registered users, Alice offline since 50. *)
Definition userTable : Presence.State :=
  {| Presence.users :=
       [ {| Presence.row_id := "u_alice";
            Presence.row_email := "alice@example.org";
            Presence.row_displayName := "Alice";
            Presence.row_avatarUrl := None;
            Presence.row_phoneNumber := EmptyString;
            Presence.row_statusMessage := "busy";
            Presence.row_isOnline := false; Presence.row_lastSeen := 50;
            Presence.row_createdAt := 10; Presence.row_updatedAt := 10 |};
         {| Presence.row_id := "u_bob";
            Presence.row_email := "bob@example.org";
            Presence.row_displayName := "Bob";
            Presence.row_avatarUrl := None;
            Presence.row_phoneNumber := EmptyString;
            Presence.row_statusMessage := "hi";
            Presence.row_isOnline := true; Presence.row_lastSeen := 60;
            Presence.row_createdAt := 20; Presence.row_updatedAt := 20 |} ];
     Presence.currentUser := None |}.

Definition carolSignsIn : Presence.AuthUser :=
  {| Presence.auth_email := "carol@example.org";
     Presence.auth_displayName := None;
     Presence.auth_avatarUrl := None |}.

Definition callRow (cid caller receiver : string) (started : Z)
  : CallLog.CallRow :=
  {| CallLog.call_id := cid; CallLog.call_callerId := caller;
     CallLog.call_receiverId := receiver;
     CallLog.call_callType := CallLog.voiceCall;
     CallLog.call_status := CallLog.answered;
     CallLog.call_duration := Some 75; CallLog.call_startedAt := started |}.

Definition callTable : list CallLog.CallRow :=
  [ callRow "call_1" "u_alice" "u_bob" 100;
    callRow "call_2" "u_bob" "u_carol" 200;
    callRow "call_3" "u_carol" "u_alice" 300 ].

End Sample.

(* ===================================================================== *)
(** * Properties *)
(* ===================================================================== *)

(** ** Strings and tables *)

Lemma len_pos_iff {A : Type} (l : list A) :
  (Js.len l >? 0) = true <-> l <> [].
Proof.
  unfold Js.len. destruct l as [|x r]; simpl.
  - split; [discriminate | congruence].
  - split; [discriminate | reflexivity].
Qed.

Lemma len_zero_iff {A : Type} (l : list A) :
  (Js.len l =? 0) = true <-> l = [].
Proof.
  unfold Js.len. destruct l as [|x r]; simpl.
  - split; reflexivity.
  - split; discriminate.
Qed.

Lemma dropWhile_all {A : Type} (p : A -> bool) (l : list A) :
  forallb p l = true -> Js.dropWhile p l = [].
Proof.
  induction l as [|x r IH]; simpl; intros H; [reflexivity|].
  apply andb_true_iff in H as [Hx Hr]. rewrite Hx. auto.
Qed.

Lemma dropWhile_nil_all {A : Type} (p : A -> bool) (l : list A) :
  Js.dropWhile p l = [] -> forallb p l = true.
Proof.
  induction l as [|x r IH]; simpl; intros H; [reflexivity|].
  destruct (p x); [auto | discriminate].
Qed.

Lemma dropWhile_head {A : Type} (p : A -> bool) (l : list A) x r :
  Js.dropWhile p l = x :: r -> p x = false.
Proof.
  induction l as [|y l IH]; simpl; intros H; [discriminate|].
  destruct (p y) eqn:E; [auto | congruence].
Qed.

(** [s.trim()] is empty exactly when [s] consists of white space only. *)
Lemma trim_empty_iff (s : string) :
  Js.trim s = EmptyString
  <-> forallb Js.isWhiteSpace (list_ascii_of_string s) = true.
Proof.
  unfold Js.trim. split.
  - intros H.
    apply (f_equal list_ascii_of_string) in H.
    rewrite list_ascii_of_string_of_list_ascii in H. simpl in H.
    destruct (Js.dropWhile Js.isWhiteSpace (list_ascii_of_string s))
      as [|x r] eqn:E.
    + now apply dropWhile_nil_all.
    + exfalso. apply dropWhile_head in E.
      assert (Hr : Js.dropWhile Js.isWhiteSpace (rev (x :: r)) = []).
      { destruct (Js.dropWhile Js.isWhiteSpace (rev (x :: r))) eqn:E2;
          [reflexivity|].
        simpl in H. destruct (rev l); discriminate. }
      apply dropWhile_nil_all in Hr.
      rewrite forallb_forall in Hr.
      specialize (Hr x). rewrite Hr in E; [discriminate|].
      apply in_rev. rewrite rev_involutive. now left.
  - intros H. rewrite (dropWhile_all _ _ H). reflexivity.
Qed.

Lemma falsy_trim_iff (s : string) :
  negb (Js.truthy (Js.trim s)) = true
  <-> forallb Js.isWhiteSpace (list_ascii_of_string s) = true.
Proof.
  unfold Js.truthy. rewrite negb_involutive, String.eqb_eq.
  apply trim_empty_iff.
Qed.

(** ** Conversation directory *)

Section DirectoryFacts.

Import Directory.

Lemma sameChatAndUser_iff c u p :
  sameChatAndUser c u p = true <-> cp_chatId p = c /\ cp_userId p = u.
Proof.
  unfold sameChatAndUser.
  rewrite andb_true_iff, !String.eqb_eq. reflexivity.
Qed.

(** The test of the loop body is membership of [u] in chat [c]. *)
Lemma listed_iff_participates table c u :
  (Js.len (Store.list_where (sameChatAndUser c u) table) >? 0) = true
  <-> participates table c u.
Proof.
  rewrite len_pos_iff. unfold Store.list_where, participates. split.
  - intros H.
    destruct (filter (sameChatAndUser c u) table) as [|p r] eqn:E;
      [congruence|].
    assert (Hin : In p (filter (sameChatAndUser c u) table))
      by (rewrite E; now left).
    apply filter_In in Hin as [Hin Hp].
    apply sameChatAndUser_iff in Hp. now exists p.
  - intros (p & Hin & Hc & Hu) E.
    assert (Hf : In p (filter (sameChatAndUser c u) table)).
    { apply filter_In. split; [assumption|].
      now apply sameChatAndUser_iff. }
    rewrite E in Hf. contradiction.
Qed.

Lemma scanExisting_none table u ex :
  scanExisting table u ex = None
  <-> forall q, In q ex -> ~ participates table (cp_chatId q) u.
Proof.
  induction ex as [|p r IH]; simpl.
  - split; [intros _ q [] | reflexivity].
  - destruct (Js.len _ >? 0) eqn:E.
    + split; [discriminate|].
      intros H. exfalso. apply (H p); [now left|].
      now apply listed_iff_participates.
    + rewrite IH. split.
      * intros H q [<-|Hq]; [|now apply H].
        intros Hp. apply listed_iff_participates in Hp. congruence.
      * intros H q Hq. apply H. now right.
Qed.

(** The scan stops at the first membership whose chat lists [u]. *)
Lemma scanExisting_first table u ex c :
  scanExisting table u ex = Some c ->
  exists pre p post,
    ex = pre ++ p :: post /\ cp_chatId p = c /\ participates table c u
    /\ forall q, In q pre -> ~ participates table (cp_chatId q) u.
Proof.
  induction ex as [|p r IH]; simpl; [discriminate|].
  destruct (Js.len _ >? 0) eqn:E.
  - intros [= <-]. exists [], p, r. repeat split.
    + now apply listed_iff_participates.
    + intros q [].
  - intros H. destruct (IH H) as (pre & p' & post & -> & Hc & Hp & Hpre).
    exists (p :: pre), p', post. repeat split; try assumption.
    intros q [<-|Hq]; [|now apply Hpre].
    intros Hq. apply listed_iff_participates in Hq. congruence.
Qed.

(** When every shared membership of the list is in chat [c] and there is
    one, the scan yields [c]. *)
Lemma scanExisting_only table u ex c :
  (exists q, In q ex /\ participates table (cp_chatId q) u) ->
  (forall q, In q ex -> participates table (cp_chatId q) u ->
             cp_chatId q = c) ->
  scanExisting table u ex = Some c.
Proof.
  intros Hex Hall.
  destruct (scanExisting table u ex) as [c'|] eqn:E.
  - apply scanExisting_first in E
      as (pre & p & post & -> & Hc & Hp & _).
    f_equal. rewrite <- Hc. apply Hall.
    + apply in_or_app. right. now left.
    + now rewrite Hc.
  - exfalso. destruct Hex as (q & Hq & Hp).
    rewrite scanExisting_none in E. exact (E q Hq Hp).
Qed.

Lemma memberships_In d u p :
  In p (memberships d u)
  <-> In p (Store.chatParticipants d) /\ cp_userId p = user_id u.
Proof.
  unfold memberships, Store.list_where.
  rewrite filter_In, String.eqb_eq. reflexivity.
Qed.

Lemma firstShared_none A B d :
  firstShared A B d = None
  <-> forall c, ~ (participates (Store.chatParticipants d) c (user_id A)
                   /\ participates (Store.chatParticipants d) c (user_id B)).
Proof.
  unfold firstShared. fold (memberships d A).
  rewrite scanExisting_none. split.
  - intros H c [(p & Hp & Hc & Hu) HB].
    apply (H p); [now apply memberships_In | now rewrite Hc].
  - intros H q Hq HB. apply memberships_In in Hq as [Hq Hu].
    apply (H (cp_chatId q)). split; [now exists q | assumption].
Qed.

(** Sharing no conversation is symmetric. *)
Lemma firstShared_none_sym A B d :
  firstShared A B d = None -> firstShared B A d = None.
Proof.
  rewrite !firstShared_none. intros H c [HB HA]. apply (H c). now split.
Qed.

Lemma firstShared_some A B d c :
  firstShared A B d = Some c ->
  participates (Store.chatParticipants d) c (user_id A)
  /\ participates (Store.chatParticipants d) c (user_id B).
Proof.
  unfold firstShared. fold (memberships d A). intros H.
  apply scanExisting_first in H as (pre & p & post & E & Hc & Hp & _).
  split; [|assumption].
  assert (Hin : In p (memberships d A))
    by (rewrite E; apply in_or_app; right; now left).
  apply memberships_In in Hin as [Hin Hu]. now exists p.
Qed.

Lemma resolve_found A B now st c :
  firstShared A B (db st) = Some c ->
  resolveOrCreateIndividual A B now st
  = setShowNewChatDialog false (handleChatSelect c st).
Proof.
  unfold resolveOrCreateIndividual, handleStartChat, firstShared.
  intros ->. reflexivity.
Qed.



Lemma participates_app table rows c u :
  participates (table ++ rows) c u
  <-> participates table c u \/ participates rows c u.
Proof.
  unfold participates. split.
  - intros (p & Hin & H). apply in_app_or in Hin as [Hin|Hin];
      [left | right]; now exists p.
  - intros [(p & Hin & H)|(p & Hin & H)]; exists p; split; try assumption;
      apply in_or_app; [now left | now right].
Qed.




End DirectoryFacts.

(** ** Tables written chat by chat *)

Section ChatwiseTables.

Import Directory.

Lemma scanExisting_app table u l1 l2 :
  scanExisting table u (l1 ++ l2)
  = match scanExisting table u l1 with
    | Some c => Some c
    | None => scanExisting table u l2
    end.
Proof.
  induction l1 as [|p r IH]; simpl; [reflexivity|].
  destruct (Js.len _ >? 0); [reflexivity | exact IH].
Qed.

(** The scan depends on the table only through the memberships it tests. *)
Lemma scanExisting_ext table table' u ex :
  (forall q, In q ex ->
     (participates table (cp_chatId q) u
      <-> participates table' (cp_chatId q) u)) ->
  scanExisting table u ex = scanExisting table' u ex.
Proof.
  induction ex as [|p r IH]; intros H; simpl; [reflexivity|].
  assert (E : (Js.len (Store.list_where
                         (sameChatAndUser (cp_chatId p) u) table) >? 0)
              = (Js.len (Store.list_where
                           (sameChatAndUser (cp_chatId p) u) table') >? 0)).
  { apply eq_true_iff_eq. rewrite !listed_iff_participates.
    apply H. now left. }
  rewrite E, IH by (intros q Hq; apply H; now right). reflexivity.
Qed.

Lemma listsUser_iff u rows :
  listsUser u rows = true <-> exists p, In p rows /\ cp_userId p = u.
Proof.
  unfold listsUser. rewrite existsb_exists.
  split; intros (p & Hin & H); exists p; split; try assumption;
    now apply String.eqb_eq.
Qed.

(** Within the rows of one chat [c], the scan stops at once when both
    users have a row, and finds nothing otherwise. *)
Lemma scanExisting_one_chat table block c x y :
  (forall p, In p block -> cp_chatId p = c) ->
  (participates table c y <-> listsUser y block = true) ->
  scanExisting table y (filter (fun p => (cp_userId p =? x)%string) block)
  = if listsUser x block && listsUser y block then Some c else None.
Proof.
  intros Hc Hy.
  destruct (listsUser y block) eqn:Ey.
  - rewrite andb_true_r.
    destruct (filter (fun p => (cp_userId p =? x)%string) block)
      as [|q r] eqn:Ef.
    + replace (listsUser x block) with false; [reflexivity|].
      symmetry. apply not_true_is_false. intros Hx.
      apply listsUser_iff in Hx as (p & Hin & Hu).
      assert (Hf : In p (filter (fun p => (cp_userId p =? x)%string) block))
        by (apply filter_In; split; [assumption | now apply String.eqb_eq]).
      rewrite Ef in Hf. contradiction.
    + assert (Hq : In q (filter (fun p => (cp_userId p =? x)%string) block))
        by (rewrite Ef; now left).
      apply filter_In in Hq as [Hq Hu]. apply String.eqb_eq in Hu.
      replace (listsUser x block) with true
        by (symmetry; apply listsUser_iff; now exists q).
      apply scanExisting_only.
      * exists q. split; [now left|]. rewrite (Hc q Hq). now apply Hy.
      * intros p Hp _. apply Hc.
        assert (Hf : In p (filter (fun p => (cp_userId p =? x)%string) block))
          by (rewrite Ef; exact Hp).
        now apply filter_In in Hf as [Hf _].
  - rewrite andb_false_r. apply scanExisting_none.
    intros q Hq Hp. apply filter_In in Hq as [Hq _].
    rewrite (Hc q Hq) in Hp. apply Hy in Hp. discriminate.
Qed.

(** The scan over a table to which the rows of a new chat [c] have been
    appended: an earlier shared conversation is still found first; without
    one the new chat is found exactly when both users are in it. *)
Lemma scan_with_block table block c x y :
  (forall p, In p table -> cp_chatId p <> c) ->
  (forall p, In p block -> cp_chatId p = c) ->
  scanExisting (table ++ block) y
    (filter (fun p => (cp_userId p =? x)%string) (table ++ block))
  = match scanExisting table y
            (filter (fun p => (cp_userId p =? x)%string) table) with
    | Some k => Some k
    | None => if listsUser x block && listsUser y block
              then Some c else None
    end.
Proof.
  intros Hfresh Hc.
  assert (Hblock : forall k u, participates block k u -> k = c).
  { intros k u (p & Hin & Hk & _). rewrite <- Hk. now apply Hc. }
  assert (Htable : forall u, ~ participates table c u).
  { intros u (p & Hin & Hk & _). exact (Hfresh p Hin Hk). }
  rewrite filter_app, scanExisting_app.
  rewrite (scanExisting_ext (table ++ block) table).
  - destruct (scanExisting table y _); [reflexivity|].
    apply scanExisting_one_chat; [assumption|].
    rewrite participates_app, listsUser_iff. split.
    + intros [H|(p & Hin & _ & Hu)]; [now apply Htable in H | now exists p].
    + intros (p & Hin & Hu). right. exists p.
      repeat split; [assumption | now apply Hc | assumption].
  - intros q Hq. apply filter_In in Hq as [Hq _].
    rewrite participates_app. split; [|now left].
    intros [H|H]; [assumption|].
    apply Hblock in H. now apply Hfresh in Hq.
Qed.

(** In a table written chat by chat the scan from [x] for [y] and the scan
    from [y] for [x] stop at the same conversation: the earliest written
    one that has both. *)
Lemma Chatwise_scans_agree table :
  Chatwise table ->
  forall x y,
    scanExisting table y (filter (fun p => (cp_userId p =? x)%string) table)
    = scanExisting table x
        (filter (fun p => (cp_userId p =? y)%string) table).
Proof.
  induction 1 as [|table block c _ IH Hfresh Hc]; intros x y;
    [reflexivity|].
  rewrite !(scan_with_block table block c) by assumption.
  rewrite (IH x y), (andb_comm (listsUser x block)). reflexivity.
Qed.

Lemma Chatwise_firstShared A B d :
  Chatwise (Store.chatParticipants d) ->
  firstShared A B d = firstShared B A d.
Proof.
  intros H. unfold firstShared, Store.list_where.
  now apply Chatwise_scans_agree.
Qed.

(** *** Histories keep the table chat by chat *)











End ChatwiseTables.

Section DirectoryClaims.

Import Directory.



(** The conversation the three calls select is the chat, which was written
    before the group; the calls write nothing. *)
Lemma resolve_after_chat_and_group :
  resolveSequence Sample.alice Sample.bob
    [(true, 1000); (false, 2000); (true, 3000)] Sample.chatThenGroup
  = [Some "chat_500"; Some "chat_500"; Some "chat_500"]
  /\ map cp_chatId (Store.chatParticipants (db Sample.chatThenGroup))
     = ["chat_500"; "chat_500"; "chat_group_700"; "chat_group_700"].
Proof. split; reflexivity. Qed.

(** The table has to be written chat by chat.  After two creations whose
    rows reached the store interleaved, the pair shares two conversations
    that the store lists in different orders for the two users: the call
    of Alice for Bob and the following call of Bob for Alice select
    different conversations, and neither call changes the store. *)
Lemma resolveOrCreateIndividual_direction_matters :
  let st1 :=
    resolveOrCreateIndividual Sample.alice Sample.bob 2000
      Sample.crossedChats in
  let st2 := resolveOrCreateIndividual Sample.bob Sample.alice 3000 st1 in
  selectedChatId st1 = Some "chat_1000"
  /\ selectedChatId st2 = Some "chat_1001"
  /\ selectedChatId st1 <> selectedChatId st2
  /\ db st2 = db Sample.crossedChats
  /\ ~ Chatwise (Store.chatParticipants (db Sample.crossedChats)).
Proof.
  cbv zeta. split; [reflexivity|]. split; [reflexivity|].
  split; [vm_compute; discriminate|]. split; [reflexivity|].
  intros H.
  apply (Chatwise_firstShared Sample.alice Sample.bob) in H.
  vm_compute in H. discriminate.
Qed.

(** C10.  The scan of [handleStartChat] reads the membership table only:
    whenever the two users share a conversation, of whatever kind, the
    call selects a conversation both are members of and writes nothing to
    the store; the chats table, where the kind is recorded, has no influence
    on the conversation selected. *)
Theorem handleStartChat_ignores_kind (A B : User) (now : Z) (st : State) :
  (exists c,
      participates (Store.chatParticipants (db st)) c (user_id A)
      /\ participates (Store.chatParticipants (db st)) c (user_id B)) ->
  let st' := resolveOrCreateIndividual A B now st in
  db st' = db st
  /\ (exists c',
        selectedChatId st' = Some c'
        /\ participates (Store.chatParticipants (db st)) c' (user_id A)
        /\ participates (Store.chatParticipants (db st)) c' (user_id B))
  /\ forall table,
       selectedChatId
         (resolveOrCreateIndividual A B now
            (with_db st (Store.set_chats (db st) table)))
       = selectedChatId st'.
Proof.
  intros (c & HA & HB) st'. subst st'.
  destruct (firstShared A B (db st)) as [c'|] eqn:E.
  - rewrite (resolve_found _ _ _ _ _ E).
    split; [reflexivity|]. split.
    + exists c'. split; [reflexivity|]. now apply firstShared_some.
    + intros table. rewrite (resolve_found _ _ _ _ c'); [reflexivity|].
      exact E.
  - exfalso. rewrite firstShared_none in E. apply (E c). now split.
Qed.

(** Alice creates a group with Bob and Carol, then starts a chat with Bob:
    the group is selected and no individual chat is created. *)
Lemma handleStartChat_ignores_kind_witness :
  let st :=
    snd (handleCreateGroup (Some Sample.alice) 7
           (Sample.groupDialog "team" ["u_bob"; "u_carol"])) in
  let st' := resolveOrCreateIndividual Sample.alice Sample.bob 9 st in
  map chat_type (Store.chats (db st)) = [group]
  /\ db st' = db st
  /\ selectedChatId st' = Some "chat_group_7".
Proof.
  cbv zeta.
  set (st := snd (handleCreateGroup (Some Sample.alice) 7
                    (Sample.groupDialog "team" ["u_bob"; "u_carol"]))).
  assert (Hshared : exists c,
    participates (Store.chatParticipants (db st)) c (user_id Sample.alice)
    /\ participates (Store.chatParticipants (db st)) c (user_id Sample.bob)).
  { exists "chat_group_7". split.
    - eexists. split; [left; reflexivity|]. split; reflexivity.
    - eexists. split; [right; left; reflexivity|]. split; reflexivity. }
  destruct (handleStartChat_ignores_kind Sample.alice Sample.bob 9 st Hshared)
    as (Hdb & _ & _).
  split; [reflexivity|]. split; [exact Hdb | reflexivity].
Defined.

(** C5 (as amended).  With a group name that is empty or white space only,
    or with no member selected, [handleCreateGroup] returns at its guard:
    its promise resolves, no error is raised or shown, and neither the
    store (groups, chats, memberships, messages) nor the state of the
    component changes. *)
Theorem handleCreateGroup_invalid_returns_silently
    (currentUser : option User) (now : Z) (st : State) :
  forallb Js.isWhiteSpace (list_ascii_of_string (groupName st)) = true
  \/ selectedUsers st = [] ->
  handleCreateGroup currentUser now st = (Resolved, st).
Proof.
  intros H. unfold handleCreateGroup.
  assert (G : negb (Js.truthy (Js.trim (groupName st)))
              || (Js.len (selectedUsers st) =? 0) = true).
  { apply orb_true_iff. destruct H as [H|H].
    - left. now apply falsy_trim_iff.
    - right. now apply len_zero_iff. }
  now rewrite G.
Qed.

Lemma handleCreateGroup_invalid_returns_silently_witness :
  (forallb Js.isWhiteSpace (list_ascii_of_string "  ") = true
   \/ ["u_bob"] = [])
  /\ handleCreateGroup (Some Sample.alice) 7
       (Sample.groupDialog "  " ["u_bob"])
     = (Resolved, Sample.groupDialog "  " ["u_bob"]).
Proof.
  split; [left; reflexivity|].
  apply (handleCreateGroup_invalid_returns_silently (Some Sample.alice) 7
           (Sample.groupDialog "  " ["u_bob"])).
  left. reflexivity.
Defined.

(** C5 as stated fails: with an empty name and no member the handler does
    not fail with a validation error, it resolves. *)
Lemma handleCreateGroup_no_ValidationError :
  groupName (Sample.groupDialog EmptyString []) = EmptyString
  /\ selectedUsers (Sample.groupDialog EmptyString []) = []
  /\ fst (handleCreateGroup (Some Sample.alice) 7
            (Sample.groupDialog EmptyString []))
     = Resolved
  /\ fst (handleCreateGroup (Some Sample.alice) 7
            (Sample.groupDialog EmptyString []))
     <> Rejected ValidationError.
Proof.
  repeat split. discriminate.
Qed.

End DirectoryClaims.

(** ** Ordered listings *)

Lemma insert_asc_In {R : Type} (k : R -> Z) (x y : R) (l : list R) :
  In y (Store.insert_asc k x l) <-> y = x \/ In y l.
Proof.
  induction l as [|z r IH]; simpl.
  - intuition congruence.
  - destruct (k z <=? k x); simpl; rewrite ?IH; intuition congruence.
Qed.

Lemma order_asc_In {R : Type} (k : R -> Z) (y : R) (l : list R) :
  In y (Store.order_asc k l) <-> In y l.
Proof.
  unfold Store.order_asc.
  assert (G : forall acc,
    In y (fold_left (fun acc x => Store.insert_asc k x acc) l acc)
    <-> In y l \/ In y acc).
  { induction l as [|x r IH]; intros acc; simpl.
    - intuition.
    - rewrite IH, insert_asc_In. intuition congruence. }
  rewrite G. simpl. intuition.
Qed.

Lemma order_desc_In {R : Type} (k : R -> Z) (y : R) (l : list R) :
  In y (Store.order_desc k l) <-> In y l.
Proof. apply order_asc_In. Qed.

Lemma filter_same_iff {A : Type} (p : A -> bool) (l : list A) :
  filter p l = l <-> forall x, In x l -> p x = true.
Proof.
  induction l as [|x r IH]; simpl.
  - split; [intros _ y [] | reflexivity].
  - destruct (p x) eqn:E.
    + split.
      * intros [= H] y [<-|Hy]; [assumption | now apply IH].
      * intros H. f_equal. apply IH. intros y Hy. apply H. now right.
    + split.
      * intros H. exfalso.
        assert (Hlen : (List.length (filter p r) <= List.length r)%nat)
          by apply filter_length_le.
        rewrite H in Hlen. simpl in Hlen. lia.
      * intros H. specialize (H x (or_introl eq_refl)). congruence.
Qed.

(** ** Message pipeline *)

Section PipelineClaims.

Import Pipeline.

Lemma sendMessage_passes_guard (body chatId : string) :
  Js.truthy (Js.trim body) = true ->
  Js.truthy chatId = true ->
  negb (Js.truthy (Js.trim body)) || negb (Js.truthy chatId) = false.
Proof. intros -> ->. reflexivity. Qed.

(** C2.  After a send whose two store calls complete, the message list of
    the component is the list before the call followed by the one new
    message, which carries the generated id, the chat, the sender and the
    body; the same message has been appended to the stored messages. *)
Theorem sendMessage_success_appends
    (cu : User) (chatId : string) (idTime now : Z) (st : State) :
  Js.truthy (Js.trim (newMessage st)) = true ->
  Js.truthy chatId = true ->
  let st' := sendMessage (Some cu) (Some chatId) idTime now true true st in
  exists m,
    messages st' = messages st ++ [m]
    /\ id m = Js.template ["msg_"; Js.num_to_string idTime]
    /\ msg_chatId (row m) = chatId
    /\ msg_senderId (row m) = user_id cu
    /\ msg_content (row m) = newMessage st
    /\ msg_createdAt (row m) = now
    /\ exists r,
         Store.messages (db st') = Store.messages (db st) ++ [r]
         /\ msg_id r = id m /\ msg_content r = newMessage st.
Proof.
  intros Hbody Hchat st'. subst st'. unfold sendMessage.
  rewrite (sendMessage_passes_guard _ _ Hbody Hchat).
  eexists. split; [reflexivity|].
  repeat (split; [reflexivity|]).
  eexists. split; [reflexivity|]. split; reflexivity.
Qed.

Lemma sendMessage_success_appends_witness :
  Js.truthy (Js.trim "how are you?") = true
  /\ Js.truthy "c1" = true
  /\ exists m,
       messages
         (sendMessage (Some Sample.bob) (Some "c1") 1700000000500
            1700000000501 true true
            (Sample.chatArea Sample.chatWithHello [Sample.helloShown]
               "how are you?"))
       = [Sample.helloShown; m]
       /\ msg_content (row m) = "how are you?".
Proof.
  split; [reflexivity|]. split; [reflexivity|].
  destruct (sendMessage_success_appends Sample.bob "c1" 1700000000500
              1700000000501
              (Sample.chatArea Sample.chatWithHello [Sample.helloShown]
                 "how are you?") eq_refl eq_refl)
    as (m & Hm & _ & _ & _ & Hc & _).
  exists m. split; [exact Hm | exact Hc].
Defined.

(** C3, what the code does.  When [blink.db.messages.create] throws, the
    store is left as it was and the message list becomes the list before
    the call without the messages that carry the generated id; it is the
    list before the call exactly when no message of that list carries the
    generated id. *)
Theorem sendMessage_create_fails_filters_by_id
    (cu : User) (chatId : string) (idTime now : Z) (updateOk : bool)
    (st : State) :
  Js.truthy (Js.trim (newMessage st)) = true ->
  Js.truthy chatId = true ->
  let messageId := Js.template ["msg_"; Js.num_to_string idTime] in
  let st' :=
    sendMessage (Some cu) (Some chatId) idTime now false updateOk st in
  db st' = db st
  /\ messages st'
     = filter (fun m => negb (id m =? messageId)%string) (messages st)
  /\ (messages st' = messages st
      <-> forall m, In m (messages st) -> id m <> messageId).
Proof.
  intros Hbody Hchat messageId st'. subst st'. unfold sendMessage.
  rewrite (sendMessage_passes_guard _ _ Hbody Hchat).
  cbn [setMessages db messages]. fold messageId.
  assert (E : filter (fun m => negb (id m =? messageId)%string)
                (messages st ++ [Msg
                   {| msg_id := messageId; msg_chatId := chatId;
                      msg_senderId := user_id cu;
                      msg_content := newMessage st;
                      msg_messageType := text; msg_fileUrl := None;
                      msg_replyToMessageId :=
                        option_map id (replyToMessage st);
                      msg_isForwarded := false; msg_isStarred := false;
                      msg_createdAt := now; msg_updatedAt := None |}
                   (Some cu) (replyToMessage st)])
              = filter (fun m => negb (id m =? messageId)%string)
                  (messages st)).
  { rewrite filter_app. cbn [filter id row msg_id].
    rewrite String.eqb_refl. cbn [negb]. apply app_nil_r. }
  split; [reflexivity|]. split; [exact E|].
  rewrite E, filter_same_iff. split.
  - intros H m Hm Heq. specialize (H m Hm).
    apply negb_true_iff, String.eqb_neq in H. contradiction.
  - intros H m Hm. apply negb_true_iff, String.eqb_neq. now apply H.
Qed.

(** Bob sends while his clock reads the value Alice's clock read when she
    wrote [hello]; the create throws and the rollback removes Alice's
    message together with Bob's. *)
Lemma sendMessage_create_fails_filters_by_id_witness :
  let st := Sample.chatArea Sample.chatWithHello [Sample.helloShown]
              "how are you?" in
  let st' :=
    sendMessage (Some Sample.bob) (Some "c1") 1700000000000 1700000000000
      false true st in
  Js.truthy (Js.trim (newMessage st)) = true
  /\ Js.truthy "c1" = true
  /\ messages st = [Sample.helloShown]
  /\ messages st' = []
  /\ db st' = db st.
Proof.
  cbv zeta.
  destruct (sendMessage_create_fails_filters_by_id Sample.bob "c1"
              1700000000000 1700000000000 true
              (Sample.chatArea Sample.chatWithHello [Sample.helloShown]
                 "how are you?") eq_refl eq_refl)
    as (Hdb & Hmsgs & _).
  split; [reflexivity|]. split; [reflexivity|]. split; [reflexivity|].
  split; [|exact Hdb].
  rewrite Hmsgs. reflexivity.
Defined.

(** With an id that no shown message carries, the rollback restores the
    list. *)
Lemma sendMessage_rollback_with_fresh_id :
  let st := Sample.chatArea Sample.chatWithHello [Sample.helloShown]
              "how are you?" in
  let st' :=
    sendMessage (Some Sample.bob) (Some "c1") 1700000000500 1700000000501
      false true st in
  messages st' = messages st /\ db st' = db st.
Proof. cbv zeta. split; reflexivity. Qed.

(** A create that completes followed by a chat update that throws also ends
    in the [catch]: the message is stored and no longer shown. *)
Lemma sendMessage_update_fails_hides_stored_message
    (cu : User) (chatId : string) (idTime now : Z) (st : State) :
  Js.truthy (Js.trim (newMessage st)) = true ->
  Js.truthy chatId = true ->
  (forall m, In m (messages st) ->
     id m <> Js.template ["msg_"; Js.num_to_string idTime]) ->
  let st' := sendMessage (Some cu) (Some chatId) idTime now true false st in
  messages st' = messages st
  /\ exists r, Store.messages (db st') = Store.messages (db st) ++ [r]
               /\ msg_id r = Js.template ["msg_"; Js.num_to_string idTime].
Proof.
  intros Hbody Hchat Hfresh st'. subst st'. unfold sendMessage.
  rewrite (sendMessage_passes_guard _ _ Hbody Hchat).
  cbn [setMessages db messages with_db]. split.
  - rewrite filter_app. cbn [filter id row msg_id].
    rewrite String.eqb_refl. cbn [negb]. rewrite app_nil_r.
    apply filter_same_iff. intros m Hm.
    apply negb_true_iff, String.eqb_neq. now apply Hfresh.
  - eexists. split; reflexivity.
Qed.

End PipelineClaims.

Section MessageActions.

Import Pipeline.

Lemma delete_removes_id (mid : string) (table : list MessageRow) :
  forall r, In r (Store.delete msg_id mid table) -> msg_id r <> mid.
Proof.
  unfold Store.delete. intros r Hr. apply filter_In in Hr as [_ Hr].
  now apply negb_true_iff, String.eqb_neq in Hr.
Qed.

Lemma loadMessages_lists_stored (chatId : string) (st : State) m :
  Js.truthy chatId = true ->
  In m (messages (loadMessages (Some chatId) st)) ->
  In (row m) (Store.messages (db st)).
Proof.
  intros Hc. unfold loadMessages. cbn [present]. rewrite Hc.
  cbn [setMessages messages]. intros Hm.
  apply in_map_iff in Hm as (r & <- & Hr).
  apply order_asc_In in Hr. unfold Store.list_where in Hr.
  apply filter_In in Hr as [Hr _]. exact Hr.
Qed.

Lemma handleMessageAction_delete sel M st :
  handleMessageAction sel true "delete" M st
  = (Resolved,
     setSelectedMessage None
       (loadMessages sel
          (with_db st
             (Store.set_messages (db st)
                (Store.delete msg_id (id M) (Store.messages (db st))))))).
Proof. reflexivity. Qed.

Lemma db_loadMessages sel st : db (loadMessages sel st) = db st.
Proof.
  unfold loadMessages. destruct (present sel); [|reflexivity].
  destruct sel; reflexivity.
Qed.

(** C4 (as amended).  Deletion is restricted by the menu, not by the
    handler: the Delete item is rendered exactly when the current user is
    the sender of the message, and a click on an item that is not rendered
    does nothing and raises nothing.  [handleMessageAction] itself never
    consults the current user and never fails with a permission error;
    when it runs the delete action and the store call completes, its
    promise resolves, the rows with the id of the message are gone from the
    store and, with a chat selected, the reloaded message list holds no
    message with that id. *)
Theorem delete_is_gated_by_the_menu
    (currentUser : option User) (chatId : string) (M : Message)
    (st : State) :
  (menuOffers currentUser "delete" M = true
   <-> exists u, currentUser = Some u
                 /\ msg_senderId (row M) = user_id u)
  /\ (menuOffers currentUser "delete" M = false ->
      forall storeOk,
        menuClick currentUser (Some chatId) storeOk "delete" M st
        = (Resolved, st))
  /\ (let r := handleMessageAction (Some chatId) true "delete" M st in
      fst r = Resolved
      /\ Store.messages (db (snd r))
         = Store.delete msg_id (id M) (Store.messages (db st))
      /\ (forall x, In x (Store.messages (db (snd r))) -> msg_id x <> id M)
      /\ (Js.truthy chatId = true ->
          forall m, In m (messages (snd r)) -> id m <> id M))
  /\ forall storeOk action,
       fst (handleMessageAction (Some chatId) storeOk action M st)
       <> Rejected PermissionError.
Proof.
  split; [|split; [|split]].
  - cbn [menuOffers String.eqb Ascii.eqb Bool.eqb andb].
    destruct currentUser as [u|].
    + rewrite String.eqb_eq. split.
      * intros H. now exists u.
      * intros (u' & [= <-] & H). exact H.
    + split; [discriminate | intros (u & H & _); discriminate].
  - intros H storeOk. unfold menuClick. now rewrite H.
  - cbv zeta. rewrite handleMessageAction_delete. cbn [fst snd].
    assert (Hdb : db (setSelectedMessage None
              (loadMessages (Some chatId)
                 (with_db st
                    (Store.set_messages (db st)
                       (Store.delete msg_id (id M)
                          (Store.messages (db st)))))))
            = Store.set_messages (db st)
                (Store.delete msg_id (id M) (Store.messages (db st)))).
    { cbn [setSelectedMessage db]. now rewrite db_loadMessages. }
    split; [reflexivity|]. split; [now rewrite Hdb|]. split.
    + rewrite Hdb. apply delete_removes_id.
    + intros Hc m Hm. cbn [setSelectedMessage messages] in Hm.
      apply (loadMessages_lists_stored chatId _ m Hc) in Hm.
      cbn [with_db db Store.set_messages Store.messages] in Hm.
      now apply delete_removes_id in Hm.
  - intros storeOk action. unfold handleMessageAction.
    repeat match goal with
           | |- context [if ?b then _ else _] => destruct b
           | |- context [match ?o with Some _ => _ | None => _ end] =>
               destruct o
           end; cbn [fst]; discriminate.
Qed.

(** Bob looks at Alice's message: no Delete item, and a click on the
    missing item changes nothing. *)
Lemma delete_is_gated_by_the_menu_witness :
  menuOffers (Some Sample.bob) "delete" Sample.helloShown = false
  /\ menuClick (Some Sample.bob) (Some "c1") true "delete" Sample.helloShown
       (Sample.chatArea Sample.chatWithHello [Sample.helloShown] EmptyString)
     = (Resolved,
        Sample.chatArea Sample.chatWithHello [Sample.helloShown] EmptyString).
Proof.
  split; [reflexivity|].
  apply (proj1 (proj2
    (delete_is_gated_by_the_menu (Some Sample.bob) "c1" Sample.helloShown
       (Sample.chatArea Sample.chatWithHello [Sample.helloShown]
          EmptyString)))).
  reflexivity.
Defined.

(** C4 as stated fails: applied for Bob to Alice's message, the delete
    action does not fail; it resolves and the message is gone from the
    store and from the list shown. *)
Lemma delete_by_other_user_succeeds :
  let st := Sample.chatArea Sample.chatWithHello [Sample.helloShown]
              EmptyString in
  let r := handleMessageAction (Some "c1") true "delete" Sample.helloShown
             st in
  msg_senderId (row Sample.helloShown) <> user_id Sample.bob
  /\ fst (menuClick (Some Sample.bob) (Some "c1") true "delete"
            Sample.helloShown st) = Resolved
  /\ fst r = Resolved
  /\ fst r <> Rejected PermissionError
  /\ Store.messages (db st) = [Sample.hello]
  /\ Store.messages (db (snd r)) = []
  /\ messages (snd r) = [].
Proof.
  cbv zeta. split; [vm_compute; discriminate|].
  split; [reflexivity|]. split; [reflexivity|]. split; [discriminate|].
  split; [reflexivity|]. split; reflexivity.
Qed.

End MessageActions.

(** ** Story lifecycle *)

Section StoryClaims.

Import StoryEngine.

Lemma partition_In {A : Type} (p : A -> bool) (l : list A) (x : A) :
  In x (filter p l ++ filter (fun y => negb (p y)) l) <-> In x l.
Proof.
  rewrite in_app_iff, !filter_In. split.
  - intros [[H _]|[H _]]; exact H.
  - intros H. destruct (p x) eqn:E; [left | right]; now split.
Qed.

Lemma db_loadStories cu now st : db (loadStories cu now st) = db st.
Proof. destruct cu; reflexivity. Qed.

(** What the listing holds: the stored stories whose expiry lies after the
    time of the query. *)
Lemma listActive_row (viewer : User) (q : Z) (st : State) (r : StoryRow) :
  (exists s, In s (listActive (Some viewer) q st) /\ story_row s = r)
  <-> In r (Store.stories (db st)) /\ q < story_expiresAt r.
Proof.
  unfold listActive, loadStories. cbn [myStories stories].
  split.
  - intros (s & Hs & <-).
    apply partition_In, in_map_iff in Hs as (r & <- & Hr).
    apply order_desc_In in Hr. unfold Store.list_where in Hr.
    apply filter_In in Hr as [Hin Hexp]. cbn [story_row withUserAndViews].
    split; [exact Hin | now apply Z.gtb_lt in Hexp].
  - intros [Hin Hexp]. exists (withUserAndViews (db st) r).
    split; [|reflexivity].
    apply partition_In, in_map. apply order_desc_In.
    unfold Store.list_where. apply filter_In.
    split; [exact Hin | now apply Z.gtb_lt].
Qed.

(** C6.  A story added at time [T] is stored with [createdAt = T] and
    [expiresAt = T + 24h]; for every viewer and every query time [q] the
    listing of active stories holds it exactly when [q < T + 24h], and the
    listing never removes a stored story: expiry is the filter of the
    query. *)
Theorem story_listed_until_expiry
    (author : User) (idTime T reloadTime : Z) (publicUrl : string)
    (file : File) (st : State) :
  selectedFile st = Some file ->
  let st1 :=
    handleAddStory (Some author) idTime T reloadTime (Some publicUrl) true
      st in
  exists r,
    Store.stories (db st1) = Store.stories (db st) ++ [r]
    /\ story_id r = Js.template ["story_"; Js.num_to_string idTime]
    /\ story_userId r = user_id author
    /\ story_createdAt r = T
    /\ story_expiresAt r = T + 86400000
    /\ forall (viewer : User) (q : Z) (stv : State),
         db stv = db st1 ->
         ((exists s, In s (listActive (Some viewer) q stv) /\ story_row s = r)
          <-> q < T + 86400000)
         /\ Store.stories (db (loadStories (Some viewer) q stv))
            = Store.stories (db st1).
Proof.
  intros Hfile st1. subst st1. unfold handleAddStory. rewrite Hfile.
  rewrite db_loadStories. cbn [db Store.stories Store.set_stories].
  eexists. split; [reflexivity|].
  repeat (split; [reflexivity|]).
  intros viewer q stv Hdb. split.
  - rewrite listActive_row, Hdb.
    cbn [db Store.stories Store.set_stories story_expiresAt].
    change (24 * 60 * 60 * 1000) with 86400000. split.
    + intros [_ H]. exact H.
    + intros H. split; [|exact H].
      unfold Store.create. apply in_or_app. right. now left.
  - rewrite db_loadStories, Hdb. reflexivity.
Qed.

(** A story added at time 1000 is listed for Bob one hour later. *)
Lemma story_listed_until_expiry_witness :
  selectedFile Sample.addDialog
  = Some {| file_name := "sunset.jpg"; file_type := "image/jpeg" |}
  /\ exists r,
       story_createdAt r = 1000
       /\ exists s,
            In s (listActive (Some Sample.bob) (1000 + 3600000)
                    (handleAddStory (Some Sample.alice) 999 1000 1001
                       (Some "https://cdn/sunset.jpg") true Sample.addDialog))
            /\ story_row s = r.
Proof.
  split; [reflexivity|].
  destruct (story_listed_until_expiry Sample.alice 999 1000 1001
              "https://cdn/sunset.jpg"
              {| file_name := "sunset.jpg"; file_type := "image/jpeg" |}
              Sample.addDialog eq_refl)
    as (r & _ & _ & _ & Hc & _ & H).
  exists r. split; [exact Hc|].
  apply (proj1 (H Sample.bob (1000 + 3600000) _ eq_refl)). reflexivity.
Defined.

Lemma viewsOf_create d sid uid v :
  viewsOf (Store.set_storyViews d (Store.create v (Store.storyViews d)))
    sid uid
  = viewsOf d sid uid
    ++ (if (view_storyId v =? sid)%string && (view_viewerId v =? uid)%string
        then [v] else []).
Proof.
  unfold viewsOf, Store.list_where, Store.create.
  cbn [Store.storyViews Store.set_storyViews].
  now rewrite filter_app.
Qed.

Lemma markViewed_absent cu s now d :
  viewsOf d (story_id (story_row s)) (user_id cu) = [] ->
  markViewed cu s now d
  = Store.set_storyViews d
      (Store.create
         {| view_id := Js.template ["view_"; Js.num_to_string now];
            view_storyId := story_id (story_row s);
            view_viewerId := user_id cu; view_viewedAt := now |}
         (Store.storyViews d)).
Proof.
  unfold markViewed, viewsOf. intros ->. reflexivity.
Qed.

Lemma markViewed_present cu s now d :
  viewsOf d (story_id (story_row s)) (user_id cu) <> [] ->
  markViewed cu s now d = d.
Proof.
  unfold markViewed, viewsOf. intros H.
  destruct (Js.len _ =? 0) eqn:E; [|reflexivity].
  apply len_zero_iff in E. contradiction.
Qed.

Lemma markViewed_views cu s now d :
  viewsOf (markViewed cu s now d) (story_id (story_row s)) (user_id cu)
  = match viewsOf d (story_id (story_row s)) (user_id cu) with
    | [] => [{| view_id := Js.template ["view_"; Js.num_to_string now];
                view_storyId := story_id (story_row s);
                view_viewerId := user_id cu; view_viewedAt := now |}]
    | l => l
    end.
Proof.
  destruct (viewsOf d (story_id (story_row s)) (user_id cu)) as [|v l] eqn:E.
  - rewrite (markViewed_absent _ _ _ _ E), viewsOf_create, E.
    cbn [view_storyId view_viewerId]. now rewrite !String.eqb_refl.
  - rewrite markViewed_present; [exact E | congruence].
Qed.

Lemma handleViewStory_db cu now s index st :
  story_userId (story_row s) <> user_id cu ->
  db (handleViewStory (Some cu) now (Some s) index st)
  = markViewed cu s now (db st).
Proof.
  intros H. unfold handleViewStory, awaitsStore.
  apply String.eqb_neq in H. rewrite H. reflexivity.
Qed.

(** A call that waits for the store and is resumed before any other event
    is the call run to its end. *)
Lemma enter_then_resume cu now s index st :
  story_userId (story_row s) <> user_id cu ->
  handleViewStory_resume (Some cu) now (List.length (suspended st))
    (handleViewStory_enter (Some cu) (Some s) index st)
  = handleViewStory (Some cu) now (Some s) index st.
Proof.
  intros H. unfold handleViewStory_enter, handleViewStory_resume,
    handleViewStory, awaitsStore.
  apply String.eqb_neq in H. rewrite H. cbn [negb].
  cbn [suspended setSuspended showStory].
  replace (nth_error (suspended st ++ [(s, index)])
             (List.length (suspended st))) with (Some (s, index)).
  2:{ symmetry. rewrite nth_error_app2 by lia.
      now rewrite Nat.sub_diag. }
  replace (remove_nth (List.length (suspended st))
             (suspended st ++ [(s, index)])) with (suspended st).
  2:{ induction (suspended st) as [|x l IH]; simpl; [reflexivity|].
      now rewrite <- IH. }
  reflexivity.
Qed.

(** C7.  For a viewer other than the author, two calls of
    [handleViewStory] for the same story, one after the other: when the
    store holds no view of the pair, the first call appends one, stamped
    with the viewer, the story and the time of the call; the second call
    leaves the table of views as the first left it; the pair then has
    exactly one view.  In general the calls never take a pair from at most
    one view to more than one. *)
Theorem view_twice_one_record
    (cu : User) (s : Story) (i1 i2 : Z) (t1 t2 : Z) (st : State) :
  story_userId (story_row s) <> user_id cu ->
  let st1 := handleViewStory (Some cu) t1 (Some s) i1 st in
  let st2 := handleViewStory (Some cu) t2 (Some s) i2 st1 in
  let pairViews d := viewsOf d (story_id (story_row s)) (user_id cu) in
  (pairViews (db st) = [] ->
     exists v,
       Store.storyViews (db st1) = Store.storyViews (db st) ++ [v]
       /\ view_storyId v = story_id (story_row s)
       /\ view_viewerId v = user_id cu
       /\ view_viewedAt v = t1
       /\ pairViews (db st2) = [v])
  /\ Store.storyViews (db st2) = Store.storyViews (db st1)
  /\ ((List.length (pairViews (db st)) <= 1)%nat ->
      (List.length (pairViews (db st2)) <= 1)%nat).
Proof.
  intros Hne st1 st2 pairViews. subst st1 st2 pairViews.
  rewrite !(handleViewStory_db _ _ _ _ _ Hne).
  assert (Hsecond : forall d,
    markViewed cu s t2 (markViewed cu s t1 d) = markViewed cu s t1 d).
  { intros d. apply markViewed_present. rewrite markViewed_views.
    destruct (viewsOf d _ _); discriminate. }
  rewrite Hsecond. split; [|split].
  - intros Habs. eexists. repeat split.
    + rewrite (markViewed_absent _ _ _ _ Habs). reflexivity.
    + reflexivity.
    + reflexivity.
    + reflexivity.
    + rewrite markViewed_views, Habs. reflexivity.
  - reflexivity.
  - intros Hle. rewrite markViewed_views.
    destruct (viewsOf (db st) _ _) as [|v l]; [simpl; lia | exact Hle].
Qed.

(** Carol looks twice at Alice's newest story. *)
Lemma view_twice_one_record_witness :
  let s := {| story_row := Sample.storyRow "story_100" "u_alice" 100;
              user := Some Sample.alice; views := [] |} in
  let st1 := handleViewStory (Some Sample.carol) 300 (Some s) 1
               Sample.carolBar in
  let st2 := handleViewStory (Some Sample.carol) 400 (Some s) 1 st1 in
  story_userId (story_row s) <> user_id Sample.carol
  /\ Store.storyViews (db st2) = Store.storyViews (db st1)
  /\ List.length (viewsOf (db st2) "story_100" "u_carol") = 1%nat.
Proof.
  cbv zeta.
  assert (Hne : story_userId
                  (story_row
                     {| story_row := Sample.storyRow "story_100" "u_alice" 100;
                        user := Some Sample.alice; views := [] |})
                <> user_id Sample.carol) by (vm_compute; discriminate).
  split; [exact Hne|].
  split; [|reflexivity].
  exact (proj1 (proj2
    (view_twice_one_record Sample.carol _ 1 1 300 400 Sample.carolBar Hne))).
Defined.

(** The author's own view leaves no record. *)
Lemma handleViewStory_own_story cu now s index st :
  story_userId (story_row s) = user_id cu ->
  db (handleViewStory (Some cu) now (Some s) index st) = db st.
Proof.
  intros H. unfold handleViewStory, awaitsStore.
  apply String.eqb_eq in H. rewrite H. reflexivity.
Qed.

End StoryClaims.

(** ** Playback *)

Section PlaybackClaims.

Import StoryEngine.

Lemma ticks_last atomic cu now t n st :
  ticks atomic cu now t (S n) st
  = step atomic cu now (Tick t) (ticks atomic cu now t n st).
Proof.
  revert st. induction n as [|n IH]; intros st; [reflexivity|].
  change (ticks atomic cu now t (S (S n)) st)
    with (ticks atomic cu now t (S n) (step atomic cu now (Tick t) st)).
  now rewrite IH.
Qed.

Lemma tick_below view t st e :
  find (fun e => (fst e =? t)%nat) (intervals st) = Some e ->
  storyProgress st < 100 ->
  tick view t st = setStoryProgress (storyProgress st + 2) st.
Proof.
  intros Hf Hp. unfold tick. rewrite Hf. destruct e as [t' index].
  destruct (storyProgress st >=? 100) eqn:E; [|reflexivity].
  apply Z.geb_le in E. lia.
Qed.

Lemma tick_at_100 view t st t' index :
  find (fun e => (fst e =? t)%nat) (intervals st) = Some (t', index) ->
  100 <= storyProgress st ->
  tick view t st
  = setStoryProgress 0
      (if index <? Js.len (myStories st ++ stories st) - 1
       then view (Js.index (myStories st ++ stories st) (index + 1))
              (index + 1) (clearInterval t st)
       else setShowStoryViewer false (clearInterval t st)).
Proof.
  intros Hf Hp. unfold tick. rewrite Hf.
  destruct (storyProgress st >=? 100) eqn:E; [reflexivity|].
  rewrite Z.geb_leb in E. apply Z.leb_gt in E. lia.
Qed.

(** While the progress stays below 100 a firing only adds 2 to it. *)
Lemma ticks_below atomic cu now t e n :
  forall st,
    find (fun e => (fst e =? t)%nat) (intervals st) = Some e ->
    storyProgress st + 2 * Z.of_nat n < 100 ->
    ticks atomic cu now t (S n) st
    = setStoryProgress (storyProgress st + 2 * Z.of_nat (S n)) st.
Proof.
  induction n as [|n IH]; intros st Hf Hp.
  - cbn [ticks step]. rewrite (tick_below _ _ _ _ Hf) by lia. reflexivity.
  - change (ticks atomic cu now t (S (S n)) st)
      with (ticks atomic cu now t (S n) (step atomic cu now (Tick t) st)).
    cbn [step]. rewrite (tick_below _ _ _ _ Hf) by lia.
    rewrite IH; cbn [intervals storyProgress setStoryProgress];
      [|exact Hf|lia].
    unfold setStoryProgress. cbn. f_equal. lia.
Qed.

Lemma view_fields atomic cu now os i st :
  let st' := (if atomic : bool then handleViewStory cu now
              else handleViewStory_enter cu) os i st in
  showStoryViewer st' = true /\ currentStoryIndex st' = i
  /\ selectedStory st' = os.
Proof.
  destruct atomic; cbv zeta.
  - unfold handleViewStory. destruct os; repeat split.
  - unfold handleViewStory_enter. destruct os as [s|]; [|repeat split].
    destruct (awaitsStore cu s); repeat split.
Qed.

(** C8, what the code does.  From [Playing(s0, 0, 0)], with the timer [t]
    of index 0 running, fifty firings of the timer bring the progress to
    100 and leave the first story shown; it is the fifty-first firing that
    resets the progress to 0 and moves to the story of index 1 of
    [myStories ++ stories], or closes the viewer when there is no such
    story. *)
Theorem playback_advances_on_tick_51
    (atomic : bool) (cu : option User) (now : Z) (t : nat) (st : State) :
  showStoryViewer st = true ->
  currentStoryIndex st = 0 ->
  storyProgress st = 0 ->
  find (fun e => (fst e =? t)%nat) (intervals st) = Some (t, 0) ->
  let allStories := myStories st ++ stories st in
  let st50 := ticks atomic cu now t 50 st in
  let st51 := ticks atomic cu now t 51 st in
  (showStoryViewer st50 = true /\ currentStoryIndex st50 = 0
   /\ selectedStory st50 = selectedStory st /\ storyProgress st50 = 100)
  /\ storyProgress st51 = 0
  /\ (1 < Js.len allStories ->
      showStoryViewer st51 = true /\ currentStoryIndex st51 = 1
      /\ selectedStory st51 = Js.index allStories 1)
  /\ (Js.len allStories <= 1 -> showStoryViewer st51 = false).
Proof.
  intros Hshow Hidx Hp Hf allStories st50 st51.
  assert (E50 : st50 = setStoryProgress 100 st).
  { subst st50. rewrite (ticks_below atomic cu now t (t, 0) 49 st Hf)
      by (rewrite Hp; lia).
    rewrite Hp. reflexivity. }
  split.
  { rewrite E50. cbn [setStoryProgress showStoryViewer currentStoryIndex
      selectedStory storyProgress]. repeat split; assumption. }
  assert (E51 : st51 = step atomic cu now (Tick t) st50)
    by apply ticks_last.
  rewrite E51, E50. cbn [step].
  rewrite (tick_at_100 _ t (setStoryProgress 100 st) t 0 Hf)
    by (cbn [storyProgress setStoryProgress]; lia).
  change (myStories (setStoryProgress 100 st) ++
          stories (setStoryProgress 100 st)) with allStories.
  split; [reflexivity|].
  change (0 + 1) with 1.
  split.
  - intros Hlen.
    assert (G : (0 <? Js.len allStories - 1) = true)
      by (apply Z.ltb_lt; lia).
    rewrite G.
    exact (view_fields atomic cu now (Js.index allStories 1) 1 _).
  - intros Hlen.
    assert (G : (0 <? Js.len allStories - 1) = false)
      by (apply Z.ltb_ge; lia).
    rewrite G. reflexivity.
Qed.

(** Alice opens her own first story and lets it play. *)
Lemma playback_advances_on_tick_51_witness :
  let st := step true (Some Sample.alice) 300 OpenMine Sample.aliceBar in
  (showStoryViewer st = true /\ currentStoryIndex st = 0
   /\ storyProgress st = 0
   /\ find (fun e => (fst e =? 1)%nat) (intervals st) = Some (1%nat, 0))
  /\ currentStoryIndex (ticks true (Some Sample.alice) 300 1 50 st) = 0
  /\ storyProgress (ticks true (Some Sample.alice) 300 1 50 st) = 100
  /\ currentStoryIndex (ticks true (Some Sample.alice) 300 1 51 st) = 1.
Proof.
  cbv zeta.
  set (st := step true (Some Sample.alice) 300 OpenMine Sample.aliceBar).
  assert (H1 : showStoryViewer st = true) by reflexivity.
  assert (H2 : currentStoryIndex st = 0) by reflexivity.
  assert (H3 : storyProgress st = 0) by reflexivity.
  assert (H4 : find (fun e => (fst e =? 1)%nat) (intervals st)
               = Some (1%nat, 0))
    by reflexivity.
  destruct (playback_advances_on_tick_51 true (Some Sample.alice) 300 1 st
              H1 H2 H3 H4) as ((_ & Hi & _ & Hp) & _ & Hadv & _).
  split; [repeat split|].
  split; [exact Hi|]. split; [exact Hp|].
  apply Hadv. vm_compute. reflexivity.
Defined.

(** The input of C8 evaluated: after exactly fifty firings Alice's viewer
    still shows her first story, with the bar full. *)
Lemma playback_after_50_ticks_still_first_story :
  let st := step true (Some Sample.alice) 300 OpenMine Sample.aliceBar in
  let st50 := ticks true (Some Sample.alice) 300 1 50 st in
  Js.len (myStories st ++ stories st) = 5
  /\ currentStoryIndex st = 0 /\ storyProgress st = 0
  /\ showStoryViewer st50 = true
  /\ currentStoryIndex st50 = 0
  /\ storyProgress st50 = 100
  /\ currentStoryIndex st50 <> 1.
Proof.
  cbv zeta. repeat split; vm_compute; discriminate.
Qed.

End PlaybackClaims.

(** ** Timers *)

Section TimerClaims.

Import StoryEngine.

Lemma oneTimer_setStoryProgress p st :
  oneTimer st -> oneTimer (setStoryProgress p st).
Proof. intros H. exact H. Qed.

Lemma oneTimer_mounted d mine others : oneTimer (mounted d mine others).
Proof. repeat split. now left. Qed.

(** Run to its end on a state with no interval, [handleViewStory] leaves
    at most the interval it sets. *)
Lemma handleViewStory_oneTimer cu now os index st :
  suspended st = [] -> intervals st = [] ->
  oneTimer (handleViewStory cu now os index st).
Proof.
  intros Hs Hi. unfold handleViewStory, oneTimer.
  destruct os as [s|];
    cbn [showStory startTimer with_db suspended intervals storyTimer
         showStoryViewer].
  - rewrite Hi. split; [exact Hs|]. split; [|discriminate].
    right. now exists (nextTimer st), index.
  - split; [exact Hs|]. split; [now left | intros _; exact Hi].
Qed.

Lemma clearStoryTimer_empty st :
  oneTimer st ->
  suspended (clearStoryTimer st) = []
  /\ intervals (clearStoryTimer st) = [].
Proof.
  intros (Hs & Hi & _). unfold clearStoryTimer.
  destruct Hi as [Hi|(t & i & Hi & Ht)].
  - destruct (storyTimer st);
      cbn [clearInterval suspended intervals]; rewrite ?Hi; now split.
  - rewrite Ht. cbn [clearInterval suspended intervals]. rewrite Hi.
    cbn [filter fst]. rewrite Nat.eqb_refl. now split.
Qed.

Lemma clearInterval_fired t e st :
  oneTimer st ->
  find (fun e => (fst e =? t)%nat) (intervals st) = Some e ->
  suspended (clearInterval t st) = []
  /\ intervals (clearInterval t st) = [].
Proof.
  intros (Hs & Hi & _) Hf. cbn [clearInterval suspended intervals].
  split; [exact Hs|].
  destruct Hi as [Hi|(t0 & i & Hi & _)]; rewrite Hi in *;
    [discriminate|].
  cbn [find filter fst] in *.
  destruct (t0 =? t)%nat; [reflexivity | discriminate].
Qed.

Lemma closeStoryViewer_oneTimer st :
  oneTimer st -> oneTimer (closeStoryViewer st).
Proof.
  intros H. destruct (clearStoryTimer_empty st H) as [Hs Hi].
  unfold closeStoryViewer. fold (clearStoryTimer st). unfold oneTimer.
  cbn [suspended intervals storyTimer showStoryViewer].
  split; [exact Hs|]. split; [now left | intros _; exact Hi].
Qed.

(** Every event handled with [handleViewStory] run to its end keeps the
    invariant. *)
Lemma step_oneTimer cu now e st :
  oneTimer st -> clickable e st -> oneTimer (step true cu now e st).
Proof.
  intros H Hc. pose proof H as (Hs & Hi & Hclosed).
  destruct e as [|userId|t| | | |k]; cbn [step clickable] in *.
  - unfold openMyStory. destruct (Js.len (myStories st) >? 0).
    + apply handleViewStory_oneTimer; auto.
    + exact H.
  - unfold openUserStories. apply handleViewStory_oneTimer; auto.
  - unfold tick.
    destruct (find (fun e => (fst e =? t)%nat) (intervals st))
      as [[t' index]|] eqn:Hf; [|exact H].
    destruct (storyProgress st >=? 100); [|exact H].
    destruct (clearInterval_fired t _ st H Hf) as [Hs1 Hi1].
    apply oneTimer_setStoryProgress.
    cbn [myStories stories clearInterval].
    destruct (index <? _).
    + apply handleViewStory_oneTimer; assumption.
    + unfold oneTimer.
      cbn [setShowStoryViewer suspended intervals storyTimer
           showStoryViewer].
      split; [exact Hs1|]. split; [now left | intros _; exact Hi1].
  - unfold nextStory. destruct (clearStoryTimer_empty st H) as [Hs1 Hi1].
    destruct (currentStoryIndex st <? _).
    + apply handleViewStory_oneTimer; assumption.
    + now apply closeStoryViewer_oneTimer.
  - unfold prevStory. destruct (clearStoryTimer_empty st H) as [Hs1 Hi1].
    destruct (currentStoryIndex st >? 0).
    + apply handleViewStory_oneTimer; assumption.
    + exact H.
  - now apply closeStoryViewer_oneTimer.
  - unfold handleViewStory_resume. rewrite Hs.
    destruct k; exact H.
Qed.

(** What holds of the timers: when every call of [handleViewStory] runs to
    its end before the next event is handled, at most one interval is set
    at any time, and none while the viewer is closed. *)
Theorem one_timer_when_calls_run_to_their_end
    (cu : option User) (events : list (Z * Event)) :
  forall st,
    oneTimer st -> clickableAll true cu events st ->
    let st' := run true cu events st in
    (List.length (intervals st') <= 1)%nat
    /\ (showStoryViewer st' = false -> intervals st' = []).
Proof.
  induction events as [|[now e] rest IH]; intros st H Hc; cbn [run].
  - destruct H as (_ & [Hi|(t & i & Hi & _)] & Hclosed);
      rewrite Hi; simpl; split; auto; rewrite <- Hi; exact Hclosed.
  - destruct Hc as [Hc Hrest]. apply IH; [|exact Hrest].
    now apply step_oneTimer.
Qed.

(** C9 at a failing input.  Carol taps "next" twice while the view check
    of the first tap is still waiting for the store: the second tap clears
    the interval of the story she left, which is already cleared, and both
    calls of [handleViewStory] later set an interval.  Two intervals, with
    indices 2 and 3, are then running at once; handled with each call run
    to its end, the same events leave one. *)
Theorem two_next_taps_leave_two_timers :
  let st := run false (Some Sample.carol) Sample.doubleNext Sample.carolBar in
  intervals st = [(2%nat, 2); (3%nat, 3)]
  /\ storyTimer st = Some 3%nat
  /\ List.length (intervals st) = 2%nat
  /\ intervals
       (run true (Some Sample.carol) Sample.doubleNext Sample.carolBar)
     = [(3%nat, 3)].
Proof. cbv zeta. repeat split. Qed.

(** A close before the store answers cancels nothing: the interval is set
    afterwards and runs with the viewer closed. *)
Lemma close_before_answer_leaves_timer :
  let st :=
    run false (Some Sample.carol) Sample.closeBeforeAnswer Sample.carolBar in
  showStoryViewer st = false /\ intervals st = [(1%nat, 1)].
Proof. cbv zeta. split; reflexivity. Qed.

End TimerClaims.

(* ===================================================================== *)
(** * Further properties of the handlers *)
(* ===================================================================== *)

(** ** Tables *)

Lemma update_length {R : Type} (key : R -> string) id patch (table : list R) :
  List.length (Store.update key id patch table) = List.length table.
Proof. apply length_map. Qed.

Lemma update_keys {R : Type} (key : R -> string) id patch (table : list R) :
  (forall r, key (patch r) = key r) ->
  map key (Store.update key id patch table) = map key table.
Proof.
  intros Hk. unfold Store.update. rewrite map_map. apply map_ext.
  intros r. destruct (key r =? id)%string; [apply Hk | reflexivity].
Qed.

Lemma update_In {R : Type} (key : R -> string) id patch (table : list R) y :
  In y (Store.update key id patch table)
  <-> exists r, In r table
                /\ y = if (key r =? id)%string then patch r else r.
Proof.
  unfold Store.update. rewrite in_map_iff. split.
  - intros (r & <- & Hr). now exists r.
  - intros (r & Hr & ->). now exists r.
Qed.

Lemma insert_asc_perm {R : Type} (k : R -> Z) (x : R) (l : list R) :
  Permutation (Store.insert_asc k x l) (x :: l).
Proof.
  induction l as [|y r IH]; simpl; [reflexivity|].
  destruct (k y <=? k x); [|reflexivity].
  rewrite IH. apply perm_swap.
Qed.

Lemma order_asc_perm {R : Type} (k : R -> Z) (l : list R) :
  Permutation (Store.order_asc k l) l.
Proof.
  unfold Store.order_asc.
  assert (G : forall acc,
    Permutation (fold_left (fun acc x => Store.insert_asc k x acc) l acc)
      (acc ++ l)).
  { induction l as [|x r IH]; intros acc; simpl.
    - now rewrite app_nil_r.
    - rewrite IH, insert_asc_perm. apply Permutation_middle. }
  apply (G []).
Qed.

Lemma insert_asc_sorted {R : Type} (k : R -> Z) (x : R) (l : list R) :
  StronglySorted (fun a b => k a <= k b) l ->
  StronglySorted (fun a b => k a <= k b) (Store.insert_asc k x l).
Proof.
  induction 1 as [|y r Hs IH Hy]; simpl.
  - repeat constructor.
  - destruct (k y <=? k x) eqn:E.
    + constructor; [exact IH|].
      apply Forall_forall. intros z Hz.
      apply insert_asc_In in Hz as [->|Hz].
      * now apply Z.leb_le.
      * rewrite Forall_forall in Hy. now apply Hy.
    + apply Z.leb_gt in E. constructor; [now constructor|].
      constructor; [lia|].
      rewrite Forall_forall in *. intros z Hz. specialize (Hy z Hz). lia.
Qed.

Lemma order_asc_sorted {R : Type} (k : R -> Z) (l : list R) :
  StronglySorted (fun a b => k a <= k b) (Store.order_asc k l).
Proof.
  unfold Store.order_asc.
  assert (G : forall acc,
    StronglySorted (fun a b => k a <= k b) acc ->
    StronglySorted (fun a b => k a <= k b)
      (fold_left (fun acc x => Store.insert_asc k x acc) l acc)).
  { induction l as [|x r IH]; intros acc Hacc; simpl; [exact Hacc|].
    apply IH. now apply insert_asc_sorted. }
  apply G. constructor.
Qed.

Lemma order_desc_sorted {R : Type} (k : R -> Z) (l : list R) :
  StronglySorted (fun a b => k b <= k a) (Store.order_desc k l).
Proof.
  unfold Store.order_desc.
  pose proof (order_asc_sorted (fun r => - k r) l) as H.
  induction H as [|y r Hs IH Hy]; constructor; [exact IH|].
  rewrite Forall_forall in *. intros z Hz. specialize (Hy z Hz). lia.
Qed.

Lemma order_desc_perm {R : Type} (k : R -> Z) (l : list R) :
  Permutation (Store.order_desc k l) l.
Proof. apply order_asc_perm. Qed.

Lemma sorted_map {A B : Type} (f : A -> B) (P : B -> B -> Prop)
    (l : list A) :
  StronglySorted (fun a b => P (f a) (f b)) l -> StronglySorted P (map f l).
Proof.
  induction 1 as [|y r Hs IH Hy]; simpl; constructor; [exact IH|].
  rewrite Forall_forall in *. intros z Hz.
  apply in_map_iff in Hz as (a & <- & Ha). now apply Hy.
Qed.

Lemma sorted_filter {A : Type} (P : A -> A -> Prop) (p : A -> bool)
    (l : list A) :
  StronglySorted P l -> StronglySorted P (filter p l).
Proof.
  induction 1 as [|y r Hs IH Hy]; simpl; [constructor|].
  destruct (p y); [|exact IH]. constructor; [exact IH|].
  rewrite Forall_forall in *. intros z Hz.
  apply filter_In in Hz as [Hz _]. now apply Hy.
Qed.

(** ** Groups and the chat list *)

Section DirectoryMore.

Import Directory.

Lemma db_loadChats cu st : db (loadChats cu st) = db st.
Proof. destruct cu; reflexivity. Qed.

Lemma limit1_head {R : Type} (p : R -> bool) (table : list R) r rest :
  Store.limit 1 (Store.list_where p table) = r :: rest ->
  In r table /\ p r = true.
Proof.
  unfold Store.limit, Store.list_where. intros H.
  destruct (filter p table) as [|x l] eqn:E; [discriminate|].
  simpl in H. injection H as <- _.
  apply filter_In. rewrite E. now left.
Qed.

Lemma limit1_nil {R : Type} (p : R -> bool) (table : list R) :
  Store.limit 1 (Store.list_where p table) = [] ->
  forall r, In r table -> p r = false.
Proof.
  unfold Store.limit, Store.list_where. intros H r Hr.
  destruct (p r) eqn:E; [|reflexivity].
  assert (Hin : In r (filter p table)) by (apply filter_In; now split).
  destruct (filter p table); [contradiction | discriminate].
Qed.

Lemma loadChats_lists (cu : User) (st : State) (c : string) :
  participates (Store.chatParticipants (db st)) c (user_id cu) ->
  (exists chat, In chat (Store.chats (db st)) /\ chat_id chat = c) ->
  In c (map cv_id (sidebarChats (loadChats (Some cu) st))).
Proof.
  intros (p & Hp & Hc & Hu) (chat & Hchat & Hid).
  unfold loadChats. cbn [sidebarChats]. rewrite in_map_iff.
  destruct (Store.limit 1
              (Store.list_where
                 (fun x => (chat_id x =? cp_chatId p)%string)
                 (Store.chats (db st)))) as [|chatData l] eqn:E.
  - pose proof (limit1_nil _ _ E chat Hchat) as Hf.
    apply String.eqb_neq in Hf. congruence.
  - pose proof (limit1_head _ _ _ _ E) as [Hin Heq].
    apply String.eqb_eq in Heq. eexists. split.
    2:{ apply in_flat_map. exists p. split.
        - apply order_desc_In. unfold Store.list_where.
          apply filter_In. split; [exact Hp | now apply String.eqb_eq].
        - rewrite E. left. reflexivity. }
    cbn [cv_id]. congruence.
Qed.

(** [loadChats] only reads the store, and the chat list it builds holds
    the ids of exactly the chats that the user has a membership in and
    that have a row in the chats table. *)
Theorem loadChats_lists_member_chats (cu : User) (st : State) (c : string) :
  db (loadChats (Some cu) st) = db st
  /\ (In c (map cv_id (sidebarChats (loadChats (Some cu) st)))
      <-> participates (Store.chatParticipants (db st)) c (user_id cu)
          /\ exists chat, In chat (Store.chats (db st)) /\ chat_id chat = c).
Proof.
  split; [reflexivity|]. split.
  - unfold loadChats. cbn [sidebarChats]. rewrite in_map_iff.
    intros (v & <- & Hv). apply in_flat_map in Hv as (p & Hp & Hv).
    apply order_desc_In in Hp. unfold Store.list_where in Hp.
    apply filter_In in Hp as [Hp Hu]. apply String.eqb_eq in Hu.
    destruct (Store.limit 1 _) as [|chatData l] eqn:E in Hv; [destruct Hv|].
    apply limit1_head in E as [Hin Hid]. apply String.eqb_eq in Hid.
    destruct Hv as [<-|[]]. cbn [cv_id]. split.
    + exists p. repeat split; [exact Hp | now rewrite Hid | exact Hu].
    + now exists chatData.
  - intros [Hp Hchat]. now apply loadChats_lists.
Qed.

Lemma loadChats_lists_member_chats_witness :
  let st := snd (handleCreateGroup (Some Sample.alice) 7
                   (Sample.groupDialog "team" ["u_bob"; "u_carol"])) in
  participates (Store.chatParticipants (db st)) "chat_group_7" "u_bob"
  /\ In "chat_group_7"
       (map cv_id (sidebarChats (loadChats (Some Sample.bob) st)))
  /\ ~ In "chat_group_8"
         (map cv_id (sidebarChats (loadChats (Some Sample.bob) st))).
Proof.
  cbv zeta.
  set (st := snd (handleCreateGroup (Some Sample.alice) 7
                    (Sample.groupDialog "team" ["u_bob"; "u_carol"]))).
  assert (Hp : participates (Store.chatParticipants (db st))
                 "chat_group_7" "u_bob").
  { eexists. split; [right; left; reflexivity|]. split; reflexivity. }
  split; [exact Hp|]. split.
  - apply (proj2 (proj2 (loadChats_lists_member_chats Sample.bob st
                           "chat_group_7"))).
    split; [exact Hp|].
    eexists. split; [left; reflexivity | reflexivity].
  - intros H.
    apply (proj1 (proj2 (loadChats_lists_member_chats Sample.bob st
                           "chat_group_8"))) in H.
    destruct H as [_ (chat & [<-|[]] & Hid)]. discriminate.
Defined.

Lemma fold_addMember cu groupId chatId now members :
  forall d,
    let d' := fold_left (addMember cu groupId chatId now) members d in
    Store.chatParticipants d'
    = Store.chatParticipants d
      ++ map (fun u => participantRow chatId u now) members
    /\ Store.groupMembers d'
       = Store.groupMembers d
         ++ map (fun u =>
                   {| gm_id := Js.template ["gm_"; groupId; "_"; u];
                      gm_groupId := groupId; gm_userId := u;
                      gm_role := if (u =? user_id cu)%string
                                 then admin else member;
                      gm_joinedAt := now |}) members
    /\ Store.chats d' = Store.chats d
    /\ Store.groups d' = Store.groups d
    /\ Store.messages d' = Store.messages d
    /\ Store.users d' = Store.users d.
Proof.
  induction members as [|u r IH]; intros d; cbn [fold_left map].
  - rewrite !app_nil_r. repeat split.
  - destruct (IH (addMember cu groupId chatId now d u))
      as (H1 & H2 & H3 & H4 & H5 & H6).
    cbv zeta. rewrite H1, H2, H3, H4, H5, H6.
    unfold addMember, Store.create.
    cbn [Store.chatParticipants Store.groupMembers Store.chats Store.groups
         Store.messages Store.users Store.set_groupMembers
         Store.set_chatParticipants].
    rewrite <- !app_assoc. repeat split.
Qed.

Lemma handleCreateGroup_passes_guard (name : string) (members : list string) :
  Js.truthy (Js.trim name) = true -> members <> [] ->
  negb (Js.truthy (Js.trim name)) || (Js.len members =? 0) = false.
Proof.
  intros -> Hm. cbn [negb orb].
  destruct (Js.len members =? 0) eqn:E; [|reflexivity].
  apply len_zero_iff in E. contradiction.
Qed.

Lemma handleCreateGroup_participants (cu : User) (now : Z) (st : State) :
  Js.truthy (Js.trim (groupName st)) = true ->
  selectedUsers st <> [] ->
  Store.chatParticipants (db (snd (handleCreateGroup (Some cu) now st)))
  = Store.chatParticipants (db st)
    ++ map (fun u =>
              participantRow
                (Js.template
                   ["chat_"; Js.template ["group_"; Js.num_to_string now]])
                u now)
         (user_id cu :: selectedUsers st).
Proof.
  intros Hname Hmembers. unfold handleCreateGroup.
  rewrite (handleCreateGroup_passes_guard _ _ Hname Hmembers).
  cbn [snd handleChatSelect db]. rewrite db_loadChats.
  cbn [db Store.chatParticipants Store.set_messages].
  now rewrite (proj1 (fold_addMember cu _ _ now _ _)).
Qed.

(** With a name that is not blank and at least one member selected,
    [handleCreateGroup] appends one group, one chat of type group with the
    name, a member row and a chat membership for the creator and then for
    every selected user in the order of selection (the creator as admin,
    the others as members), and one welcome message of the creator; it
    selects the new chat and clears the dialog. *)
Theorem handleCreateGroup_builds_roster (cu : User) (now : Z) (st : State) :
  Js.truthy (Js.trim (groupName st)) = true ->
  selectedUsers st <> [] ->
  let groupId := Js.template ["group_"; Js.num_to_string now] in
  let chatId := Js.template ["chat_"; groupId] in
  let roster := user_id cu :: selectedUsers st in
  let r := handleCreateGroup (Some cu) now st in
  fst r = Resolved
  /\ selectedChatId (snd r) = Some chatId
  /\ groupName (snd r) = EmptyString /\ selectedUsers (snd r) = []
  /\ showNewGroupDialog (snd r) = false
  /\ (exists g, Store.groups (db (snd r)) = Store.groups (db st) ++ [g]
                /\ group_id g = groupId /\ group_name g = groupName st
                /\ group_createdBy g = user_id cu)
  /\ (exists chat, Store.chats (db (snd r)) = Store.chats (db st) ++ [chat]
                   /\ chat_id chat = chatId /\ chat_type chat = group
                   /\ chat_name chat = Some (groupName st))
  /\ Store.chatParticipants (db (snd r))
     = Store.chatParticipants (db st)
       ++ map (fun u => participantRow chatId u now) roster
  /\ map (fun m => (gm_groupId m, gm_userId m, gm_role m))
       (Store.groupMembers (db (snd r)))
     = map (fun m => (gm_groupId m, gm_userId m, gm_role m))
         (Store.groupMembers (db st))
       ++ map (fun u => (groupId, u,
                         if (u =? user_id cu)%string then admin else member))
            roster
  /\ (exists m, Store.messages (db (snd r)) = Store.messages (db st) ++ [m]
                /\ msg_chatId m = chatId /\ msg_senderId m = user_id cu)
  /\ In chatId (map cv_id (sidebarChats (snd r))).
Proof.
  intros Hname Hmembers groupId chatId roster r. subst r.
  unfold handleCreateGroup.
  rewrite (handleCreateGroup_passes_guard _ _ Hname Hmembers).
  fold groupId. fold chatId. fold roster.
  set (d2 := Store.set_chats _ _).
  destruct (fold_addMember cu groupId chatId now roster d2)
    as (H1 & H2 & H3 & H4 & H5 & H6).
  cbv zeta in H1, H2, H3, H4, H5, H6.
  set (d3 := fold_left (addMember cu groupId chatId now) roster d2) in *.
  cbn [fst snd].
  assert (Hdb : forall st1, db (handleChatSelect chatId
                                  (loadChats (Some cu) st1)) = db st1)
    by reflexivity.
  split; [reflexivity|]. split; [reflexivity|].
  split; [reflexivity|]. split; [reflexivity|]. split; [reflexivity|].
  rewrite Hdb. cbn [db Store.groups Store.chats Store.chatParticipants
                    Store.groupMembers Store.messages Store.set_messages].
  rewrite H1, H2, H3, H4, H5.
  subst d2. cbn [Store.groups Store.chats Store.chatParticipants
                 Store.groupMembers Store.messages Store.set_chats
                 Store.set_groups]. unfold Store.create.
  split; [eexists; split; [reflexivity|]; repeat split|].
  split; [eexists; split; [reflexivity|]; repeat split|].
  split; [reflexivity|].
  split.
  { rewrite map_app, map_map. reflexivity. }
  split; [eexists; split; [reflexivity|]; repeat split|].
  cbn [handleChatSelect sidebarChats].
  apply loadChats_lists;
    cbn [db Store.chatParticipants Store.chats Store.set_messages]; fold d3.
  - rewrite H1. exists (participantRow chatId (user_id cu) now). split.
    + apply in_or_app. right. now left.
    + split; reflexivity.
  - rewrite H3.
    eexists. split; [apply in_or_app; right; now left | reflexivity].
Qed.

Lemma handleCreateGroup_builds_roster_witness :
  let r := handleCreateGroup (Some Sample.alice) 7
             (Sample.groupDialog "team" ["u_bob"; "u_carol"]) in
  Js.truthy (Js.trim "team") = true
  /\ ["u_bob"; "u_carol"] <> []
  /\ map cp_userId (Store.chatParticipants (db (snd r)))
     = ["u_alice"; "u_bob"; "u_carol"]
  /\ selectedChatId (snd r) = Some "chat_group_7".
Proof.
  cbv zeta.
  assert (H1 : Js.truthy (Js.trim "team") = true) by reflexivity.
  assert (H2 : ["u_bob"; "u_carol"] <> []) by discriminate.
  destruct (handleCreateGroup_builds_roster Sample.alice 7
              (Sample.groupDialog "team" ["u_bob"; "u_carol"]) H1 H2)
    as (_ & Hsel & _ & _ & _ & _ & _ & Hp & _).
  split; [exact H1|]. split; [exact H2|].
  split; [rewrite Hp; reflexivity | exact Hsel].
Defined.

End DirectoryMore.

Section GroupThenChat.

Import Directory.

(** After a group has been created, a chat request between the creator and
    any of its members, in either direction, selects a conversation both
    belong to and writes nothing: no individual chat is created for a pair
    that is together in a group. *)
Theorem chat_request_after_group_creates_nothing
    (A B : User) (t1 t2 : Z) (st : State) :
  Js.truthy (Js.trim (groupName st)) = true ->
  In (user_id B) (selectedUsers st) ->
  let st1 := snd (handleCreateGroup (Some A) t1 st) in
  forall (X Y : User),
    (X = A /\ Y = B) \/ (X = B /\ Y = A) ->
    let st2 := resolveOrCreateIndividual X Y t2 st1 in
    db st2 = db st1
    /\ exists c,
         selectedChatId st2 = Some c
         /\ participates (Store.chatParticipants (db st1)) c (user_id A)
         /\ participates (Store.chatParticipants (db st1)) c (user_id B).
Proof.
  intros Hname HB st1 X Y HXY st2.
  assert (Hmembers : selectedUsers st <> [])
    by (intros E; rewrite E in HB; destruct HB).
  pose proof (handleCreateGroup_participants A t1 st Hname Hmembers) as Hp.
  fold st1 in Hp.
  set (chatId := Js.template
                   ["chat_"; Js.template ["group_"; Js.num_to_string t1]])
    in Hp.
  assert (HA : participates (Store.chatParticipants (db st1)) chatId
                 (user_id A)).
  { exists (participantRow chatId (user_id A) t1). rewrite Hp. split.
    - apply in_or_app. right. now left.
    - split; reflexivity. }
  assert (HBp : participates (Store.chatParticipants (db st1)) chatId
                  (user_id B)).
  { exists (participantRow chatId (user_id B) t1). rewrite Hp. split.
    - apply in_or_app. right. right.
      apply in_map_iff. now exists (user_id B).
    - split; reflexivity. }
  subst st2.
  destruct (firstShared X Y (db st1)) as [c|] eqn:E.
  - rewrite (resolve_found _ _ _ _ _ E). split; [reflexivity|].
    exists c. split; [reflexivity|].
    apply firstShared_some in E.
    destruct HXY as [[-> ->]|[-> ->]]; tauto.
  - exfalso. rewrite firstShared_none in E. apply (E chatId).
    destruct HXY as [[-> ->]|[-> ->]]; now split.
Qed.

Lemma chat_request_after_group_creates_nothing_witness :
  let st1 := snd (handleCreateGroup (Some Sample.alice) 7
                    (Sample.groupDialog "team" ["u_bob"; "u_carol"])) in
  Js.truthy (Js.trim "team") = true
  /\ In "u_carol" ["u_bob"; "u_carol"]
  /\ db (resolveOrCreateIndividual Sample.carol Sample.alice 9 st1) = db st1.
Proof.
  cbv zeta.
  assert (H1 : Js.truthy (Js.trim "team") = true) by reflexivity.
  assert (H2 : In "u_carol" ["u_bob"; "u_carol"]) by (right; now left).
  split; [exact H1|]. split; [exact H2|].
  exact (proj1
    (chat_request_after_group_creates_nothing Sample.alice Sample.carol 7 9
       (Sample.groupDialog "team" ["u_bob"; "u_carol"]) H1 H2
       Sample.carol Sample.alice (or_intror (conj eq_refl eq_refl)))).
Defined.

End GroupThenChat.

(** ** Sending, replying, starring, listing *)

Section PipelineMore.

Import Pipeline.

Lemma row_withSender d r : row (withSender d r) = r.
Proof. reflexivity. Qed.

Lemma rows_of_loadMessages (chatId : string) (st : State) :
  Js.truthy chatId = true ->
  map row (messages (loadMessages (Some chatId) st))
  = Store.order_asc msg_createdAt
      (Store.list_where (fun m => (msg_chatId m =? chatId)%string)
         (Store.messages (db st))).
Proof.
  intros Hc. unfold loadMessages. cbn [present]. rewrite Hc.
  cbn [setMessages messages]. rewrite map_map.
  erewrite map_ext; [apply map_id|]. intros r. apply row_withSender.
Qed.

(** [sendMessage] does nothing at all - no message shown, nothing stored,
    the input kept - when the body is blank, when no chat is selected or
    when nobody is signed in, whatever the store would answer. *)
Theorem sendMessage_blocked
    (currentUser : option User) (selectedChatId : option string)
    (idTime now : Z) (createOk updateOk : bool) (st : State) :
  forallb Js.isWhiteSpace (list_ascii_of_string (newMessage st)) = true
  \/ present selectedChatId = false
  \/ currentUser = None ->
  sendMessage currentUser selectedChatId idTime now createOk updateOk st = st.
Proof.
  intros H. unfold sendMessage.
  destruct currentUser as [cu|]; [|reflexivity].
  destruct selectedChatId as [chatId|]; [|reflexivity].
  destruct H as [H|[H|H]]; [| |discriminate].
  - apply falsy_trim_iff in H. now rewrite H.
  - cbn [present] in H. rewrite H. cbn [negb]. now rewrite orb_true_r.
Qed.

Lemma sendMessage_blocked_witness :
  (forallb Js.isWhiteSpace (list_ascii_of_string "   ") = true
   \/ present (Some "c1") = false \/ Some Sample.bob = None)
  /\ sendMessage (Some Sample.bob) (Some "c1") 5 6 true true
       (Sample.chatArea Sample.chatWithHello [Sample.helloShown] "   ")
     = Sample.chatArea Sample.chatWithHello [Sample.helloShown] "   ".
Proof.
  split; [left; reflexivity|].
  apply (sendMessage_blocked (Some Sample.bob) (Some "c1") 5 6 true true
           (Sample.chatArea Sample.chatWithHello [Sample.helloShown] "   ")).
  left. reflexivity.
Defined.

(** Reply, then send: the message sent after the Reply action carries the
    id of the message replied to, in the list shown (together with the
    quoted message) and in the store, and the reply context is cleared, so
    that the next message is no reply. *)
Theorem reply_then_send
    (cu : User) (chatId : string) (idTime now : Z) (storeOk : bool)
    (M : Message) (st : State) :
  Js.truthy (Js.trim (newMessage st)) = true ->
  Js.truthy chatId = true ->
  let st1 := snd (handleMessageAction (Some chatId) storeOk "reply" M st) in
  let st2 := sendMessage (Some cu) (Some chatId) idTime now true true st1 in
  replyToMessage st1 = Some M
  /\ replyToMessage st2 = None
  /\ exists m r,
       messages st2 = messages st ++ [m]
       /\ msg_replyToMessageId (row m) = Some (id M)
       /\ quoted m = Some M
       /\ Store.messages (db st2) = Store.messages (db st) ++ [r]
       /\ msg_replyToMessageId r = Some (id M)
       /\ msg_id r = id m.
Proof.
  intros Hbody Hchat st1 st2. subst st2 st1.
  cbn [handleMessageAction String.eqb Ascii.eqb Bool.eqb snd].
  split; [reflexivity|].
  unfold sendMessage.
  cbn [newMessage setSelectedMessage setReplyToMessage].
  rewrite (sendMessage_passes_guard _ _ Hbody Hchat).
  split; [reflexivity|].
  eexists. eexists. repeat split.
Qed.

Lemma reply_then_send_witness :
  let st := Sample.chatArea Sample.chatWithHello [Sample.helloShown]
              "fine, thanks" in
  let st1 := snd (handleMessageAction (Some "c1") true "reply"
                    Sample.helloShown st) in
  let st2 := sendMessage (Some Sample.bob) (Some "c1") 1700000000500
               1700000000501 true true st1 in
  Js.truthy (Js.trim (newMessage st)) = true
  /\ Js.truthy "c1" = true
  /\ map msg_replyToMessageId (Store.messages (db st2))
     = [None; Some "msg_1700000000000"]
  /\ replyToMessage st2 = None.
Proof.
  cbv zeta.
  destruct (reply_then_send Sample.bob "c1" 1700000000500 1700000000501 true
              Sample.helloShown
              (Sample.chatArea Sample.chatWithHello [Sample.helloShown]
                 "fine, thanks") eq_refl eq_refl)
    as (_ & Hnone & _).
  split; [reflexivity|]. split; [reflexivity|].
  split; [reflexivity | exact Hnone].
Defined.

Lemma setStarred_same b r : msg_isStarred r = b -> setStarred b r = r.
Proof. intros <-. destruct r; reflexivity. Qed.

(** Star is a toggle on the store when the message shown agrees with the
    store: starring a message and starring it again, from the message as
    it is shown in between, leaves the table of messages exactly as it
    was.  Neither step checks who the current user is. *)
Theorem star_twice_restores
    (chatId : string) (M M' : Message) (st : State) :
  (forall r, In r (Store.messages (db st)) -> msg_id r = id M ->
             msg_isStarred r = msg_isStarred (row M)) ->
  id M' = id M ->
  msg_isStarred (row M') = negb (msg_isStarred (row M)) ->
  let r1 := handleMessageAction (Some chatId) true "star" M st in
  let r2 := handleMessageAction (Some chatId) true "star" M' (snd r1) in
  fst r1 = Resolved /\ fst r2 = Resolved
  /\ Store.messages (db (snd r1))
     = Store.update msg_id (id M)
         (setStarred (negb (msg_isStarred (row M))))
         (Store.messages (db st))
  /\ Store.messages (db (snd r2)) = Store.messages (db st).
Proof.
  intros Hagree Hid Hflag r1 r2. subst r2 r1.
  cbn [handleMessageAction String.eqb Ascii.eqb Bool.eqb fst snd].
  cbn [setSelectedMessage db]. rewrite !db_loadMessages.
  cbn [with_db db Store.messages Store.set_messages].
  split; [reflexivity|]. split; [reflexivity|]. split; [reflexivity|].
  rewrite Hid, Hflag, negb_involutive.
  unfold Store.update. rewrite map_map.
  erewrite map_ext_in; [apply map_id|].
  intros r Hr. destruct (msg_id r =? id M)%string eqn:E.
  - cbn [setStarred msg_id]. rewrite E.
    apply String.eqb_eq in E.
    specialize (Hagree r Hr E). destruct r; cbn in *. now subst.
  - now rewrite E.
Qed.

Lemma star_twice_restores_witness :
  let st := Sample.chatArea Sample.chatWithHello [Sample.helloShown]
              EmptyString in
  let r1 := handleMessageAction (Some "c1") true "star" Sample.helloShown
              st in
  map msg_isStarred (Store.messages (db (snd r1))) = [true]
  /\ exists M',
       messages (snd r1) = [M']
       /\ Store.messages
            (db (snd (handleMessageAction (Some "c1") true "star" M'
                        (snd r1))))
          = Store.messages (db st).
Proof.
  cbv zeta. split; [reflexivity|].
  eexists. split; [reflexivity|].
  apply (star_twice_restores "c1" Sample.helloShown _
           (Sample.chatArea Sample.chatWithHello [Sample.helloShown]
              EmptyString)).
  - intros r [<-|[]] _. reflexivity.
  - reflexivity.
  - reflexivity.
Defined.

(** The list [loadMessages] shows holds exactly the stored messages of the
    selected chat, each once per row, in ascending order of [createdAt];
    the store is only read. *)
Theorem loadMessages_sorted_listing (chatId : string) (st : State) :
  Js.truthy chatId = true ->
  let shown := map row (messages (loadMessages (Some chatId) st)) in
  Permutation shown
    (filter (fun m => (msg_chatId m =? chatId)%string)
       (Store.messages (db st)))
  /\ StronglySorted (fun a b => msg_createdAt a <= msg_createdAt b) shown
  /\ db (loadMessages (Some chatId) st) = db st.
Proof.
  intros Hc shown. subst shown. rewrite (rows_of_loadMessages _ _ Hc).
  split; [apply order_asc_perm|].
  split; [apply order_asc_sorted | apply db_loadMessages].
Qed.

Lemma loadMessages_sorted_listing_witness :
  Js.truthy "c1" = true
  /\ StronglySorted (fun a b => msg_createdAt a <= msg_createdAt b)
       (map row
          (messages
             (loadMessages (Some "c1")
                (Sample.chatArea Sample.chatWithHello [] EmptyString)))).
Proof.
  split; [reflexivity|].
  exact (proj1 (proj2
    (loadMessages_sorted_listing "c1"
       (Sample.chatArea Sample.chatWithHello [] EmptyString) eq_refl))).
Defined.

End PipelineMore.

Section PipelineEdges.

Import Pipeline.

Lemma listed_of_stored (chatId : string) (st : State) (r : MessageRow) :
  Js.truthy chatId = true ->
  In r (Store.messages (db st)) -> msg_chatId r = chatId ->
  In (withSender (db st) r) (messages (loadMessages (Some chatId) st)).
Proof.
  intros Hc Hr Hchat. unfold loadMessages. cbn [present]. rewrite Hc.
  cbn [setMessages messages]. apply in_map. apply order_asc_In.
  unfold Store.list_where. apply filter_In. split; [exact Hr|].
  now apply String.eqb_eq.
Qed.

Lemma quoted_of_missing d r rid :
  msg_replyToMessageId r = Some rid ->
  (forall x, In x (Store.messages d) -> msg_id x <> rid) ->
  quoted (withSender d r) = None.
Proof.
  intros Hrid Hgone. unfold withSender. cbn [quoted]. rewrite Hrid.
  destruct (present (Some rid)); [|reflexivity].
  destruct (Store.limit 1 _) as [|x l] eqn:E; [reflexivity|].
  apply limit1_head in E as [Hin Heq]. apply String.eqb_eq in Heq.
  exfalso. exact (Hgone x Hin Heq).
Qed.

(** Deleting a message that others replied to: the replies stay in the
    store and in the list, each with its [replyToMessageId] unchanged, and
    are shown without a quoted message; nothing fails on the dangling
    reference. *)
Theorem replies_survive_deletion_of_their_target
    (chatId : string) (M : Message) (st : State) (reply : MessageRow) :
  Js.truthy chatId = true ->
  In reply (Store.messages (db st)) ->
  msg_chatId reply = chatId ->
  msg_replyToMessageId reply = Some (id M) ->
  msg_id reply <> id M ->
  let r := handleMessageAction (Some chatId) true "delete" M st in
  fst r = Resolved
  /\ In reply (Store.messages (db (snd r)))
  /\ exists m,
       In m (messages (snd r)) /\ row m = reply /\ quoted m = None.
Proof.
  intros Hc Hin Hchat Hrid Hne r. subst r.
  rewrite handleMessageAction_delete. cbn [fst snd].
  set (d := Store.set_messages (db st)
              (Store.delete msg_id (id M) (Store.messages (db st)))).
  assert (Hstill : In reply (Store.messages d)).
  { unfold d, Store.delete. cbn [Store.messages Store.set_messages].
    apply filter_In. split; [exact Hin|].
    now apply negb_true_iff, String.eqb_neq. }
  split; [reflexivity|]. split.
  - cbn [setSelectedMessage db]. now rewrite db_loadMessages.
  - exists (withSender d reply). split; [|split; [reflexivity|]].
    + cbn [setSelectedMessage messages].
      apply (listed_of_stored chatId (with_db st d) reply Hc Hstill Hchat).
    + apply (quoted_of_missing d reply (id M) Hrid).
      intros x Hx. unfold d in Hx.
      cbn [Store.messages Store.set_messages] in Hx.
      now apply delete_removes_id in Hx.
Qed.

(** When [blink.db.chats.update] throws after the message has been stored,
    the message disappears from the list shown although it is in the
    store; the next [loadMessages] shows it again. *)
Theorem stored_message_hidden_until_reload
    (cu : User) (chatId : string) (idTime now : Z) (st : State) :
  Js.truthy (Js.trim (newMessage st)) = true ->
  Js.truthy chatId = true ->
  (forall m, In m (messages st) ->
     id m <> Js.template ["msg_"; Js.num_to_string idTime]) ->
  let messageId := Js.template ["msg_"; Js.num_to_string idTime] in
  let st' := sendMessage (Some cu) (Some chatId) idTime now true false st in
  messages st' = messages st
  /\ (exists r, In r (Store.messages (db st')) /\ msg_id r = messageId)
  /\ exists m,
       In m (messages (loadMessages (Some chatId) st'))
       /\ id m = messageId /\ msg_content (row m) = newMessage st.
Proof.
  intros Hbody Hchat Hfresh messageId st'. subst st'. unfold sendMessage.
  rewrite (sendMessage_passes_guard _ _ Hbody Hchat).
  fold messageId.
  set (stored := {| msg_id := messageId; msg_chatId := chatId;
                    msg_senderId := user_id cu;
                    msg_content := newMessage st;
                    msg_messageType := text; msg_fileUrl := None;
                    msg_replyToMessageId :=
                      option_map id (replyToMessage st);
                    msg_isForwarded := false; msg_isStarred := false;
                    msg_createdAt := now; msg_updatedAt := Some now |}).
  cbn [setMessages db messages with_db].
  assert (Hin : In stored
                  (Store.messages
                     (Store.set_messages (db st)
                        (Store.create stored (Store.messages (db st)))))).
  { cbn [Store.messages Store.set_messages]. unfold Store.create.
    apply in_or_app. right. now left. }
  split; [|split].
  - rewrite filter_app. cbn [filter id row msg_id].
    rewrite String.eqb_refl. cbn [negb]. rewrite app_nil_r.
    apply filter_same_iff. intros m Hm.
    apply negb_true_iff, String.eqb_neq. now apply Hfresh.
  - exists stored. split; [exact Hin | reflexivity].
  - eexists. split.
    + apply (listed_of_stored chatId _ stored Hchat); [exact Hin|].
      reflexivity.
    + split; reflexivity.
Qed.

Lemma stored_message_hidden_until_reload_witness :
  let st := Sample.chatArea Sample.chatWithHello [Sample.helloShown]
              "how are you?" in
  let st' := sendMessage (Some Sample.bob) (Some "c1") 1700000000500
               1700000000501 true false st in
  Js.truthy (Js.trim (newMessage st)) = true
  /\ Js.truthy "c1" = true
  /\ messages st' = [Sample.helloShown]
  /\ List.length (Store.messages (db st')) = 2%nat.
Proof.
  cbv zeta.
  assert (Hfresh : forall m,
    In m (messages (Sample.chatArea Sample.chatWithHello [Sample.helloShown]
                      "how are you?")) ->
    id m <> Js.template ["msg_"; Js.num_to_string 1700000000500]).
  { intros m [<-|[]]. vm_compute. discriminate. }
  destruct (stored_message_hidden_until_reload Sample.bob "c1" 1700000000500
              1700000000501
              (Sample.chatArea Sample.chatWithHello [Sample.helloShown]
                 "how are you?") eq_refl eq_refl Hfresh) as (Hm & _).
  split; [reflexivity|]. split; [reflexivity|].
  split; [exact Hm | reflexivity].
Defined.

Lemma replies_survive_deletion_of_their_target_witness :
  let reply :=
    {| msg_id := "msg_1700000000500"; msg_chatId := "c1";
       msg_senderId := "u_bob"; msg_content := "fine";
       msg_messageType := text; msg_fileUrl := None;
       msg_replyToMessageId := Some "msg_1700000000000";
       msg_isForwarded := false; msg_isStarred := false;
       msg_createdAt := 1700000000501;
       msg_updatedAt := Some 1700000000501 |} in
  let st := Sample.chatArea
              (Store.set_messages Sample.chatWithHello [Sample.hello; reply])
              [] EmptyString in
  let r := handleMessageAction (Some "c1") true "delete" Sample.helloShown
             st in
  In reply (Store.messages (db st))
  /\ Store.messages (db (snd r)) = [reply]
  /\ exists m, In m (messages (snd r)) /\ row m = reply /\ quoted m = None.
Proof.
  cbv zeta.
  set (reply := {| msg_id := "msg_1700000000500"; msg_chatId := "c1";
       msg_senderId := "u_bob"; msg_content := "fine";
       msg_messageType := text; msg_fileUrl := None;
       msg_replyToMessageId := Some "msg_1700000000000";
       msg_isForwarded := false; msg_isStarred := false;
       msg_createdAt := 1700000000501;
       msg_updatedAt := Some 1700000000501 |}).
  assert (Hin : In reply
    (Store.messages
       (db (Sample.chatArea
              (Store.set_messages Sample.chatWithHello [Sample.hello; reply])
              [] EmptyString)))) by (right; now left).
  assert (Hne : msg_id reply <> id Sample.helloShown)
    by (vm_compute; discriminate).
  destruct (replies_survive_deletion_of_their_target "c1" Sample.helloShown
              (Sample.chatArea
                 (Store.set_messages Sample.chatWithHello
                    [Sample.hello; reply]) [] EmptyString)
              reply eq_refl Hin eq_refl eq_refl Hne) as (_ & _ & Hm).
  split; [exact Hin|]. split; [reflexivity | exact Hm].
Defined.

(** Reply, Copy and Download never write: whatever the store would answer,
    the promise resolves, and the store and the list of messages are as
    before.  Only Star and Delete reach the store. *)
Theorem only_star_and_delete_write
    (sel : option string) (storeOk : bool) (action : string) (M : Message)
    (st : State) :
  action <> "star" -> action <> "delete" ->
  let r := handleMessageAction sel storeOk action M st in
  fst r = Resolved /\ db (snd r) = db st /\ messages (snd r) = messages st
  /\ selectedMessage (snd r) = None.
Proof.
  intros Hs Hd r. subst r. unfold handleMessageAction.
  apply String.eqb_neq in Hs, Hd. rewrite Hs, Hd.
  destruct (action =? "reply")%string; [repeat split|].
  destruct (action =? "copy")%string; [repeat split|].
  destruct (action =? "download")%string; [|repeat split].
  destruct (msg_fileUrl (row M)) as [url|]; [|repeat split].
  destruct (Js.truthy url); repeat split.
Qed.

Lemma only_star_and_delete_write_witness :
  "download" <> "star" /\ "download" <> "delete"
  /\ db (snd (handleMessageAction (Some "c1") false "download"
                Sample.helloShown
                (Sample.chatArea Sample.chatWithHello [Sample.helloShown]
                   EmptyString)))
     = Sample.chatWithHello.
Proof.
  assert (H1 : "download" <> "star") by discriminate.
  assert (H2 : "download" <> "delete") by discriminate.
  split; [exact H1|]. split; [exact H2|].
  exact (proj1 (proj2
    (only_star_and_delete_write (Some "c1") false "download"
       Sample.helloShown
       (Sample.chatArea Sample.chatWithHello [Sample.helloShown] EmptyString)
       H1 H2))).
Defined.

End PipelineEdges.

Section Uploads.

Import Pipeline.

Lemma uploadOne_db cu chatId acc r :
  Store.messages (fst (uploadOne cu chatId acc r))
  = Store.messages (fst acc) ++ rowsOf cu chatId r
  /\ Store.chats (fst (uploadOne cu chatId acc r)) = Store.chats (fst acc)
  /\ snd (uploadOne cu chatId acc r)
     = (snd acc + (if delivered r then 1 else 0))%nat.
Proof.
  destruct acc as [d n]. unfold uploadOne, rowsOf, delivered.
  destruct (run_publicUrl r) as [u|]; cbn [fst snd];
    [|now rewrite app_nil_r, Nat.add_0_r].
  destruct (run_createOk r); cbn [fst snd];
    [|now rewrite app_nil_r, Nat.add_0_r].
  repeat split. now rewrite Nat.add_1_r.
Qed.

(** [handleFileUpload] handles the files one by one and a file that fails,
    at the upload or at the create, does not stop the ones after it: the
    stored messages grow by one row for each file whose upload and create
    complete, in the order of the files, each in the selected chat, from
    the current user, with the file name as its content, the public url,
    and the type read from the declared media type.  One reload is started
    for each such file and none for the others.  The chat rows stay as
    they are: unlike a sent text, a file does not stamp its chat.  Without
    a user or a chat nothing is written and no reload starts. *)
Theorem handleFileUpload_per_file
    (cu : User) (chatId : string) (runs : list UploadRun) (d : Store.Db) :
  Js.truthy chatId = true ->
  let (d', started) := handleFileUpload (Some cu) (Some chatId) runs d in
  Store.messages d' = Store.messages d ++ flat_map (rowsOf cu chatId) runs
  /\ List.length (Store.messages d')
     = (List.length (Store.messages d)
        + List.length (filter delivered runs))%nat
  /\ started = List.length (filter delivered runs)
  /\ Store.chats d' = Store.chats d
  /\ (forall row, In row (flat_map (rowsOf cu chatId) runs) ->
        msg_chatId row = chatId /\ msg_senderId row = user_id cu
        /\ exists r url,
             In r runs /\ run_publicUrl r = Some url
             /\ run_createOk r = true
             /\ msg_content row = upload_name (run_file r)
             /\ msg_fileUrl row = Some url
             /\ msg_messageType row
                = messageTypeOf (upload_type (run_file r)))
  /\ handleFileUpload None (Some chatId) runs d = (d, 0%nat)
  /\ handleFileUpload (Some cu) None runs d = (d, 0%nat).
Proof.
  intros Hc. unfold handleFileUpload. rewrite Hc.
  assert (Hfold : forall acc,
    let res := fold_left (uploadOne cu chatId) runs acc in
    Store.messages (fst res)
    = Store.messages (fst acc) ++ flat_map (rowsOf cu chatId) runs
    /\ Store.chats (fst res) = Store.chats (fst acc)
    /\ snd res = (snd acc + List.length (filter delivered runs))%nat).
  { induction runs as [|r rest IH]; intros acc; cbn [fold_left flat_map].
    - cbn [filter List.length]. now rewrite app_nil_r, Nat.add_0_r.
    - destruct (IH (uploadOne cu chatId acc r)) as (H1 & H2 & H3).
      destruct (uploadOne_db cu chatId acc r) as (E1 & E2 & E3).
      cbv zeta. rewrite H1, H2, H3, E1, E2, E3.
      repeat split; [now rewrite app_assoc|].
      cbn [filter]. destruct (delivered r); cbn [List.length]; lia. }
  assert (Hlen : List.length (flat_map (rowsOf cu chatId) runs)
                 = List.length (filter delivered runs)).
  { clear Hfold. induction runs as [|r rest IH]; [reflexivity|].
    cbn [flat_map filter]. rewrite length_app, IH.
    unfold rowsOf, delivered. destruct (run_publicUrl r); [|reflexivity].
    destruct (run_createOk r); reflexivity. }
  destruct (Hfold (d, 0%nat)) as (H1 & H2 & H3). cbn [fst snd] in *.
  destruct (fold_left (uploadOne cu chatId) runs (d, 0%nat)) as [d' started].
  cbn [fst snd] in *.
  split; [exact H1|]. split; [now rewrite H1, length_app, Hlen|].
  split; [exact H3|]. split; [exact H2|].
  split; [|split; reflexivity].
  intros row Hrow. apply in_flat_map in Hrow as (r & Hr & Hrow).
  unfold rowsOf in Hrow.
  destruct (run_publicUrl r) as [url|] eqn:Eu; [|contradiction].
  destruct (run_createOk r) eqn:Ec; [|contradiction].
  destruct Hrow as [<-|[]].
  split; [reflexivity|]. split; [reflexivity|].
  exists r, url. repeat split; assumption.
Qed.

(** Three files dropped on a chat with one message: the picture and the
    clip are stored after it, the document whose upload fails is not, and
    two reloads are started. *)
Lemma handleFileUpload_per_file_witness :
  Js.truthy "c1" = true
  /\ let (d', started) :=
       handleFileUpload (Some Sample.bob) (Some "c1") Sample.dropped
         Sample.chatWithHello in
     map (fun r => (msg_content r, msg_messageType r)) (Store.messages d')
     = [("hello", text); ("cat.png", image); ("clip.mp4", video)]
     /\ started = 2%nat.
Proof.
  split; [reflexivity|].
  pose proof (handleFileUpload_per_file Sample.bob "c1" Sample.dropped
                Sample.chatWithHello eq_refl) as H.
  destruct (handleFileUpload (Some Sample.bob) (Some "c1") Sample.dropped
              Sample.chatWithHello) as [d' started].
  destruct H as (Hrows & _ & Hstarted & _).
  split; [rewrite Hrows; reflexivity | exact Hstarted].
Defined.

End Uploads.

(** ** The story bar *)

Section StoryBar.

Import StoryEngine.

Lemma partition_perm {A : Type} (p : A -> bool) (l : list A) :
  Permutation (filter p l ++ filter (fun y => negb (p y)) l) l.
Proof.
  induction l as [|x r IH]; simpl; [reflexivity|].
  destruct (p x); simpl.
  - now constructor.
  - rewrite <- Permutation_middle. now constructor.
Qed.

(** [loadStories] splits the active stories in two: every story under
    "My Status" is the user's own, no story of the other circles is; the
    two lists together hold each stored story with [expiresAt > now] once
    per row, and each list runs from the newest story to the oldest.  The
    store is only read. *)
Theorem loadStories_partitions_active (cu : User) (now : Z) (st : State) :
  let st' := loadStories (Some cu) now st in
  (forall s, In s (myStories st') ->
     story_userId (story_row s) = user_id cu)
  /\ (forall s, In s (stories st') ->
        story_userId (story_row s) <> user_id cu)
  /\ Permutation (map story_row (myStories st' ++ stories st'))
       (filter (fun s => story_expiresAt s >? now) (Store.stories (db st)))
  /\ StronglySorted
       (fun a b => story_createdAt (story_row b)
                   <= story_createdAt (story_row a)) (myStories st')
  /\ StronglySorted
       (fun a b => story_createdAt (story_row b)
                   <= story_createdAt (story_row a)) (stories st')
  /\ db st' = db st.
Proof.
  cbv zeta. unfold loadStories. cbn [myStories stories db].
  set (active := Store.order_desc story_createdAt _).
  assert (Hsorted : StronglySorted
            (fun a b => story_createdAt (story_row b)
                        <= story_createdAt (story_row a))
            (map (withUserAndViews (db st)) active)).
  { pose proof (order_desc_sorted story_createdAt
                  (Store.list_where (fun s => story_expiresAt s >? now)
                     (Store.stories (db st)))) as H.
    fold active in H. clearbody active.
    induction H as [|y r Hs IH Hy]; simpl; constructor; [exact IH|].
    rewrite Forall_forall in *. intros z Hz.
    apply in_map_iff in Hz as (a & <- & Ha). cbn [story_row withUserAndViews].
    now apply Hy. }
  split; [|split; [|split; [|split; [|split]]]].
  - intros s Hs. apply filter_In in Hs as [_ Hs]. now apply String.eqb_eq.
  - intros s Hs. apply filter_In in Hs as [_ Hs].
    now apply negb_true_iff, String.eqb_neq in Hs.
  - rewrite partition_perm, map_map.
    erewrite map_ext; [rewrite map_id|reflexivity].
    apply order_desc_perm.
  - now apply sorted_filter.
  - now apply sorted_filter.
  - reflexivity.
Qed.

Lemma views_of_listed d r uid :
  viewsOf d (story_id r) uid <> [] ->
  existsb (fun view => (view_viewerId (view_row view) =? uid)%string)
    (views (withUserAndViews d r)) = true.
Proof.
  intros H. destruct (viewsOf d (story_id r) uid) as [|v l] eqn:E;
    [congruence|].
  assert (Hv : In v (viewsOf d (story_id r) uid)) by (rewrite E; now left).
  unfold viewsOf, Store.list_where in Hv.
  apply filter_In in Hv as [Hin Hv]. apply andb_true_iff in Hv as [Hs Hu].
  apply existsb_exists. eexists. split.
  - cbn [views withUserAndViews]. apply in_map.
    unfold Store.list_where. apply filter_In. split; [exact Hin | exact Hs].
  - exact Hu.
Qed.

(** Once a viewer other than the author has opened a story, every later
    listing shows that story with a view of the viewer, so a circle made
    of that story no longer counts as unseen. *)
Theorem viewed_story_is_seen
    (cu : User) (s : Story) (index now q : Z) (st : State) :
  story_userId (story_row s) <> user_id cu ->
  let st1 := handleViewStory (Some cu) now (Some s) index st in
  forall s',
    In s' (listActive (Some cu) q st1) ->
    story_id (story_row s') = story_id (story_row s) ->
    hasUnviewed (Some cu) [s'] = false.
Proof.
  intros Hne st1 s' Hin Hid.
  assert (Hviews : viewsOf (db st1) (story_id (story_row s)) (user_id cu)
                   <> []).
  { unfold st1. rewrite (handleViewStory_db _ _ _ _ _ Hne).
    rewrite markViewed_views.
    destruct (viewsOf (db st) _ _); discriminate. }
  unfold listActive in Hin.
  apply partition_In in Hin. apply in_map_iff in Hin as (r & <- & _).
  cbn [story_row withUserAndViews] in Hid.
  unfold hasUnviewed. cbn [existsb]. rewrite orb_false_r.
  apply negb_false_iff. apply views_of_listed. now rewrite Hid.
Qed.

Lemma viewed_story_is_seen_witness :
  let s := {| story_row := Sample.storyRow "story_100" "u_alice" 100;
              user := Some Sample.alice; views := [] |} in
  let st1 := handleViewStory (Some Sample.carol) 300 (Some s) 1
               Sample.carolBar in
  story_userId (story_row s) <> user_id Sample.carol
  /\ hasUnviewed (Some Sample.carol) [s] = true
  /\ forall s', In s' (listActive (Some Sample.carol) 400 st1) ->
       story_id (story_row s') = "story_100" ->
       hasUnviewed (Some Sample.carol) [s'] = false.
Proof.
  cbv zeta.
  assert (Hne : story_userId
                  (story_row
                     {| story_row := Sample.storyRow "story_100" "u_alice" 100;
                        user := Some Sample.alice; views := [] |})
                <> user_id Sample.carol) by (vm_compute; discriminate).
  split; [exact Hne|]. split; [reflexivity|].
  exact (viewed_story_is_seen Sample.carol
           {| story_row := Sample.storyRow "story_100" "u_alice" 100;
              user := Some Sample.alice; views := [] |} 1 300 400
           Sample.carolBar Hne).
Defined.

Lemma pushStory_entry (s : Story) (u : string) acc :
  entry u (pushStory s acc)
  = if (story_userId (story_row s) =? u)%string
    then Some (match entry u acc with
               | Some v => v ++ [s]
               | None => [s]
               end)
    else entry u acc.
Proof.
  induction acc as [|[k v] rest IH]; cbn [pushStory entry].
  - rewrite String.eqb_sym. destruct (u =? _)%string; reflexivity.
  - destruct (k =? story_userId (story_row s))%string eqn:E; cbn [entry].
    + apply String.eqb_eq in E. subst k.
      destruct (story_userId (story_row s) =? u)%string; reflexivity.
    + rewrite IH. destruct (k =? u)%string eqn:E2; [|reflexivity].
      apply String.eqb_eq in E2. subst k.
      rewrite String.eqb_sym in E. now rewrite E.
Qed.

Lemma groupTurn_thrown (others : list Story) :
  fold_left groupTurn others None = None.
Proof. induction others as [|s r IH]; [reflexivity | exact IH]. Qed.

Lemma groupTurn_fold (u : string) (others : list Story) :
  forall obj,
    match fold_left groupTurn others (Some obj) with
    | None =>
        exists s, In s others
                  /\ inheritedKey (story_userId (story_row s)) = true
    | Some groups =>
        (forall s, In s others ->
           inheritedKey (story_userId (story_row s)) = false)
        /\ entry u groups
           = match entry u obj,
                   filter (fun s => (story_userId (story_row s) =? u)%string)
                     others
             with
             | Some v, l => Some (v ++ l)
             | None, [] => None
             | None, l => Some l
             end
    end.
Proof.
  induction others as [|s r IH]; intros obj; cbn [fold_left filter].
  - split; [intros s []|].
    destruct (entry u obj); [now rewrite app_nil_r | reflexivity].
  - unfold groupTurn at 2.
    destruct (inheritedKey (story_userId (story_row s))) eqn:Ek.
    + rewrite groupTurn_thrown. exists s. split; [now left | assumption].
    + specialize (IH (pushStory s obj)).
      destruct (fold_left groupTurn r (Some (pushStory s obj)))
        as [groups|].
      * destruct IH as [Hkeys Hentry]. split.
        -- intros s' [<-|Hs']; [assumption | now apply Hkeys].
        -- rewrite Hentry, pushStory_entry.
           destruct (story_userId (story_row s) =? u)%string.
           ++ destruct (entry u obj); [now rewrite <- app_assoc | reflexivity].
           ++ reflexivity.
      * destruct IH as (s' & Hs' & Hk). exists s'. split; [now right|].
        assumption.
Qed.

(** [groupedStories] throws exactly when some author id among the others'
    stories is a name that a plain object inherits, such as [constructor]
    or [toString].  Otherwise every author with a story among the others'
    has exactly one own entry, holding that author's stories in the order
    of the list, and an id without a story has none. *)
Theorem groupedStories_entry (others : list Story) :
  match groupedStories others with
  | None =>
      exists s, In s others
                /\ inheritedKey (story_userId (story_row s)) = true
  | Some groups =>
      (forall s, In s others ->
         inheritedKey (story_userId (story_row s)) = false)
      /\ forall u,
           entry u groups
           = match filter
                     (fun s => (story_userId (story_row s) =? u)%string)
                     others
             with
             | [] => None
             | userStories => Some userStories
             end
  end.
Proof.
  unfold groupedStories.
  destruct (fold_left groupTurn others (Some [])) as [groups|] eqn:E.
  - split.
    + pose proof (groupTurn_fold EmptyString others []) as H.
      rewrite E in H. exact (proj1 H).
    + intros u. pose proof (groupTurn_fold u others []) as H.
      rewrite E in H. exact (proj2 H).
  - pose proof (groupTurn_fold EmptyString others []) as H.
    now rewrite E in H.
Qed.

(** Two circles for three stories of Alice and Bob; with a story whose
    author id is [constructor] in the list, no object is built. *)
Lemma groupedStories_entry_witness :
  (exists groups,
      groupedStories Sample.threeStories = Some groups
      /\ option_map (map (fun s => story_id (story_row s)))
           (entry "u_alice" groups)
         = Some ["story_300"; "story_100"]
      /\ entry "u_carol" groups = None)
  /\ groupedStories (Sample.threeStories ++ [Sample.oddStory]) = None.
Proof.
  split.
  - pose proof (groupedStories_entry Sample.threeStories) as H.
    destruct (groupedStories Sample.threeStories) as [groups|].
    + exists groups. destruct H as [_ H]. split; [reflexivity|].
      rewrite !H. split; reflexivity.
    + exfalso. destruct H as (s & Hs & Hk).
      destruct Hs as [<-|[<-|[<-|[]]]]; discriminate.
  - pose proof (groupedStories_entry
                  (Sample.threeStories ++ [Sample.oddStory])) as H.
    destruct (groupedStories (Sample.threeStories ++ [Sample.oddStory]))
      as [groups|]; [|reflexivity].
    exfalso. destruct H as [H _].
    specialize (H Sample.oddStory
                  (or_intror (or_intror (or_intror (or_introl eq_refl))))).
    discriminate.
Defined.

End StoryBar.

(** ** The viewer and its index *)

Section ViewerIndex.

Import StoryEngine.

Lemma index_in_range {A : Type} (l : list A) (i : Z) :
  0 <= i < Js.len l -> exists x, Js.index l i = Some x.
Proof.
  unfold Js.index, Js.len. intros [H0 H1].
  destruct (i <? 0) eqn:E; [apply Z.ltb_lt in E; lia|].
  destruct (nth_error l (Z.to_nat i)) as [x|] eqn:N; [now exists x|].
  apply nth_error_None in N. lia.
Qed.

Lemma index_app_right {A : Type} (l1 l2 : list A) (k : Z) :
  0 <= k -> Js.index (l1 ++ l2) (Js.len l1 + k) = Js.index l2 k.
Proof.
  unfold Js.index, Js.len. intros Hk.
  destruct (Z.of_nat (List.length l1) + k <? 0) eqn:E1;
    [apply Z.ltb_lt in E1; lia|].
  destruct (k <? 0) eqn:E2; [apply Z.ltb_lt in E2; lia|].
  rewrite nth_error_app2 by lia. f_equal. lia.
Qed.

Lemma index_app_left {A : Type} (l1 l2 : list A) (k : Z) :
  0 <= k < Js.len l1 -> Js.index (l1 ++ l2) k = Js.index l1 k.
Proof.
  unfold Js.index, Js.len. intros Hk.
  destruct (k <? 0); [reflexivity|].
  apply nth_error_app1. lia.
Qed.

Lemma len_app {A : Type} (l1 l2 : list A) :
  Js.len (l1 ++ l2) = Js.len l1 + Js.len l2.
Proof. unfold Js.len. rewrite length_app. lia. Qed.

(** [findIndex] is the position of the first story of the group. *)
Lemma findIndex_first (u : string) (l : list Story) :
  (exists s, In s l /\ story_userId (story_row s) = u) ->
  forall from,
    from <= findIndex u l from < from + Js.len l
    /\ Js.index l (findIndex u l from - from)
       = Js.index
           (filter (fun s => (story_userId (story_row s) =? u)%string) l) 0.
Proof.
  induction l as [|x r IH]; intros (s & Hs & Hu) from; [destruct Hs|].
  cbn [findIndex filter].
  destruct (story_userId (story_row x) =? u)%string eqn:E.
  - split; [unfold Js.len; cbn [List.length]; lia|].
    now rewrite Z.sub_diag.
  - assert (Hex : exists s, In s r /\ story_userId (story_row s) = u).
    { destruct Hs as [<-|Hs]; [|now exists s].
      apply String.eqb_neq in E. contradiction. }
    destruct (IH Hex (from + 1)) as [Hr Hi]. split.
    + unfold Js.len in *. cbn [List.length]. lia.
    + rewrite <- Hi. unfold Js.index.
      destruct (findIndex u r (from + 1) - from <? 0) eqn:E1;
        [apply Z.ltb_lt in E1; lia|].
      destruct (findIndex u r (from + 1) - (from + 1) <? 0) eqn:E2;
        [apply Z.ltb_lt in E2; lia|].
      replace (Z.to_nat (findIndex u r (from + 1) - from))
        with (S (Z.to_nat (findIndex u r (from + 1) - (from + 1))))
        by lia.
      reflexivity.
Qed.

Lemma remove_nth_In {A : Type} (k : nat) (l : list A) (x : A) :
  In x (remove_nth k l) -> In x l.
Proof.
  revert k. induction l as [|y r IH]; intros k H.
  - destruct k; destruct H.
  - destruct k; cbn [remove_nth] in H; [now right|].
    destruct H as [<-|H]; [now left | right; eauto].
Qed.

(** A call of [handleViewStory] with the story at an index of the list
    keeps the viewer consistent, run to its end or up to its [await]. *)
Lemma view_wellIndexed (atomic : bool) cu now os i st :
  (forall t j, In (t, j) (intervals st) -> inRange st j) ->
  (forall s j, In (s, j) (suspended st) -> inRange st j) ->
  inRange st i ->
  os = Js.index (myStories st ++ stories st) i ->
  wellIndexed
    ((if atomic then handleViewStory cu now else handleViewStory_enter cu)
       os i st).
Proof.
  intros Hint Hsus Hi Hos.
  destruct atomic; [unfold handleViewStory | unfold handleViewStory_enter];
    destruct os as [s|]; [| | destruct (awaitsStore cu s) |];
    unfold wellIndexed, inRange in *;
    cbn [showStory startTimer with_db setSuspended showStoryViewer
         currentStoryIndex selectedStory myStories stories intervals
         suspended].
  all: split; [intros _; split; [exact Hi | exact Hos] | split];
    intros x j H; try (apply in_app_or in H as [H|[[= _ <-]|[]]]);
    first [exact Hi | eauto].
Qed.

End ViewerIndex.

Section ViewerInvariant.

Import StoryEngine.

Lemma wellIndexed_frame st st' :
  myStories st' = myStories st -> stories st' = stories st ->
  (showStoryViewer st' = true ->
     showStoryViewer st = true
     /\ currentStoryIndex st' = currentStoryIndex st
     /\ selectedStory st' = selectedStory st) ->
  (forall t i, In (t, i) (intervals st') -> In (t, i) (intervals st)) ->
  (forall s i, In (s, i) (suspended st') -> In (s, i) (suspended st)) ->
  wellIndexed st -> wellIndexed st'.
Proof.
  intros Hm Hs Hshow Hint Hsus (H1 & H2 & H3).
  unfold wellIndexed, inRange in *. rewrite Hm, Hs. repeat split.
  - destruct (Hshow H) as (Ha & -> & _). now apply H1.
  - destruct (Hshow H) as (Ha & -> & _). now apply H1.
  - destruct (Hshow H) as (Ha & -> & ->). now apply H1.
  - apply (H2 t i). auto.
  - apply (H2 t i). auto.
  - apply (H3 s i). auto.
  - apply (H3 s i). auto.
Qed.

Lemma clearInterval_sub t st x :
  In x (intervals (clearInterval t st)) -> In x (intervals st).
Proof. cbn [clearInterval intervals]. intros H. now apply filter_In in H. Qed.

Lemma clearStoryTimer_sub st x :
  In x (intervals (clearStoryTimer st)) -> In x (intervals st).
Proof.
  unfold clearStoryTimer. destruct (storyTimer st); [|auto].
  apply clearInterval_sub.
Qed.

Lemma clearStoryTimer_fields st :
  myStories (clearStoryTimer st) = myStories st
  /\ stories (clearStoryTimer st) = stories st
  /\ suspended (clearStoryTimer st) = suspended st
  /\ currentStoryIndex (clearStoryTimer st) = currentStoryIndex st.
Proof. unfold clearStoryTimer. destruct (storyTimer st); repeat split. Qed.

Lemma closeStoryViewer_wellIndexed st :
  wellIndexed st -> wellIndexed (closeStoryViewer st).
Proof.
  intros H. assert (Hc : wellIndexed (clearStoryTimer st)).
  { destruct (clearStoryTimer_fields st) as (Hm & Hs & Hsus & Hi).
    apply (wellIndexed_frame st); auto.
    - unfold clearStoryTimer. destruct (storyTimer st); auto.
    - intros t i. apply clearStoryTimer_sub.
    - now rewrite Hsus. }
  unfold closeStoryViewer. fold (clearStoryTimer st).
  apply (wellIndexed_frame (clearStoryTimer st)); auto; discriminate.
Qed.

(** Every event keeps the viewer consistent. *)
Lemma step_wellIndexed atomic cu now e st :
  wellIndexed st -> rendered e st ->
  wellIndexed (step atomic cu now e st).
Proof.
  intros H Hr. pose proof H as (Hshown & Hint & Hsus).
  destruct e as [|userId|t| | | |k]; cbn [step rendered] in *.
  - unfold openMyStory. destruct (Js.len (myStories st) >? 0) eqn:E.
    + apply Z.gtb_lt in E.
      apply view_wellIndexed; auto.
      * unfold inRange. rewrite len_app. unfold Js.len in *. lia.
      * symmetry. apply index_app_left. lia.
    + apply (wellIndexed_frame st); auto.
  - unfold openUserStories.
    destruct (findIndex_first userId (stories st) Hr 0) as [Hrange Hidx].
    rewrite Z.sub_0_r in Hidx.
    apply view_wellIndexed; auto.
    + unfold inRange. rewrite len_app. unfold Js.len in *. lia.
    + rewrite index_app_right by lia. now symmetry.
  - unfold tick.
    destruct (find (fun e => (fst e =? t)%nat) (intervals st))
      as [[t' index]|] eqn:Hf; [|exact H].
    apply find_some in Hf as [Hin _]. pose proof (Hint _ _ Hin) as Hi.
    destruct (storyProgress st >=? 100).
    + apply (wellIndexed_frame
               (if index <? Js.len (myStories st ++ stories st) - 1
                then (if atomic then handleViewStory cu now
                      else handleViewStory_enter cu)
                       (Js.index (myStories st ++ stories st) (index + 1))
                       (index + 1) (clearInterval t st)
                else setShowStoryViewer false (clearInterval t st)));
        auto.
      destruct (index <? Js.len (myStories st ++ stories st) - 1) eqn:E.
      * apply Z.ltb_lt in E. unfold inRange in Hi.
        apply view_wellIndexed; auto.
        -- intros t0 j Hj. apply clearInterval_sub in Hj. eauto.
        -- unfold inRange.
           cbn [clearInterval myStories stories]. lia.
      * apply (wellIndexed_frame st); auto; try discriminate.
        intros t0 j. apply clearInterval_sub.
    + apply (wellIndexed_frame st); auto.
  - unfold nextStory.
    destruct (clearStoryTimer_fields st) as (Hm & Hs & Hsu & Hi).
    destruct (currentStoryIndex st <? _) eqn:E.
    + apply Z.ltb_lt in E. destruct (Hshown Hr) as [Hrange _].
      unfold inRange in Hrange.
      apply view_wellIndexed.
      * intros t j Hj. apply clearStoryTimer_sub in Hj.
        unfold inRange. rewrite Hm, Hs. now apply (Hint t j).
      * intros s j Hj. rewrite Hsu in Hj.
        unfold inRange. rewrite Hm, Hs. now apply (Hsus s j).
      * unfold inRange. rewrite Hm, Hs. lia.
      * now rewrite Hm, Hs.
    + now apply closeStoryViewer_wellIndexed.
  - unfold prevStory.
    destruct (clearStoryTimer_fields st) as (Hm & Hs & Hsu & Hi).
    destruct (currentStoryIndex st >? 0) eqn:E; [|exact H].
    apply Z.gtb_lt in E. destruct (Hshown Hr) as [Hrange _].
    unfold inRange in Hrange.
    apply view_wellIndexed.
    + intros t j Hj. apply clearStoryTimer_sub in Hj.
      unfold inRange. rewrite Hm, Hs. now apply (Hint t j).
    + intros s j Hj. rewrite Hsu in Hj.
      unfold inRange. rewrite Hm, Hs. now apply (Hsus s j).
    + unfold inRange. rewrite Hm, Hs. lia.
    + now rewrite Hm, Hs.
  - now apply closeStoryViewer_wellIndexed.
  - unfold handleViewStory_resume.
    destruct (nth_error (suspended st) k) as [[s index]|] eqn:N; [|exact H].
    apply nth_error_In in N. pose proof (Hsus _ _ N) as Hi.
    unfold wellIndexed, inRange in *.
    cbn [startTimer with_db setSuspended showStoryViewer currentStoryIndex
         selectedStory myStories stories intervals suspended].
    split; [exact Hshown|]. split.
    + intros t j Hj. apply in_app_or in Hj as [Hj|[[= _ <-]|[]]]; eauto.
    + intros s0 j Hj. apply remove_nth_In in Hj. eauto.
Qed.

(** Whatever is clicked and whenever the timers fire and the store
    answers, with [handleViewStory] run to its end or split at its
    [await]: while the viewer is open it shows the story that stands at
    [currentStoryIndex] in [myStories ++ stories], and that index, like
    the index of every timer and of every waiting call, lies within the
    list - the viewer never opens on a story that does not exist. *)
Theorem viewer_shows_story_at_index
    (atomic : bool) (cu : option User) (events : list (Z * Event)) :
  forall st,
    wellIndexed st -> renderedAll atomic cu events st ->
    let st' := run atomic cu events st in
    wellIndexed st'
    /\ (showStoryViewer st' = true ->
        exists s,
          selectedStory st' = Some s
          /\ Js.index (myStories st' ++ stories st') (currentStoryIndex st')
             = Some s).
Proof.
  induction events as [|[now e] rest IH]; intros st H Hr; cbn [run].
  - split; [exact H|]. intros Hshow.
    destruct H as (Hs & _). destruct (Hs Hshow) as [Hrange Hsel].
    destruct (index_in_range _ _ Hrange) as [s Hidx].
    exists s. split; [congruence | exact Hidx].
  - destruct Hr as [Hr Hrest]. apply IH; [|exact Hrest].
    now apply step_wellIndexed.
Qed.

Lemma viewer_shows_story_at_index_witness :
  let st' := run false (Some Sample.carol) Sample.doubleNext
               Sample.carolBar in
  wellIndexed Sample.carolBar
  /\ renderedAll false (Some Sample.carol) Sample.doubleNext Sample.carolBar
  /\ exists s,
       selectedStory st' = Some s
       /\ Js.index (myStories st' ++ stories st') (currentStoryIndex st')
          = Some s.
Proof.
  cbv zeta.
  assert (H1 : wellIndexed Sample.carolBar).
  { split; [discriminate|]. split; intros ? ? [].  }
  assert (H2 : renderedAll false (Some Sample.carol) Sample.doubleNext
                 Sample.carolBar).
  { cbn [renderedAll Sample.doubleNext]. repeat split.
    eexists. split; [left; reflexivity | reflexivity]. }
  split; [exact H1|]. split; [exact H2|].
  apply (viewer_shows_story_at_index false (Some Sample.carol)
           Sample.doubleNext Sample.carolBar H1 H2).
  reflexivity.
Defined.

End ViewerInvariant.

Section TimersAndAges.

Import StoryEngine.

(** With every call of [handleViewStory] run to its end and the circles
    clicked only while the viewer is closed, Alice's browsing leaves one
    interval at most. *)
Lemma one_timer_when_calls_run_to_their_end_witness :
  oneTimer Sample.aliceBar
  /\ clickableAll true (Some Sample.alice) Sample.browse Sample.aliceBar
  /\ (List.length
        (intervals (run true (Some Sample.alice) Sample.browse
                      Sample.aliceBar)) <= 1)%nat.
Proof.
  assert (H1 : oneTimer Sample.aliceBar).
  { split; [reflexivity|]. split; [now left | reflexivity]. }
  assert (H2 : clickableAll true (Some Sample.alice) Sample.browse
                 Sample.aliceBar).
  { cbn [clickableAll Sample.browse]. repeat split. }
  split; [exact H1|]. split; [exact H2|].
  exact (proj1 (one_timer_when_calls_run_to_their_end (Some Sample.alice)
                  Sample.browse Sample.aliceBar H1 H2)).
Defined.

(** The age [formatTimeAgo] shows for a timestamp, at the clock reading it
    makes when it is called: "Just now" while less than a whole hour has
    passed (and for a timestamp ahead of the clock), "1 hour ago" during the
    second hour, and from two hours on the whole hours that have passed.
    The number stays at 23 or below exactly when the call comes less than
    24 hours after the timestamp. *)
Theorem formatTimeAgo_whole_hours (now created : Z) :
  (now - created < 3600000 -> formatTimeAgo now created = "Just now")
  /\ (3600000 <= now - created < 7200000 ->
      formatTimeAgo now created = "1 hour ago")
  /\ (7200000 <= now - created ->
      exists h,
        2 <= h
        /\ h * 3600000 <= now - created < (h + 1) * 3600000
        /\ formatTimeAgo now created
           = Js.template [Js.num_to_string h; " hours ago"]
        /\ (h <= 23 <-> now < created + 86400000)).
Proof.
  unfold formatTimeAgo.
  change (1000 * 60 * 60) with 3600000.
  pose proof (Z.div_mod (now - created) 3600000 ltac:(lia)) as Hdiv.
  pose proof (Z.mod_pos_bound (now - created) 3600000 ltac:(lia)) as Hmod.
  set (h := (now - created) / 3600000) in *.
  split; [|split].
  - intros H. assert (Hh : (h <? 1) = true) by (apply Z.ltb_lt; lia).
    now rewrite Hh.
  - intros H. assert (Hh : h = 1) by lia. rewrite Hh. reflexivity.
  - intros H. exists h.
    split; [lia|]. split; [lia|].
    assert (Hh1 : (h <? 1) = false) by (apply Z.ltb_ge; lia).
    assert (Hh2 : (h =? 1) = false) by (apply Z.eqb_neq; lia).
    rewrite Hh1, Hh2. split; [reflexivity | lia].
Qed.

Lemma formatTimeAgo_whole_hours_witness :
  formatTimeAgo (100 + 5 * 3600000 + 17) 100 = "5 hours ago"
  /\ formatTimeAgo (100 + 3599999) 100 = "Just now"
  /\ formatTimeAgo (100 + 3600000) 100 = "1 hour ago".
Proof.
  destruct (formatTimeAgo_whole_hours (100 + 5 * 3600000 + 17) 100)
    as (_ & _ & H5).
  destruct H5 as (h & _ & Hh & -> & _); [lia|].
  assert (E : h = 5) by lia. rewrite E.
  split; [reflexivity|]. split.
  - apply (proj1 (formatTimeAgo_whole_hours (100 + 3599999) 100)). lia.
  - apply (proj1 (proj2 (formatTimeAgo_whole_hours (100 + 3600000) 100))).
    lia.
Defined.

(** The lists of the bar are what [loadStories] found when it ran, and the
    age is computed when the bar is drawn: a story that was listed at 200
    and is still on the bar a day later is shown as 24 hours old. *)
Lemma listed_story_shown_a_day_old :
  exists s,
    In s (stories Sample.carolBar)
    /\ story_id (story_row s) = "story_100"
    /\ formatTimeAgo (100 + 86400000) (story_createdAt (story_row s))
       = "24 hours ago".
Proof.
  eexists. split; [left; reflexivity|]. split; reflexivity.
Qed.

End TimersAndAges.

(** ** Presence *)

Section PresenceFacts.

Import Presence.

Lemma filter_map_commute {A : Type} (p : A -> bool) (f : A -> A)
    (l : list A) :
  (forall x, p (f x) = p x) -> filter p (map f l) = map f (filter p l).
Proof.
  intros H. induction l as [|x r IH]; [reflexivity|].
  cbn [map filter]. rewrite H. destruct (p x); cbn [map]; now rewrite IH.
Qed.

Lemma registered_update email id patch st cu :
  (forall u, row_email (patch u) = row_email u) ->
  registered email
    {| users := Store.update row_id id patch (users st); currentUser := cu |}
  = Store.update row_id id patch (registered email st).
Proof.
  intros H. unfold registered, Store.update. cbn [users].
  apply filter_map_commute. intros u.
  destruct (row_id u =? id)%string; [now rewrite H | reflexivity].
Qed.

(** What one sign-in does: it signs in the first row registered under the
    address, or a new row when there is none. *)
Lemma initializeUser_effect (a : AuthUser) (now : Z) (st : State) :
  let st' := initializeUser a now st in
  exists u,
    currentUser st' = Some u
    /\ app_email u = auth_email a
    /\ app_isOnline u = true /\ app_lastSeen u = now
    /\ option_map row_id (hd_error (registered (auth_email a) st'))
       = Some (app_id u)
    /\ match registered (auth_email a) st with
       | [] =>
           List.length (users st') = S (List.length (users st))
           /\ List.length (registered (auth_email a) st') = 1%nat
       | existing :: _ =>
           app_id u = row_id existing
           /\ List.length (users st') = List.length (users st)
           /\ List.length (registered (auth_email a) st')
              = List.length (registered (auth_email a) st)
       end.
Proof.
  cbv zeta. unfold initializeUser, Store.limit, Store.list_where.
  fold (registered (auth_email a) st).
  destruct (registered (auth_email a) st) as [|existing rest] eqn:E;
    cbn [firstn].
  - eexists. split; [reflexivity|].
    repeat split; cbn [app_email app_isOnline app_lastSeen app_id users].
    + unfold registered, Store.create. cbn [users]. rewrite filter_app.
      unfold registered in E. rewrite E. cbn [filter row_email app].
      now rewrite String.eqb_refl.
    + unfold Store.create. rewrite length_app. cbn. lia.
    + unfold registered, Store.create. cbn [users]. rewrite filter_app.
      unfold registered in E. rewrite E. cbn [filter row_email app].
      now rewrite String.eqb_refl.
  - assert (Hemail : row_email existing = auth_email a).
    { assert (Hin : In existing (registered (auth_email a) st))
        by (rewrite E; now left).
      unfold registered in Hin. apply filter_In in Hin as [_ Hin].
      now apply String.eqb_eq. }
    eexists. split; [reflexivity|].
    cbn [app_email app_isOnline app_lastSeen app_id].
    split; [exact Hemail|]. split; [reflexivity|]. split; [reflexivity|].
    rewrite registered_update by reflexivity. rewrite E.
    split; [|split; [reflexivity|split]].
    + unfold Store.update. cbn [map hd_error option_map].
      rewrite String.eqb_refl. reflexivity.
    + cbn [users]. apply update_length.
    + apply update_length.
Qed.

(** Signing in again with the same address, as often as wanted, never adds
    a second row for it: the first sign-in adds a row only when the address
    is new, the second adds none, and both sign in the same user id, marked
    online with the time of the sign-in. *)
Theorem sign_in_again_same_user (a : AuthUser) (t1 t2 : Z) (st : State) :
  let st1 := initializeUser a t1 st in
  let st2 := initializeUser a t2 st1 in
  List.length (users st2) = List.length (users st1)
  /\ List.length (registered (auth_email a) st2)
     = List.length (registered (auth_email a) st1)
  /\ (registered (auth_email a) st = [] ->
      List.length (registered (auth_email a) st2) = 1%nat)
  /\ exists u1 u2,
       currentUser st1 = Some u1 /\ currentUser st2 = Some u2
       /\ app_id u2 = app_id u1
       /\ app_isOnline u2 = true /\ app_lastSeen u2 = t2.
Proof.
  cbv zeta.
  destruct (initializeUser_effect a t1 st)
    as (u1 & Hc1 & _ & _ & _ & Hfirst1 & Hcase1).
  destruct (initializeUser_effect a t2 (initializeUser a t1 st))
    as (u2 & Hc2 & _ & Hon & Hseen & _ & Hcase2).
  cbv zeta in *.
  destruct (registered (auth_email a) (initializeUser a t1 st))
    as [|existing rest] eqn:E; [discriminate|].
  destruct Hcase2 as (Hid & Hlen & Hreg).
  cbn [hd_error option_map] in Hfirst1. injection Hfirst1 as Hfirst1.
  split; [exact Hlen|]. split; [exact Hreg|]. split.
  - intros Hnew. rewrite Hnew in Hcase1. rewrite Hreg. apply Hcase1.
  - exists u1, u2. repeat split; try assumption. congruence.
Qed.

Lemma sign_in_again_same_user_witness :
  let st1 := initializeUser Sample.carolSignsIn 1000 Sample.userTable in
  let st2 := initializeUser Sample.carolSignsIn 2000 st1 in
  registered "carol@example.org" Sample.userTable = []
  /\ List.length (users st2) = 3%nat
  /\ List.length (registered "carol@example.org" st2) = 1%nat
  /\ option_map app_displayName (currentUser st2) = Some "carol".
Proof.
  cbv zeta.
  destruct (sign_in_again_same_user Sample.carolSignsIn 1000 2000
              Sample.userTable) as (Hlen & _ & Hone & _).
  split; [reflexivity|].
  split; [rewrite Hlen; reflexivity|].
  split; [apply Hone; reflexivity | reflexivity].
Defined.

(** The heartbeat and the unload hook change nothing but the presence of
    the rows with the current user's id: the table keeps its length and
    every id and address, every row with another id is kept as it is, and
    afterwards each row with that id carries the time of the call as
    [lastSeen]; after the unload hook it is offline, after a heartbeat it
    is online or offline as before. *)
Theorem presence_writes_touch_one_user (cu : AppUser) (now : Z) (st : State) :
  currentUser st = Some cu ->
  forall (unload : bool),
    let st' := if unload then handleBeforeUnload now st
               else heartbeat now st in
    map (fun u => (row_id u, row_email u, row_displayName u)) (users st')
    = map (fun u => (row_id u, row_email u, row_displayName u)) (users st)
    /\ (forall u, In u (users st) -> row_id u <> app_id cu ->
          In u (users st'))
    /\ (forall u', In u' (users st') -> row_id u' = app_id cu ->
          row_lastSeen u' = now
          /\ exists u, In u (users st) /\ row_id u = app_id cu
                       /\ row_isOnline u'
                          = if unload then false else row_isOnline u)
    /\ currentUser st' = Some cu.
Proof.
  intros Hcu unload st'. subst st'.
  assert (G : forall patch,
    (forall u, (row_id (patch u), row_email (patch u),
                row_displayName (patch u))
               = (row_id u, row_email u, row_displayName u)) ->
    (forall u, row_lastSeen (patch u) = now) ->
    (forall u, row_isOnline (patch u)
               = if unload then false else row_isOnline u) ->
    let table := Store.update row_id (app_id cu) patch (users st) in
    map (fun u => (row_id u, row_email u, row_displayName u)) table
    = map (fun u => (row_id u, row_email u, row_displayName u)) (users st)
    /\ (forall u, In u (users st) -> row_id u <> app_id cu -> In u table)
    /\ (forall u', In u' table -> row_id u' = app_id cu ->
          row_lastSeen u' = now
          /\ exists u, In u (users st) /\ row_id u = app_id cu
                       /\ row_isOnline u'
                          = if unload then false else row_isOnline u)).
  { intros patch Hkeep Hseen Honline table. subst table. split; [|split].
    - unfold Store.update. rewrite map_map. apply map_ext. intros u.
      destruct (row_id u =? app_id cu)%string; [apply Hkeep | reflexivity].
    - intros u Hu Hne. apply update_In. exists u. split; [exact Hu|].
      apply String.eqb_neq in Hne. now rewrite Hne.
    - intros u' Hu' Hid. apply update_In in Hu' as (u & Hu & ->).
      destruct (row_id u =? app_id cu)%string eqn:E.
      + split; [apply Hseen|]. exists u. split; [exact Hu|].
        split; [now apply String.eqb_eq | apply Honline].
      + apply String.eqb_neq in E. contradiction. }
  destruct unload; [unfold handleBeforeUnload | unfold heartbeat];
    rewrite Hcu; cbn [users currentUser].
  - destruct (G (setPresence false now)) as (H1 & H2 & H3);
      try reflexivity.
    split; [exact H1|]. split; [exact H2|]. split; [exact H3|reflexivity].
  - destruct (G (setLastSeen now)) as (H1 & H2 & H3); try reflexivity.
    split; [exact H1|]. split; [exact H2|]. split; [exact H3|reflexivity].
Qed.

Lemma presence_writes_touch_one_user_witness :
  let st := initializeUser
              {| auth_email := "alice@example.org";
                 auth_displayName := None; auth_avatarUrl := None |}
              1000 Sample.userTable in
  map (fun u => (row_isOnline u, row_lastSeen u)) (users st)
  = [(true, 1000); (true, 60)]
  /\ map (fun u => (row_isOnline u, row_lastSeen u))
       (users (handleBeforeUnload 5000 st))
     = [(false, 5000); (true, 60)]
  /\ exists cu, currentUser (handleBeforeUnload 5000 st) = Some cu.
Proof.
  cbv zeta. split; [reflexivity|]. split; [reflexivity|].
  eexists.
  refine (proj2 (proj2 (proj2
    (presence_writes_touch_one_user _ 5000
       (initializeUser
          {| auth_email := "alice@example.org";
             auth_displayName := None; auth_avatarUrl := None |}
          1000 Sample.userTable) eq_refl true)))).
Defined.

End PresenceFacts.

(** ** Call log *)

Section CallLogFacts.

Import CallLog.

Lemma sorted_app_cross {A : Type} (R : A -> A -> Prop) (l1 l2 : list A) :
  StronglySorted R (l1 ++ l2) ->
  forall x y, In x l1 -> In y l2 -> R x y.
Proof.
  induction l1 as [|a r IH]; intros H x y Hx Hy; [destruct Hx|].
  cbn [app] in H. inversion H as [|? ? Hs Hall]; subst.
  destruct Hx as [<-|Hx].
  - rewrite Forall_forall in Hall. apply Hall. apply in_or_app. now right.
  - now apply IH.
Qed.

Lemma firstn_In {A : Type} (n : nat) (l : list A) (x : A) :
  In x (firstn n l) -> In x l.
Proof.
  intros H. rewrite <- (firstn_skipn n l). apply in_or_app. now left.
Qed.

Lemma sorted_firstn {A : Type} (R : A -> A -> Prop) (n : nat) (l : list A) :
  StronglySorted R l -> StronglySorted R (firstn n l).
Proof.
  intros H. revert n. induction H as [|a r Hs IH Hall]; intros n.
  - rewrite firstn_nil. constructor.
  - destruct n; cbn [firstn]; constructor; [apply IH|].
    rewrite Forall_forall in *. intros x Hx. apply Hall.
    eapply firstn_In; eauto.
Qed.

(** The call list shows the user's fifty latest calls: at most fifty
    entries, each a call the user made or received, from the latest to the
    oldest; a call of the user that is left out started no later than any
    call shown, and with fifty calls or fewer none is left out. *)
Theorem loadCalls_latest_fifty
    (cu : User) (d : Store.Db) (table : list CallRow) (old : list Call) :
  let shown := userCalls cu table in
  loadCalls (Some cu) d table old = map (resolve d) shown
  /\ (List.length (loadCalls (Some cu) d table old) <= 50)%nat
  /\ (forall c, In c shown -> In c table /\ involves (user_id cu) c = true)
  /\ StronglySorted (fun a b => startedAt b <= startedAt a)
       (loadCalls (Some cu) d table old)
  /\ (forall c, In c table -> involves (user_id cu) c = true ->
        In c shown
        \/ forall c', In c' shown -> call_startedAt c <= call_startedAt c')
  /\ ((List.length (filter (involves (user_id cu)) table) <= 50)%nat ->
      Permutation shown (filter (involves (user_id cu)) table)).
Proof.
  cbv zeta. unfold loadCalls, userCalls, Store.limit, Store.list_where.
  set (mine := filter (involves (user_id cu)) table).
  set (sorted := Store.order_desc call_startedAt mine).
  pose proof (order_desc_sorted call_startedAt mine) as Hsorted.
  fold sorted in Hsorted.
  split; [reflexivity|]. split; [|split; [|split; [|split]]].
  - rewrite length_map. apply firstn_le_length.
  - intros c Hc. apply firstn_In in Hc.
    apply order_desc_In in Hc. now apply filter_In in Hc.
  - apply sorted_map with (f := resolve d)
                          (P := fun a b => startedAt b <= startedAt a).
    cbn [resolve startedAt]. now apply sorted_firstn.
  - intros c Hc Hinv.
    assert (Hin : In c sorted).
    { apply order_desc_In. apply filter_In. now split. }
    rewrite <- (firstn_skipn 50 sorted) in Hin, Hsorted.
    apply in_app_or in Hin as [Hin|Hin]; [now left | right].
    intros c' Hc'. exact (sorted_app_cross _ _ _ Hsorted c' c Hc' Hin).
  - intros Hlen. rewrite firstn_all2.
    + apply order_desc_perm.
    + unfold sorted.
      rewrite (Permutation_length (order_desc_perm call_startedAt mine)).
      exact Hlen.
Qed.

(** A caller or receiver whose user row is missing, or has an empty
    name, is shown as "Unknown". *)
Lemma nameOf_unknown (d : Store.Db) (uid : string) :
  (forall u, In u (Store.users d) -> user_id u = uid ->
             displayName u = EmptyString) ->
  nameOf d uid = "Unknown".
Proof.
  intros H. unfold nameOf.
  destruct (Store.limit 1 _) as [|u l] eqn:E; [reflexivity|].
  apply limit1_head in E as [Hin Hid]. apply String.eqb_eq in Hid.
  now rewrite (H u Hin Hid).
Qed.

End CallLogFacts.

Section MoreWitnesses.

(** Alice's call list: her two calls, the later one first. *)
Lemma loadCalls_latest_fifty_witness :
  map CallLog.id
    (CallLog.loadCalls (Some Sample.alice) Sample.storyDb Sample.callTable [])
  = ["call_3"; "call_1"]
  /\ Permutation (CallLog.userCalls Sample.alice Sample.callTable)
       (filter (CallLog.involves "u_alice") Sample.callTable).
Proof.
  split; [reflexivity|].
  apply (proj2 (proj2 (proj2 (proj2 (proj2
    (loadCalls_latest_fifty Sample.alice Sample.storyDb Sample.callTable
       [])))))).
  cbn. lia.
Defined.

(** Carol's bar at time 200: her own story apart, the four of the others,
    newest first. *)
Lemma loadStories_partitions_active_witness :
  map (fun s => story_id (StoryEngine.story_row s))
    (StoryEngine.myStories Sample.carolBar)
  = ["story_70"]
  /\ (forall s, In s (StoryEngine.stories Sample.carolBar) ->
        story_userId (StoryEngine.story_row s) <> user_id Sample.carol).
Proof.
  split; [reflexivity|].
  exact (proj1 (proj2
    (loadStories_partitions_active Sample.carol 200
       (StoryEngine.mounted Sample.storyDb [] [])))).
Defined.

End MoreWitnesses.

Section SendAndChats.

Import Pipeline.

(** What a successful send does to the chats table when the selected chat
    has a row there: no row is added or removed and no id changes; the rows
    of the selected chat get the time of the send as [lastMessageAt] and
    [updatedAt] and keep their name, type and creator; the rows of every
    other chat are kept as they are. *)
Theorem send_stamps_selected_chat
    (cu : User) (chatId : string) (idTime now : Z) (st : State) :
  Js.truthy (Js.trim (newMessage st)) = true ->
  Js.truthy chatId = true ->
  (exists c, In c (Store.chats (db st)) /\ chat_id c = chatId) ->
  let st' := sendMessage (Some cu) (Some chatId) idTime now true true st in
  map (fun c => (chat_id c, chat_name c, chat_type c, chat_createdBy c))
    (Store.chats (db st'))
  = map (fun c => (chat_id c, chat_name c, chat_type c, chat_createdBy c))
      (Store.chats (db st))
  /\ (forall c, In c (Store.chats (db st)) -> chat_id c <> chatId ->
        In c (Store.chats (db st')))
  /\ (forall c', In c' (Store.chats (db st')) -> chat_id c' = chatId ->
        chat_lastMessageAt c' = now /\ chat_updatedAt c' = now)
  /\ (exists c', In c' (Store.chats (db st')) /\ chat_id c' = chatId
                 /\ chat_lastMessageAt c' = now).
Proof.
  intros Hbody Hchat (c0 & Hc0 & Hid0) st'. subst st'. unfold sendMessage.
  rewrite (sendMessage_passes_guard _ _ Hbody Hchat).
  cbn [with_db db Store.chats Store.set_chats Store.set_messages
       Store.messages].
  split; [|split; [|split]].
  - unfold Store.update. rewrite map_map. apply map_ext. intros c.
    destruct (chat_id c =? chatId)%string; reflexivity.
  - intros c Hc Hne. apply update_In. exists c. split; [exact Hc|].
    apply String.eqb_neq in Hne. now rewrite Hne.
  - intros c' Hc' Hid. apply update_In in Hc' as (c & Hc & ->).
    destruct (chat_id c =? chatId)%string eqn:E; [split; reflexivity|].
    apply String.eqb_neq in E. contradiction.
  - eexists. split.
    + apply update_In. exists c0. split; [exact Hc0 | reflexivity].
    + apply String.eqb_eq in Hid0. rewrite Hid0.
      split; [|reflexivity]. now apply String.eqb_eq.
Qed.

(** Bob sends into chat [c1] while the store holds the chats [c1] and
    [c2]: the row of [c1] is stamped with the time of the send, the row of
    [c2] keeps its stamps. *)
Lemma send_stamps_selected_chat_witness :
  let st := Sample.chatArea Sample.twoChats [Sample.helloShown]
              "how are you?" in
  let st' := sendMessage (Some Sample.bob) (Some "c1") 1700000000500
               1700000000501 true true st in
  Js.truthy (Js.trim (newMessage st)) = true
  /\ Js.truthy "c1" = true
  /\ (exists c, In c (Store.chats (db st)) /\ chat_id c = "c1")
  /\ (exists c', In c' (Store.chats (db st')) /\ chat_id c' = "c1"
                 /\ chat_lastMessageAt c' = 1700000000501)
  /\ map (fun c => (chat_id c, chat_lastMessageAt c, chat_updatedAt c))
       (Store.chats (db st))
     = [("c1", 0, 1000); ("c2", 0, 2000)]
  /\ map (fun c => (chat_id c, chat_lastMessageAt c, chat_updatedAt c))
       (Store.chats (db st'))
     = [("c1", 1700000000501, 1700000000501); ("c2", 0, 2000)].
Proof.
  cbv zeta.
  assert (Hrow : exists c,
            In c (Store.chats
                    (db (Sample.chatArea Sample.twoChats [Sample.helloShown]
                           "how are you?")))
            /\ chat_id c = "c1").
  { eexists. split; [left; reflexivity | reflexivity]. }
  destruct (send_stamps_selected_chat Sample.bob "c1" 1700000000500
              1700000000501
              (Sample.chatArea Sample.twoChats [Sample.helloShown]
                 "how are you?") eq_refl eq_refl Hrow) as (_ & _ & _ & H).
  split; [reflexivity|]. split; [reflexivity|].
  split; [exact Hrow|]. split; [exact H|]. split; reflexivity.
Defined.

End SendAndChats.
